(** * usbcam.h: buffer lifecycle and drain-to-latest capture protocol

    A shallow embedding of [usbcam.h] (a header-only V4L2 capture helper)
    together with a small executable model of the capture device the header
    talks to.

    - The header keeps its state in file-level statics and reports every
      failure with [exit(EXIT_FAILURE)].  Both are made explicit: the
      statics are a record threaded through a state monad, and a call
      either returns or stops the process with a recorded reason.
    - The two loops C does not bound, the [do ... while] of [usbcam_ioctl]
      and the [while (r == 1)] of [usbcam_lock], take a budget [fuel]; the
      properties say which budget is enough.
    - The device is a state machine with the queues of the V4L2 streaming
      API.  Between calls the driver may complete captures, and the
      environment may schedule the failure of any coming call, so that
      interrupted requests, device errors and poll errors are all runs of
      the model. *)

From Stdlib Require Import ZArith Lia Bool String.
From stdpp Require Import base list.

Local Open Scope string_scope.
Local Open Scope Z_scope.

(** ** C data *)

(** [struct timeval] *)
Record timeval := { tv_sec : Z; tv_usec : Z }.

(** The fields of [struct v4l2_buffer] that the header reads or writes. *)
Record v4l2_buffer := {
  b_index : Z;
  b_type : Z;
  b_bytesused : Z;
  b_timestamp : timeval;
  b_memory : Z;
  b_offset : Z;      (* m.offset *)
  b_length : Z
}.

(** [v4l2_buffer buf = {0};] *)
Definition zero_buffer : v4l2_buffer :=
  {| b_index := 0; b_type := 0; b_bytesused := 0;
     b_timestamp := {| tv_sec := 0; tv_usec := 0 |};
     b_memory := 0; b_offset := 0; b_length := 0 |}.

(** [fmt.fmt.pix] of [struct v4l2_format]; [sizeimage] is filled by the driver. *)
Record v4l2_pix_format := {
  pixelformat : Z;
  width : Z;
  height : Z;
  sizeimage : Z
}.

Record usbcam_opt_t := {
  device_name : string;
  buffers : Z;
  pixel_format : Z;
  opt_width : Z;
  opt_height : Z
}.

Definition usbcam_max_buffers : Z := 128.
Definition V4L2_BUF_TYPE_VIDEO_CAPTURE : Z := 1.
Definition V4L2_MEMORY_MMAP : Z := 1.
Definition O_RDWR : Z := 2.
Definition NULL : Z := 0.
Definition MAP_FAILED : Z := -1.

Inductive errno_t :=
| ENONE | EINTR | EAGAIN | EBADF | EBUSY | EINVAL | EIO | ENODEV | ENOENT | ENOMEM.

Definition is_EINTR (e : errno_t) : bool := match e with EINTR => true | _ => false end.
Definition is_EAGAIN (e : errno_t) : bool := match e with EAGAIN => true | _ => false end.

(** The ioctl requests issued by the header, and the object each one points at. *)
Inductive request :=
| VIDIOC_S_FMT | VIDIOC_REQBUFS | VIDIOC_QUERYBUF
| VIDIOC_QBUF | VIDIOC_DQBUF | VIDIOC_STREAMON | VIDIOC_STREAMOFF.

Inductive ioctl_arg :=
| ArgFormat (type : Z) (pix : v4l2_pix_format)      (* v4l2_format *)
| ArgRequest (count type memory : Z)                (* v4l2_requestbuffers *)
| ArgBuffer (b : v4l2_buffer)                       (* v4l2_buffer *)
| ArgType (type : Z).                               (* int *)

(** ** The file-level statics of the header *)

Record statics := {
  usbcam_has_mmap : Z;
  usbcam_has_dqbuf : Z;
  usbcam_has_fd : Z;
  usbcam_has_stream : Z;
  usbcam_fd : Z;
  usbcam_buffers : Z;
  usbcam_buffer_start : list Z;     (* void *[usbcam_max_buffers] *)
  usbcam_buffer_length : list Z;    (* unsigned int[usbcam_max_buffers] *)
  usbcam_dqbuf : v4l2_buffer
}.

(** Static initialisers: every flag 0, both arrays zero-filled. *)
Definition statics0 : statics :=
  {| usbcam_has_mmap := 0; usbcam_has_dqbuf := 0; usbcam_has_fd := 0;
     usbcam_has_stream := 0; usbcam_fd := 0; usbcam_buffers := 0;
     usbcam_buffer_start := replicate (Z.to_nat usbcam_max_buffers) 0;
     usbcam_buffer_length := replicate (Z.to_nat usbcam_max_buffers) 0;
     usbcam_dqbuf := zero_buffer |}.

Definition set_has_mmap (v : Z) (c : statics) : statics :=
  {| usbcam_has_mmap := v; usbcam_has_dqbuf := usbcam_has_dqbuf c;
     usbcam_has_fd := usbcam_has_fd c; usbcam_has_stream := usbcam_has_stream c;
     usbcam_fd := usbcam_fd c; usbcam_buffers := usbcam_buffers c;
     usbcam_buffer_start := usbcam_buffer_start c;
     usbcam_buffer_length := usbcam_buffer_length c;
     usbcam_dqbuf := usbcam_dqbuf c |}.

Definition set_has_dqbuf (v : Z) (c : statics) : statics :=
  {| usbcam_has_mmap := usbcam_has_mmap c; usbcam_has_dqbuf := v;
     usbcam_has_fd := usbcam_has_fd c; usbcam_has_stream := usbcam_has_stream c;
     usbcam_fd := usbcam_fd c; usbcam_buffers := usbcam_buffers c;
     usbcam_buffer_start := usbcam_buffer_start c;
     usbcam_buffer_length := usbcam_buffer_length c;
     usbcam_dqbuf := usbcam_dqbuf c |}.

Definition set_has_fd (v : Z) (c : statics) : statics :=
  {| usbcam_has_mmap := usbcam_has_mmap c; usbcam_has_dqbuf := usbcam_has_dqbuf c;
     usbcam_has_fd := v; usbcam_has_stream := usbcam_has_stream c;
     usbcam_fd := usbcam_fd c; usbcam_buffers := usbcam_buffers c;
     usbcam_buffer_start := usbcam_buffer_start c;
     usbcam_buffer_length := usbcam_buffer_length c;
     usbcam_dqbuf := usbcam_dqbuf c |}.

Definition set_has_stream (v : Z) (c : statics) : statics :=
  {| usbcam_has_mmap := usbcam_has_mmap c; usbcam_has_dqbuf := usbcam_has_dqbuf c;
     usbcam_has_fd := usbcam_has_fd c; usbcam_has_stream := v;
     usbcam_fd := usbcam_fd c; usbcam_buffers := usbcam_buffers c;
     usbcam_buffer_start := usbcam_buffer_start c;
     usbcam_buffer_length := usbcam_buffer_length c;
     usbcam_dqbuf := usbcam_dqbuf c |}.

Definition set_fd (v : Z) (c : statics) : statics :=
  {| usbcam_has_mmap := usbcam_has_mmap c; usbcam_has_dqbuf := usbcam_has_dqbuf c;
     usbcam_has_fd := usbcam_has_fd c; usbcam_has_stream := usbcam_has_stream c;
     usbcam_fd := v; usbcam_buffers := usbcam_buffers c;
     usbcam_buffer_start := usbcam_buffer_start c;
     usbcam_buffer_length := usbcam_buffer_length c;
     usbcam_dqbuf := usbcam_dqbuf c |}.

Definition set_buffers (v : Z) (c : statics) : statics :=
  {| usbcam_has_mmap := usbcam_has_mmap c; usbcam_has_dqbuf := usbcam_has_dqbuf c;
     usbcam_has_fd := usbcam_has_fd c; usbcam_has_stream := usbcam_has_stream c;
     usbcam_fd := usbcam_fd c; usbcam_buffers := v;
     usbcam_buffer_start := usbcam_buffer_start c;
     usbcam_buffer_length := usbcam_buffer_length c;
     usbcam_dqbuf := usbcam_dqbuf c |}.

Definition set_buffer_start (v : list Z) (c : statics) : statics :=
  {| usbcam_has_mmap := usbcam_has_mmap c; usbcam_has_dqbuf := usbcam_has_dqbuf c;
     usbcam_has_fd := usbcam_has_fd c; usbcam_has_stream := usbcam_has_stream c;
     usbcam_fd := usbcam_fd c; usbcam_buffers := usbcam_buffers c;
     usbcam_buffer_start := v;
     usbcam_buffer_length := usbcam_buffer_length c;
     usbcam_dqbuf := usbcam_dqbuf c |}.

Definition set_buffer_length (v : list Z) (c : statics) : statics :=
  {| usbcam_has_mmap := usbcam_has_mmap c; usbcam_has_dqbuf := usbcam_has_dqbuf c;
     usbcam_has_fd := usbcam_has_fd c; usbcam_has_stream := usbcam_has_stream c;
     usbcam_fd := usbcam_fd c; usbcam_buffers := usbcam_buffers c;
     usbcam_buffer_start := usbcam_buffer_start c;
     usbcam_buffer_length := v;
     usbcam_dqbuf := usbcam_dqbuf c |}.

Definition set_dqbuf (v : v4l2_buffer) (c : statics) : statics :=
  {| usbcam_has_mmap := usbcam_has_mmap c; usbcam_has_dqbuf := usbcam_has_dqbuf c;
     usbcam_has_fd := usbcam_has_fd c; usbcam_has_stream := usbcam_has_stream c;
     usbcam_fd := usbcam_fd c; usbcam_buffers := usbcam_buffers c;
     usbcam_buffer_start := usbcam_buffer_start c;
     usbcam_buffer_length := usbcam_buffer_length c;
     usbcam_dqbuf := v |}.

(** A C [int] used as a condition. *)
Definition truthy (z : Z) : bool := negb (z =? 0).

(** ** The capture device

    The header's collaborators ([v4l2_open], [v4l2_ioctl], [mmap], [munmap],
    [select], [close]) are not part of the header.  They are modelled by one
    camera node with the buffer-queue semantics of the V4L2 streaming API:
    buffers are handed to the driver with QBUF, the driver fills them in
    queue order, and DQBUF hands completed buffers back oldest first. *)

(** Calls that took effect, in order; an ioctl is recorded with the object
    as the driver left it. *)
Inductive syscall :=
| SysOpen (fd : Z)
| SysIoctl (req : request) (arg : ioctl_arg)
| SysMmap (addr len : Z)
| SysMunmap (addr len : Z)
| SysClose (fd : Z).

Record device := {
  d_name : string;                  (* path of the camera node *)
  d_modes : list v4l2_pix_format;   (* formats the camera supports *)
  d_max_buffers : Z;                (* most buffers REQBUFS will grant *)
  d_fd : option Z;                  (* descriptor of the open handle *)
  d_buflen : Z;                     (* byte size of each capture buffer *)
  d_count : Z;                      (* buffers granted by REQBUFS *)
  d_streaming : bool;
  d_incoming : list Z;              (* queued for filling, oldest first *)
  d_done : list v4l2_buffer;        (* filled, awaiting DQBUF, oldest first *)
  d_user : list Z;                  (* dequeued: held by the application *)
  d_maps : list (Z * Z);            (* live mappings: base address, length *)
  d_brk : Z;                        (* where the next mapping is placed *)
  d_trace : list syscall
}.

(** The process: the header's statics, C's [errno], the device, and the
    failures the environment has scheduled for the coming fallible calls
    (one entry per call; [None], or an exhausted list, lets the call
    through). *)
Record process := {
  cam : statics;
  errno : errno_t;
  script : list (option errno_t);
  dev : device
}.

Definition set_cam (c : statics) (p : process) : process :=
  {| cam := c; errno := errno p; script := script p; dev := dev p |}.
Definition set_errno (e : errno_t) (p : process) : process :=
  {| cam := cam p; errno := e; script := script p; dev := dev p |}.
Definition set_script (s : list (option errno_t)) (p : process) : process :=
  {| cam := cam p; errno := errno p; script := s; dev := dev p |}.
Definition set_dev (d : device) (p : process) : process :=
  {| cam := cam p; errno := errno p; script := script p; dev := d |}.

(** Indices [0 .. n-1]. *)
Definition zseq (n : Z) : list Z := map Z.of_nat (seq 0 (Z.to_nat n)).

Definition zmem (i : Z) (l : list Z) : bool := existsb (Z.eqb i) l.
Definition zremove (i : Z) (l : list Z) : list Z := List.filter (fun j => negb (i =? j)) l.

Definition same_mode (a b : v4l2_pix_format) : bool :=
  (pixelformat a =? pixelformat b) && (width a =? width b) && (height a =? height b).

Definition log (c : syscall) (d : device) : device :=
  {| d_name := d_name d; d_modes := d_modes d; d_max_buffers := d_max_buffers d;
     d_fd := d_fd d; d_buflen := d_buflen d; d_count := d_count d;
     d_streaming := d_streaming d; d_incoming := d_incoming d;
     d_done := d_done d; d_user := d_user d; d_maps := d_maps d;
     d_brk := d_brk d; d_trace := d_trace d ++ [c] |}.

Definition set_handle (fd : option Z) (d : device) : device :=
  {| d_name := d_name d; d_modes := d_modes d; d_max_buffers := d_max_buffers d;
     d_fd := fd; d_buflen := d_buflen d; d_count := d_count d;
     d_streaming := d_streaming d; d_incoming := d_incoming d;
     d_done := d_done d; d_user := d_user d; d_maps := d_maps d;
     d_brk := d_brk d; d_trace := d_trace d |}.

Definition set_buflen (n : Z) (d : device) : device :=
  {| d_name := d_name d; d_modes := d_modes d; d_max_buffers := d_max_buffers d;
     d_fd := d_fd d; d_buflen := n; d_count := d_count d;
     d_streaming := d_streaming d; d_incoming := d_incoming d;
     d_done := d_done d; d_user := d_user d; d_maps := d_maps d;
     d_brk := d_brk d; d_trace := d_trace d |}.

(** Replace the buffer table and the three ownership lists. *)
Definition set_queues (count : Z) (streaming : bool)
    (incoming : list Z) (done : list v4l2_buffer) (user : list Z) (d : device) : device :=
  {| d_name := d_name d; d_modes := d_modes d; d_max_buffers := d_max_buffers d;
     d_fd := d_fd d; d_buflen := d_buflen d; d_count := count;
     d_streaming := streaming; d_incoming := incoming;
     d_done := done; d_user := user; d_maps := d_maps d;
     d_brk := d_brk d; d_trace := d_trace d |}.

Definition set_maps (maps : list (Z * Z)) (brk : Z) (d : device) : device :=
  {| d_name := d_name d; d_modes := d_modes d; d_max_buffers := d_max_buffers d;
     d_fd := d_fd d; d_buflen := d_buflen d; d_count := d_count d;
     d_streaming := d_streaming d; d_incoming := d_incoming d;
     d_done := d_done d; d_user := d_user d; d_maps := maps;
     d_brk := brk; d_trace := d_trace d |}.

(** What the driver does with one request on an open handle: an error
    number, a block (the call sleeps and nothing wakes it), or the updated
    argument and device. *)
Inductive reply :=
| Done (arg : ioctl_arg) (d : device)
| Fail (e : errno_t)
| Sleep.

Definition drv_ioctl (d : device) (req : request) (arg : ioctl_arg) : reply :=
  match req, arg with
  | VIDIOC_S_FMT, ArgFormat ty pix =>
      if d_streaming d || (0 <? d_count d) then Fail EBUSY else
      match List.find (same_mode pix) (d_modes d), d_modes d with
      | Some m, _ | None, m :: _ => Done (ArgFormat ty m) (set_buflen (sizeimage m) d)
      | None, [] => Fail EINVAL
      end
  | VIDIOC_REQBUFS, ArgRequest count ty mem =>
      if d_streaming d then Fail EBUSY else
      let granted := Z.max 0 (Z.min count (d_max_buffers d)) in
      Done (ArgRequest granted ty mem) (set_queues granted false [] [] (zseq granted) d)
  | VIDIOC_QUERYBUF, ArgBuffer b =>
      if (0 <=? b_index b) && (b_index b <? d_count d) then
        Done (ArgBuffer {| b_index := b_index b; b_type := b_type b;
                           b_bytesused := 0; b_timestamp := b_timestamp b;
                           b_memory := b_memory b;
                           b_offset := b_index b * d_buflen d;
                           b_length := d_buflen d |}) d
      else Fail EINVAL
  | VIDIOC_QBUF, ArgBuffer b =>
      if zmem (b_index b) (d_user d) then
        Done arg (set_queues (d_count d) (d_streaming d)
                    (d_incoming d ++ [b_index b]) (d_done d)
                    (zremove (b_index b) (d_user d)) d)
      else Fail EINVAL
  | VIDIOC_DQBUF, ArgBuffer _ =>
      if d_streaming d then
        match d_done d with
        | b :: rest =>
            Done (ArgBuffer b)
                 (set_queues (d_count d) true (d_incoming d) rest (d_user d ++ [b_index b]) d)
        | [] => Sleep
        end
      else Fail EINVAL
  | VIDIOC_STREAMON, ArgType _ =>
      Done arg (set_queues (d_count d) true (d_incoming d) (d_done d) (d_user d) d)
  | VIDIOC_STREAMOFF, ArgType _ =>
      Done arg (set_queues (d_count d) false [] [] (zseq (d_count d)) d)
  | _, _ => Fail EINVAL
  end.

(** The buffer the driver hands back for slot [i] after a capture. *)
Definition filled (i bytes : Z) (ts : timeval) (len : Z) : v4l2_buffer :=
  {| b_index := i; b_type := V4L2_BUF_TYPE_VIDEO_CAPTURE; b_bytesused := bytes;
     b_timestamp := ts; b_memory := V4L2_MEMORY_MMAP;
     b_offset := i * len; b_length := len |}.

(** The driver completes a capture: the oldest queued buffer is filled with
    [bytes] bytes stamped [ts] and moves to the done queue.  Nothing happens
    unless the device streams, a buffer is queued, and the frame fits. *)
Definition capture (bytes : Z) (ts : timeval) (d : device) : device :=
  match d_incoming d with
  | i :: rest =>
      if d_streaming d && (0 <=? bytes) && (bytes <=? d_buflen d) then
        set_queues (d_count d) true rest
          (d_done d ++ [filled i bytes ts (d_buflen d)]) (d_user d) d
      else d
  | [] => d
  end.

(** ** Calls, outcomes and the primitives *)

(** Why a call did not return.  [AssertFail] and [RequestFailed] are the two
    places where the header calls [exit(EXIT_FAILURE)]; [NullDeref] and
    [OutOfBounds] are undefined behaviour in C; [Blocked] is a blocking call
    that nothing wakes; [OutOfFuel] is the loop budget of the model. *)
Inductive reason :=
| AssertFail (line : Z) (msg : string)
| RequestFailed (e : errno_t)
| NullDeref
| OutOfBounds
| Blocked
| OutOfFuel.

Inductive outcome (A : Type) :=
| Ret (a : A) (p : process)
| Stop (r : reason) (p : process).
Arguments Ret {A} a p.
Arguments Stop {A} r p.

Definition M (A : Type) : Type := process -> outcome A.

Definition ret {A} (a : A) : M A := fun p => Ret a p.
Definition bind {A B} (m : M A) (k : A -> M B) : M B :=
  fun p => match m p with
           | Ret a p' => k a p'
           | Stop r p' => Stop r p'
           end.
Definition stop {A} (r : reason) : M A := fun p => Stop r p.
Definition load {A} (f : statics -> A) : M A := fun p => Ret (f (cam p)) p.
Definition store (f : statics -> statics) : M unit := fun p => Ret tt (set_cam (f (cam p)) p).
Definition get_errno : M errno_t := fun p => Ret (errno p) p.

Notation "x <- m ;; k" := (bind m (fun x => k))
  (at level 100, m at next level, right associativity).
Notation "m ;;; k" := (bind m (fun _ => k))
  (at level 100, right associativity).

(** [for (int i = i0; i < i0 + n; i++) body(i)] *)
Fixpoint for_range (i : Z) (n : nat) (body : Z -> M unit) : M unit :=
  match n with
  | O => ret tt
  | S n' => body i ;;; for_range (i + 1) n' body
  end.

(** Reading and writing one of the two fixed-size arrays. *)
Definition array_get (arr : statics -> list Z) (i : Z) : M Z :=
  fun p => if i <? 0 then Stop OutOfBounds p else
           match arr (cam p) !! Z.to_nat i with
           | Some v => Ret v p
           | None => Stop OutOfBounds p
           end.

Definition array_set (arr : statics -> list Z) (upd : list Z -> statics -> statics)
    (i : Z) (v : Z) : M unit :=
  fun p => if (i <? 0) || (Z.of_nat (length (arr (cam p))) <=? i) then Stop OutOfBounds p
           else Ret tt (set_cam (upd (<[Z.to_nat i := v]> (arr (cam p))) (cam p)) p).

(** The next scheduled failure, if any. *)
Definition next_fault (p : process) : option errno_t * process :=
  match script p with
  | [] => (None, p)
  | f :: rest => (f, set_script rest p)
  end.

Definition has_handle (d : device) (fd : Z) : bool :=
  match d_fd d with
  | Some fd' => fd' =? fd
  | None => false
  end.

(** [v4l2_open(file, oflag, 0)]: the descriptor, or -1 with [errno] set. *)
Definition v4l2_open (file : string) (oflag : Z) : M Z := fun p =>
  let (f, p) := next_fault p in
  match f with
  | Some e => Ret (-1) (set_errno e p)
  | None =>
      if negb (String.eqb file (d_name (dev p))) then Ret (-1) (set_errno ENOENT p)
      else match d_fd (dev p) with
           | Some _ => Ret (-1) (set_errno EBUSY p)
           | None => Ret 3 (set_dev (log (SysOpen 3) (set_handle (Some 3) (dev p))) p)
           end
  end.

(** [v4l2_ioctl(fd, request, arg)]: 0 and the object as the driver left it,
    or -1 with [errno] set and the object untouched. *)
Definition v4l2_ioctl (fd : Z) (req : request) (arg : ioctl_arg) : M (Z * ioctl_arg) := fun p =>
  let (f, p) := next_fault p in
  match f with
  | Some e => Ret (-1, arg) (set_errno e p)
  | None =>
      if has_handle (dev p) fd then
        match drv_ioctl (dev p) req arg with
        | Done a d => Ret (0, a) (set_dev (log (SysIoctl req a) d) p)
        | Fail e => Ret (-1, arg) (set_errno e p)
        | Sleep => Stop Blocked p
        end
      else Ret (-1, arg) (set_errno EBADF p)
  end.

(** [mmap(NULL, length, PROT_READ | PROT_WRITE, MAP_SHARED, fd, offset)] *)
Definition mmap (len fd offset : Z) : M Z := fun p =>
  let (f, p) := next_fault p in
  match f with
  | Some e => Ret MAP_FAILED (set_errno e p)
  | None =>
      if negb (has_handle (dev p) fd) then Ret MAP_FAILED (set_errno EBADF p)
      else if len <=? 0 then Ret MAP_FAILED (set_errno EINVAL p)
      else let a := d_brk (dev p) in
           Ret a (set_dev (log (SysMmap a len)
                            (set_maps (d_maps (dev p) ++ [(a, len)]) (a + len) (dev p))) p)
  end.

Definition same_region (r1 r2 : Z * Z) : bool :=
  (fst r1 =? fst r2) && (snd r1 =? snd r2).

(** [munmap(addr, length)]; the header ignores the result. *)
Definition munmap (addr len : Z) : M Z := fun p =>
  Ret 0 (set_dev (log (SysMunmap addr len)
                    (set_maps (List.filter (fun r => negb (same_region r (addr, len)))
                                           (d_maps (dev p)))
                              (d_brk (dev p)) (dev p))) p).

(** [close(fd)]; the header ignores the result.  Closing the handle frees
    the driver's buffers and stops the stream. *)
Definition close (fd : Z) : M Z := fun p =>
  if has_handle (dev p) fd then
    Ret 0 (set_dev (log (SysClose fd)
                      (set_handle None (set_queues 0 false [] [] [] (dev p)))) p)
  else Ret (-1) (set_errno EBADF p).

(** [select(nfds, &fds, NULL, NULL, &tv)] with [fds = {fd}] and a zero
    timeout: 1 when a filled buffer waits, 0 when none does, -1 on error. *)
Definition select (nfds fd : Z) : M Z := fun p =>
  let (f, p) := next_fault p in
  match f with
  | Some e => Ret (-1) (set_errno e p)
  | None =>
      if has_handle (dev p) fd && (fd <? nfds) then
        match d_done (dev p) with
        | [] => Ret 0 p
        | _ :: _ => Ret 1 p
        end
      else Ret (-1) (set_errno EBADF p)
  end.

(** ** The header *)

(** [usbcam_assert(CONDITION, MESSAGE)], with the [__LINE__] it prints. *)
Definition usbcam_assert (condition : bool) (line : Z) (message : string) : M unit :=
  if condition then ret tt else stop (AssertFail line message).

(** The [do ... while] of [usbcam_ioctl]: repeat the request while it fails
    with [EINTR] or [EAGAIN]. *)
Fixpoint ioctl_retry (fuel : nat) (req : request) (arg : ioctl_arg) : M (Z * ioctl_arg) :=
  match fuel with
  | O => stop OutOfFuel
  | S fuel' =>
      fd <- load usbcam_fd ;;
      ra <- v4l2_ioctl fd req arg ;;
      e <- get_errno ;;
      if (fst ra =? -1) && (is_EINTR e || is_EAGAIN e)
      then ioctl_retry fuel' req (snd ra)
      else ret ra
  end.

Definition usbcam_ioctl (fuel : nat) (req : request) (arg : ioctl_arg) : M ioctl_arg :=
  has_fd <- load usbcam_has_fd ;;
  usbcam_assert (truthy has_fd) 87 "The camera device has not been opened yet!" ;;;
  ra <- ioctl_retry fuel req arg ;;
  if fst ra =? -1 then
    e <- get_errno ;;
    stop (RequestFailed e)
  else ret (snd ra).

(** [usbcam_ioctl(request, &buf)] for a [v4l2_buffer]. *)
Definition ioctl_buffer (fuel : nat) (req : request) (buf : v4l2_buffer) : M v4l2_buffer :=
  a <- usbcam_ioctl fuel req (ArgBuffer buf) ;;
  ret (match a with ArgBuffer b => b | _ => buf end).

Definition usbcam_cleanup (fuel : nat) : M unit :=
  (* return any buffers we have dequeued *)
  has_dqbuf <- load usbcam_has_dqbuf ;;
  (if truthy has_dqbuf then
     dqbuf <- load usbcam_dqbuf ;;
     b <- ioctl_buffer fuel VIDIOC_QBUF dqbuf ;;
     store (set_dqbuf b) ;;;
     store (set_has_dqbuf 0)
   else ret tt) ;;;
  (* free buffers *)
  has_mmap <- load usbcam_has_mmap ;;
  (if truthy has_mmap then
     n <- load usbcam_buffers ;;
     for_range 0 (Z.to_nat n) (fun i =>
       start <- array_get usbcam_buffer_start i ;;
       len <- array_get usbcam_buffer_length i ;;
       munmap start len ;;; ret tt) ;;;
     store (set_has_mmap 0)
   else ret tt) ;;;
  (* turn off streaming *)
  has_stream <- load usbcam_has_stream ;;
  (if truthy has_stream then
     usbcam_ioctl fuel VIDIOC_STREAMOFF (ArgType V4L2_BUF_TYPE_VIDEO_CAPTURE) ;;;
     store (set_has_stream 0)
   else ret tt) ;;;
  has_fd <- load usbcam_has_fd ;;
  (if truthy has_fd then
     fd <- load usbcam_fd ;;
     close fd ;;;
     store (set_has_fd 0)
   else ret tt).

Definition capture_buffer (i : Z) : v4l2_buffer :=
  {| b_index := i; b_type := V4L2_BUF_TYPE_VIDEO_CAPTURE; b_bytesused := 0;
     b_timestamp := {| tv_sec := 0; tv_usec := 0 |};
     b_memory := V4L2_MEMORY_MMAP; b_offset := 0; b_length := 0 |}.

Definition usbcam_init (fuel : nat) (opt : usbcam_opt_t) : M unit :=
  usbcam_cleanup fuel ;;;
  usbcam_assert (buffers opt <=? usbcam_max_buffers) 139 "You requested too many buffers" ;;;
  usbcam_assert (0 <? buffers opt) 140 "You need atleast one buffer" ;;;
  (* Open the device *)
  fd <- v4l2_open (device_name opt) O_RDWR ;;
  store (set_fd fd) ;;;
  usbcam_assert (0 <=? fd) 144 "Failed to open device" ;;;
  store (set_has_fd 1) ;;;
  (* set format *)
  fmt <- usbcam_ioctl fuel VIDIOC_S_FMT
           (ArgFormat V4L2_BUF_TYPE_VIDEO_CAPTURE
              {| pixelformat := pixel_format opt; width := opt_width opt;
                 height := opt_height opt; sizeimage := 0 |}) ;;
  (match fmt with
   | ArgFormat _ pix =>
       usbcam_assert (pixelformat pix =? pixel_format opt) 156 "Did not get the requested format" ;;;
       usbcam_assert (width pix =? opt_width opt) 157 "Did not get the requested width" ;;;
       usbcam_assert (height pix =? opt_height opt) 158 "Did not get the requested height"
   | _ => ret tt
   end) ;;;
  (* tell the driver how many buffers we want *)
  req <- usbcam_ioctl fuel VIDIOC_REQBUFS
           (ArgRequest (buffers opt) V4L2_BUF_TYPE_VIDEO_CAPTURE V4L2_MEMORY_MMAP) ;;
  (match req with
   | ArgRequest count _ _ =>
       usbcam_assert (count =? buffers opt) 171 "Did not get the requested number of buffers"
   | _ => ret tt
   end) ;;;
  (* allocate buffers *)
  for_range 0 (Z.to_nat (buffers opt)) (fun i =>
    info <- ioctl_buffer fuel VIDIOC_QUERYBUF (capture_buffer i) ;;
    array_set usbcam_buffer_length set_buffer_length i (b_length info) ;;;
    fd <- load usbcam_fd ;;
    addr <- mmap (b_length info) fd (b_offset info) ;;
    array_set usbcam_buffer_start set_buffer_start i addr ;;;
    usbcam_assert (negb (addr =? MAP_FAILED)) 193 "Failed to allocate memory for buffers") ;;;
  store (set_buffers (buffers opt)) ;;;
  store (set_has_mmap 1) ;;;
  (* start streaming *)
  usbcam_ioctl fuel VIDIOC_STREAMON (ArgType V4L2_BUF_TYPE_VIDEO_CAPTURE) ;;;
  store (set_has_stream 1) ;;;
  (* queue buffers *)
  for_range 0 (Z.to_nat (buffers opt)) (fun i =>
    ioctl_buffer fuel VIDIOC_QBUF (capture_buffer i) ;;; ret tt).

Definition usbcam_unlock (fuel : nat) : M unit :=
  has_dqbuf <- load usbcam_has_dqbuf ;;
  if truthy has_dqbuf then
    dqbuf <- load usbcam_dqbuf ;;
    b <- ioctl_buffer fuel VIDIOC_QBUF dqbuf ;;
    store (set_dqbuf b) ;;;
    store (set_has_dqbuf 0)
  else ret tt.

(** The [while (r == 1)] loop of [usbcam_lock]: poll with a zero timeout;
    while a further buffer is ready, give back the one held and take the
    next.  Any other result of [select], -1 included, ends the loop. *)
Fixpoint drain (fuel n : nat) (buf : v4l2_buffer) : M v4l2_buffer :=
  match n with
  | O => stop OutOfFuel
  | S n' =>
      fd <- load usbcam_fd ;;
      r <- select (fd + 1) fd ;;
      if r =? 1 then
        (* queue the previous buffer *)
        buf <- ioctl_buffer fuel VIDIOC_QBUF buf ;;
        (* get a new buffer *)
        buf <- ioctl_buffer fuel VIDIOC_DQBUF buf ;;
        drain fuel n' buf
      else ret buf
  end.

(** What a call stores through its three out-parameters. *)
Record frame := { f_data : Z; f_size : Z; f_timestamp : timeval }.

(** Storing through a pointer the caller passed. *)
Definition deref (ptr : Z) : M unit :=
  if ptr =? NULL then stop NullDeref else ret tt.

Definition usbcam_lock (fuel : nat) (data size timestamp : Z) : M frame :=
  has_dqbuf <- load usbcam_has_dqbuf ;;
  usbcam_assert (negb (truthy has_dqbuf)) 229 "You forgot to unlock the previous frame" ;;;
  has_fd <- load usbcam_has_fd ;;
  usbcam_assert (truthy has_fd) 230 "Camera device not open" ;;;
  has_mmap <- load usbcam_has_mmap ;;
  usbcam_assert (truthy has_mmap) 231 "Buffers not allocated" ;;;
  has_stream <- load usbcam_has_stream ;;
  usbcam_assert (truthy has_stream) 232 "Stream not begun" ;;;
  (* dequeue all the buffers and select the one with latest data *)
  buf <- ioctl_buffer fuel VIDIOC_DQBUF (capture_buffer 0) ;;
  buf <- drain fuel fuel buf ;;
  deref timestamp ;;;
  start <- array_get usbcam_buffer_start (b_index buf) ;;
  deref data ;;;
  deref size ;;;
  store (set_dqbuf buf) ;;;
  store (set_has_dqbuf 1) ;;;
  ret {| f_data := start; f_size := b_bytesused buf; f_timestamp := b_timestamp buf |}.

(** The declaration [usbcam_lock(data, size, timestamp = 0)] called with
    two arguments. *)
Definition usbcam_lock_default (fuel : nat) (data size : Z) : M frame :=
  usbcam_lock fuel data size NULL.

(** ** A concrete camera, for running the model *)

Definition camera0 : device :=
  {| d_name := "/dev/video0";
     d_modes := [{| pixelformat := 1196444237; width := 640; height := 480; sizeimage := 614400 |}];
     d_max_buffers := 32; d_fd := None; d_buflen := 0; d_count := 0;
     d_streaming := false; d_incoming := []; d_done := []; d_user := [];
     d_maps := []; d_brk := 4096; d_trace := [] |}.

Definition boot (d : device) (s : list (option errno_t)) : process :=
  {| cam := statics0; errno := ENONE; script := s; dev := d |}.

Definition opt0 : usbcam_opt_t :=
  {| device_name := "/dev/video0"; buffers := 3; pixel_format := 1196444237;
     opt_width := 640; opt_height := 480 |}.

Definition world_step (f : device -> device) (p : process) : process := set_dev (f (dev p)) p.

Definition after {A} (o : outcome A) : process :=
  match o with Ret _ p => p | Stop _ p => p end.

Definition ts0 (n : Z) : timeval := {| tv_sec := n; tv_usec := 0 |}.

(** After [usbcam_init]: three buffers mapped and queued, none filled. *)
Definition demo_ready : process := after (usbcam_init 1 opt0 (boot camera0 [])).

(** The driver then completes three captures before the next call. *)
Definition demo_filled : process :=
  world_step (capture 300 (ts0 3))
    (world_step (capture 200 (ts0 2)) (world_step (capture 100 (ts0 1)) demo_ready)).

(** A frame is locked. *)
Definition demo_locked : process := after (usbcam_lock 4 1000 1008 1016 demo_filled).

(** ** Sessions *)

(** The four public operations. *)
Inductive call :=
| Init (opt : usbcam_opt_t)
| Cleanup
| Lock (data size timestamp : Z)
| Unlock.

Definition run (fuel : nat) (c : call) : M unit :=
  match c with
  | Init opt => usbcam_init fuel opt
  | Cleanup => usbcam_cleanup fuel
  | Lock data size timestamp => usbcam_lock fuel data size timestamp ;;; ret tt
  | Unlock => usbcam_unlock fuel
  end.

(** What happens between calls: the driver completes captures, and the
    environment decides which coming calls will fail. *)
Inductive env_step : process -> process -> Prop :=
| env_capture p bytes ts : env_step p (world_step (capture bytes ts) p)
| env_script p s : env_step p (set_script s p).

(** A camera nobody has opened yet. *)
Definition fresh (d : device) : Prop :=
  d_fd d = None /\ d_count d = 0 /\ d_streaming d = false /\
  d_incoming d = [] /\ d_done d = [] /\ d_user d = [] /\ d_maps d = [].

(** States of a running process: every call so far has returned. *)
Inductive reachable : process -> Prop :=
| reach_boot d s : fresh d -> reachable (boot d s)
| reach_call p fuel c p' : reachable p -> run fuel c p = Ret tt p' -> reachable p'
| reach_env p p' : reachable p -> env_step p p' -> reachable p'.

(** States in which a call can still be entered: those above, and those in
    which a call stopped part-way (a failed [usbcam_init] leaves the session
    partially set up, and handlers run by [exit] see that state). *)
Inductive attainable : process -> Prop :=
| att_boot d s : fresh d -> attainable (boot d s)
| att_ret p fuel c p' : attainable p -> run fuel c p = Ret tt p' -> attainable p'
| att_stop p fuel c r p' : attainable p -> run fuel c p = Stop r p' -> attainable p'
| att_env p p' : attainable p -> env_step p p' -> attainable p'.

(** The session state the public operations act on: the four flags. *)
Record flags := {
  device_open : bool;
  pool_mapped : bool;
  streaming_on : bool;
  frame_locked : bool
}.

Definition observable (p : process) : flags :=
  {| device_open := truthy (usbcam_has_fd (cam p));
     pool_mapped := truthy (usbcam_has_mmap (cam p));
     streaming_on := truthy (usbcam_has_stream (cam p));
     frame_locked := truthy (usbcam_has_dqbuf (cam p)) |}.

(** All four flags are exactly 0. *)
Definition quiescent (p : process) : Prop :=
  usbcam_has_fd (cam p) = 0 /\ usbcam_has_mmap (cam p) = 0 /\
  usbcam_has_stream (cam p) = 0 /\ usbcam_has_dqbuf (cam p) = 0.

(** The buffers the session has handed to its consumer. *)
Definition held (c : statics) : list Z :=
  if truthy (usbcam_has_dqbuf c) then [b_index (usbcam_dqbuf c)] else [].

(** Scheduled failures that [usbcam_ioctl] retries. *)
Definition transient (f : option errno_t) : bool :=
  match f with
  | None => true
  | Some e => is_EINTR e || is_EAGAIN e
  end.

Definition benign (s : list (option errno_t)) : Prop := forallb transient s = true.

Fixpoint repeat_call (n : nat) (m : M unit) : M unit :=
  match n with
  | O => ret tt
  | S n' => m ;;; repeat_call n' m
  end.

(** Driver bookkeeping: every index in a queue names an allocated buffer and
    a filled buffer never holds more than its size. *)
Definition dwf (d : device) : Prop :=
  Forall (fun i => 0 <= i < d_count d) (d_incoming d) /\
  Forall (fun b => 0 <= b_index b < d_count d /\ 0 <= b_bytesused b <= d_buflen d) (d_done d) /\
  Forall (fun i => 0 <= i < d_count d) (d_user d).

(** The pool as the session records it agrees with the driver. *)
Definition pool (c : statics) (d : device) : Prop :=
  d_count d = usbcam_buffers c /\
  forall i, 0 <= i < usbcam_buffers c ->
    exists a, usbcam_buffer_start c !! Z.to_nat i = Some a /\
              usbcam_buffer_length c !! Z.to_nat i = Some (d_buflen d) /\
              In (a, d_buflen d) (d_maps d).

(** The session invariant. *)
Definition inv (c : statics) (d : device) : Prop :=
  length (usbcam_buffer_start c) = Z.to_nat usbcam_max_buffers /\
  length (usbcam_buffer_length c) = Z.to_nat usbcam_max_buffers /\
  0 <= usbcam_buffers c <= usbcam_max_buffers /\
  (truthy (usbcam_has_dqbuf c) = true ->
     truthy (usbcam_has_mmap c) = true /\ truthy (usbcam_has_stream c) = true /\
     zmem (b_index (usbcam_dqbuf c)) (d_user d) = true) /\
  (truthy (usbcam_has_mmap c) = true \/ truthy (usbcam_has_stream c) = true ->
     truthy (usbcam_has_fd c) = true) /\
  (truthy (usbcam_has_fd c) = true -> has_handle d (usbcam_fd c) = true) /\
  dwf d /\
  (truthy (usbcam_has_mmap c) = true -> truthy (usbcam_has_stream c) = true -> pool c d).

Definition Inv (p : process) : Prop := inv (cam p) (dev p).

(** Weakest precondition: [Q] where the call returns, [E] where it stops. *)
Definition wp {A} (m : M A) (Q : A -> process -> Prop) (E : reason -> process -> Prop)
    (p : process) : Prop :=
  match m p with
  | Ret a p' => Q a p'
  | Stop r p' => E r p'
  end.

(** ** Vocabulary of the properties *)

(** The four preconditions [usbcam_lock] asserts. *)
Definition lock_ready (c : statics) : bool :=
  negb (truthy (usbcam_has_dqbuf c)) && truthy (usbcam_has_fd c) &&
  truthy (usbcam_has_mmap c) && truthy (usbcam_has_stream c).

(** A session that streams on a device with no failure scheduled. *)
Definition healthy_stream (p : process) : Prop :=
  lock_ready (cam p) = true /\ script p = [] /\
  has_handle (dev p) (usbcam_fd (cam p)) = true /\ d_streaming (dev p) = true.

(** The frame points into the pool: its address is the base of a live
    mapping recorded for some buffer index, and its size fits that mapping. *)
Definition in_pool (f : frame) (p : process) : Prop :=
  exists i len,
    0 <= i < usbcam_buffers (cam p) /\
    usbcam_buffer_start (cam p) !! Z.to_nat i = Some (f_data f) /\
    usbcam_buffer_length (cam p) !! Z.to_nat i = Some len /\
    In (f_data f, len) (d_maps (dev p)) /\
    0 <= f_size f <= len.

(** The buffers the driver has handed to the application are those the
    session records as locked. *)
Definition owns (p : process) : Prop := d_user (dev p) = held (cam p).

(** Nothing of the session is left in the driver. *)
Definition released (d : device) : Prop :=
  d_fd d = None /\ d_count d = 0 /\ d_streaming d = false /\
  d_incoming d = [] /\ d_done d = [] /\ d_user d = [].

(** The flags of a session that was never initialised. *)
Definition quiet_flags : flags :=
  {| device_open := false; pool_mapped := false; streaming_on := false;
     frame_locked := false |}.

(** The call each step of [usbcam_cleanup] makes when its flag is set. *)
Definition requeue_trace (c : statics) : list syscall :=
  if truthy (usbcam_has_dqbuf c)
  then [SysIoctl VIDIOC_QBUF (ArgBuffer (usbcam_dqbuf c))] else [].

(** The mapping the session recorded for slot [i]. *)
Definition region (c : statics) (i : nat) : Z * Z :=
  (nth i (usbcam_buffer_start c) 0, nth i (usbcam_buffer_length c) 0).

(** The mappings of the pool, slot 0 first. *)
Definition pool_regions (c : statics) : list (Z * Z) :=
  map (region c) (seq 0 (Z.to_nat (usbcam_buffers c))).

Definition unmap_trace (c : statics) : list syscall :=
  if truthy (usbcam_has_mmap c)
  then map (fun r => SysMunmap (fst r) (snd r)) (pool_regions c) else [].

Definition streamoff_trace (c : statics) : list syscall :=
  if truthy (usbcam_has_stream c)
  then [SysIoctl VIDIOC_STREAMOFF (ArgType V4L2_BUF_TYPE_VIDEO_CAPTURE)] else [].

Definition close_trace (c : statics) : list syscall :=
  if truthy (usbcam_has_fd c) then [SysClose (usbcam_fd c)] else [].

(** The calls [usbcam_cleanup] makes, in the order it makes them. *)
Definition cleanup_trace (c : statics) : list syscall :=
  (requeue_trace c ++ unmap_trace c ++ streamoff_trace c ++ close_trace c)%list.

(** The calls one pass over a backlog makes: each stale buffer is dequeued
    and then queued again. *)
Definition recycle (b : v4l2_buffer) : list syscall :=
  [SysIoctl VIDIOC_DQBUF (ArgBuffer b); SysIoctl VIDIOC_QBUF (ArgBuffer b)].

(** What a session holds, and the call that takes or gives back each. *)
Inductive resource := Device | Mapping | Stream | Frame.

(** Equality test on resources. *)
Definition resource_eqb (a b : resource) : bool :=
  match a, b with
  | Device, Device | Mapping, Mapping | Stream, Stream | Frame, Frame => true
  | _, _ => false
  end.

(** The resource a call takes, if any. *)
Definition acquires (c : syscall) : option resource :=
  match c with
  | SysOpen _ => Some Device
  | SysMmap _ _ => Some Mapping
  | SysIoctl VIDIOC_STREAMON _ => Some Stream
  | SysIoctl VIDIOC_DQBUF _ => Some Frame
  | _ => None
  end.

(** The resource a call gives back, if any. *)
Definition releases (c : syscall) : option resource :=
  match c with
  | SysClose _ => Some Device
  | SysMunmap _ _ => Some Mapping
  | SysIoctl VIDIOC_STREAMOFF _ => Some Stream
  | SysIoctl VIDIOC_QBUF _ => Some Frame
  | _ => None
  end.

(** The resources a trace touches, each at its first occurrence. *)
Fixpoint order_of (f : syscall -> option resource) (seen : list resource)
    (t : list syscall) : list resource :=
  match t with
  | [] => []
  | c :: t' =>
      match f c with
      | Some r => if existsb (resource_eqb r) seen then order_of f seen t'
                  else r :: order_of f (r :: seen) t'
      | None => order_of f seen t'
      end
  end.

(** The device is unplugged while a frame is locked: the next request
    fails with [ENODEV]. *)
Definition demo_unplugged : process := set_script [Some ENODEV] demo_locked.

(** The first dequeue goes through and the poll that follows it fails. *)
Definition demo_poll_error : process := set_script [None; Some EIO] demo_filled.

(** ** The header's functions, cut into their steps

    Each piece is the source text of the function it is cut from; the
    lemmas [lock_split] and [cleanup_unfold] and the proof of [init_spec]
    check that the pieces put together are the function. *)

(** The part of [usbcam_lock] that runs before anything is stored through
    the out-parameters. *)
Definition lock_prefix (fuel : nat) : M v4l2_buffer :=
  has_dqbuf <- load usbcam_has_dqbuf ;;
  usbcam_assert (negb (truthy has_dqbuf)) 229 "You forgot to unlock the previous frame" ;;;
  has_fd <- load usbcam_has_fd ;;
  usbcam_assert (truthy has_fd) 230 "Camera device not open" ;;;
  has_mmap <- load usbcam_has_mmap ;;
  usbcam_assert (truthy has_mmap) 231 "Buffers not allocated" ;;;
  has_stream <- load usbcam_has_stream ;;
  usbcam_assert (truthy has_stream) 232 "Stream not begun" ;;;
  buf <- ioctl_buffer fuel VIDIOC_DQBUF (capture_buffer 0) ;;
  drain fuel fuel buf.

(** The rest of [usbcam_lock]: the three stores through the out-parameters
    and the recording of the lock. *)
Definition lock_output (data size timestamp : Z) (buf : v4l2_buffer) : M frame :=
  deref timestamp ;;;
  start <- array_get usbcam_buffer_start (b_index buf) ;;
  deref data ;;;
  deref size ;;;
  store (set_dqbuf buf) ;;;
  store (set_has_dqbuf 1) ;;;
  ret {| f_data := start; f_size := b_bytesused buf; f_timestamp := b_timestamp buf |}.

(** [usbcam_cleanup] is the body of [usbcam_unlock] followed by these three
    steps, of which this is the unmapping of the pool. *)
Definition release_pool : M unit :=
  has_mmap <- load usbcam_has_mmap ;;
  if truthy has_mmap then
    n <- load usbcam_buffers ;;
    for_range 0 (Z.to_nat n) (fun i =>
      start <- array_get usbcam_buffer_start i ;;
      len <- array_get usbcam_buffer_length i ;;
      munmap start len ;;; ret tt) ;;;
    store (set_has_mmap 0)
  else ret tt.

(** The stream-off step of [usbcam_cleanup]. *)
Definition stop_stream (fuel : nat) : M unit :=
  has_stream <- load usbcam_has_stream ;;
  if truthy has_stream then
    usbcam_ioctl fuel VIDIOC_STREAMOFF (ArgType V4L2_BUF_TYPE_VIDEO_CAPTURE) ;;;
    store (set_has_stream 0)
  else ret tt.

(** The closing step of [usbcam_cleanup]. *)
Definition close_device : M unit :=
  has_fd <- load usbcam_has_fd ;;
  if truthy has_fd then
    fd <- load usbcam_fd ;;
    close fd ;;;
    store (set_has_fd 0)
  else ret tt.

(** The body of the allocation loop of [usbcam_init]. *)
Definition alloc_body (fuel : nat) (i : Z) : M unit :=
  info <- ioctl_buffer fuel VIDIOC_QUERYBUF (capture_buffer i) ;;
  array_set usbcam_buffer_length set_buffer_length i (b_length info) ;;;
  fd <- load usbcam_fd ;;
  addr <- mmap (b_length info) fd (b_offset info) ;;
  array_set usbcam_buffer_start set_buffer_start i addr ;;;
  usbcam_assert (negb (addr =? MAP_FAILED)) 193 "Failed to allocate memory for buffers".

(** ** Vocabulary of the proofs *)

(** [p'] differs from [p] at most in [errno] and in the failures still
    scheduled. *)
Definition same_world (p p' : process) : Prop := cam p' = cam p /\ dev p' = dev p.

(** [p'] is a later state of [p]: some scheduled failures were consumed. *)
Definition follows (p p' : process) : Prop := exists pre, script p = (pre ++ script p')%list.

(** Why a request can come back failed: the environment scheduled an error
    that is not retried, the driver refused the request, or the descriptor
    is not the open handle. *)
Definition fail_cause (req : request) (arg : ioctl_arg) (p : process) (e : errno_t) : Prop :=
  (In (Some e) (script p) /\ transient (Some e) = false) \/
  drv_ioctl (dev p) req arg = Fail e \/
  (has_handle (dev p) (usbcam_fd (cam p)) = false /\ e = EBADF).

(** Why [usbcam_ioctl] can stop once the handle is known to be open. *)
Definition ioctl_stop (fuel : nat) (req : request) (arg : ioctl_arg) (p : process)
    (r : reason) : Prop :=
  (r = OutOfFuel /\ (fuel <= length (script p))%nat) \/
  (r = Blocked /\ drv_ioctl (dev p) req arg = Sleep) \/
  (exists e, r = RequestFailed e /\ fail_cause req arg p e).

(** With enough fuel for the scheduled failures, a stop is the process exit
    of [usbcam_ioctl] on an error the environment scheduled and that is not
    retried. *)
Definition device_failure (fuel : nat) (p : process) (r : reason) : Prop :=
  (length (script p) < fuel)%nat ->
  exists e, r = RequestFailed e /\ In (Some e) (script p) /\ transient (Some e) = false.

(** The effect of one [munmap] on the device. *)
Definition unmap (d : device) (r : Z * Z) : device :=
  log (SysMunmap (fst r) (snd r))
      (set_maps (List.filter (fun r' => negb (same_region r' r)) (d_maps d)) (d_brk d) d).

(** The effect on the device of giving [b] back to the driver. *)
Definition requeue (b : v4l2_buffer) (d : device) : device :=
  log (SysIoctl VIDIOC_QBUF (ArgBuffer b))
      (set_queues (d_count d) (d_streaming d) (d_incoming d ++ [b_index b]) (d_done d)
                  (zremove (b_index b) (d_user d)) d).

(** The effect on the device of taking the oldest filled buffer [b]. *)
Definition dequeue (b : v4l2_buffer) (rest : list v4l2_buffer) (d : device) : device :=
  log (SysIoctl VIDIOC_DQBUF (ArgBuffer b))
      (set_queues (d_count d) true (d_incoming d) rest (d_user d ++ [b_index b]) d).

(** What holds while [usbcam_lock] has [buf] in hand. *)
Definition holding (phi : Prop) (c0 : statics) (buf : v4l2_buffer) (p : process) : Prop :=
  cam p = c0 /\ Inv p /\
  zmem (b_index buf) (d_user (dev p)) = true /\
  0 <= b_index buf < d_count (dev p) /\
  0 <= b_bytesused buf <= d_buflen (dev p) /\
  (phi -> d_user (dev p) = [b_index buf]).

(** The session while [usbcam_init] is setting it up: the device is open,
    nothing is locked and the stream is not yet on. *)
Definition building (c : statics) (d : device) : Prop :=
  length (usbcam_buffer_start c) = Z.to_nat usbcam_max_buffers /\
  length (usbcam_buffer_length c) = Z.to_nat usbcam_max_buffers /\
  0 <= usbcam_buffers c <= usbcam_max_buffers /\
  truthy (usbcam_has_dqbuf c) = false /\
  truthy (usbcam_has_fd c) = true /\
  truthy (usbcam_has_stream c) = false /\
  has_handle d (usbcam_fd c) = true /\
  dwf d.

(** Slots [0 .. j-1] of the pool are recorded and mapped with length [L]. *)
Definition mapped_upto (j L : Z) (c : statics) (d : device) : Prop :=
  forall i, 0 <= i < j ->
    exists a, usbcam_buffer_start c !! Z.to_nat i = Some a /\
              usbcam_buffer_length c !! Z.to_nat i = Some L /\
              In (a, L) (d_maps d).

(** What the allocation loop of [usbcam_init] maintains. *)
Definition allocating (n L : Z) (u : list Z) (j : Z) (q : process) : Prop :=
  0 <= j /\ building (cam q) (dev q) /\
  truthy (usbcam_has_mmap (cam q)) = false /\
  d_count (dev q) = n /\ d_user (dev q) = u /\ d_buflen (dev q) = L /\
  mapped_upto j L (cam q) (dev q).

(** What the queueing loop of [usbcam_init] maintains. *)
Definition queueing (c : statics) (n : Z) (j : Z) (q : process) : Prop :=
  0 <= j /\ Inv q /\ cam q = c /\ Forall (fun i => j <= i < n) (d_user (dev q)).

(** One step of a run whose next branch is known. *)
Ltac run_step := cbv beta iota delta [bind load usbcam_assert ret stop].

(** The conjuncts of an invariant once the flags are known. *)
Ltac inv_cases := split_and!; auto; try discriminate; try lia.

(** ** Vocabulary of the further properties

    What the properties of the last part of the file are stated with:
    scheduled failures that are retried, the calls and the device an
    initialisation leaves, the ways a call can stop, and what the driver
    does with its buffers. *)

(** A scheduled failure that [usbcam_ioctl] answers by trying again. *)
Definition retried_fault (f : option errno_t) : bool :=
  match f with
  | Some e => is_EINTR e || is_EAGAIN e
  | None => false
  end.

(** Nothing is scheduled for the next call. *)
Definition unhindered (s : list (option errno_t)) : Prop := hd None s = None.

(** The process with the given [errno], scheduled failures and device. *)
Definition settled (p : process) (e : errno_t) (s : list (option errno_t)) (d : device)
    : process :=
  {| cam := cam p; errno := e; script := s; dev := d |}.

(** The device with another record of calls. *)
Definition set_trace (t : list syscall) (d : device) : device :=
  {| d_name := d_name d; d_modes := d_modes d; d_max_buffers := d_max_buffers d;
     d_fd := d_fd d; d_buflen := d_buflen d; d_count := d_count d;
     d_streaming := d_streaming d; d_incoming := d_incoming d;
     d_done := d_done d; d_user := d_user d; d_maps := d_maps d;
     d_brk := d_brk d; d_trace := t |}.

(** Indices [j .. n-1]. *)
Definition zrange (j n : Z) : list Z := map Z.of_nat (seq (Z.to_nat j) (Z.to_nat (n - j))).

(** The format [usbcam_init] asks the driver for. *)
Definition requested (opt : usbcam_opt_t) : v4l2_pix_format :=
  {| pixelformat := pixel_format opt; width := opt_width opt;
     height := opt_height opt; sizeimage := 0 |}.

(** [n] mappings of [len] bytes placed one after the other from [brk]. *)
Definition pool_maps (brk len n : Z) : list (Z * Z) :=
  map (fun i => (brk + i * len, len)) (zseq n).

(** The calls of the allocation loop of [usbcam_init]: each buffer is
    queried and then mapped. *)
Definition alloc_trace (brk len n : Z) : list syscall :=
  flat_map (fun i => [SysIoctl VIDIOC_QUERYBUF (ArgBuffer (filled i 0 (ts0 0) len));
                      SysMmap (brk + i * len) len]) (zseq n).

(** The calls of the queueing loop of [usbcam_init]. *)
Definition queue_trace (n : Z) : list syscall :=
  map (fun i => SysIoctl VIDIOC_QBUF (ArgBuffer (capture_buffer i))) (zseq n).

(** The calls [usbcam_init] makes on an idle camera that grants the mode
    [m], in the order it makes them. *)
Definition init_trace (opt : usbcam_opt_t) (m : v4l2_pix_format) (brk : Z) : list syscall :=
  ([SysOpen 3;
    SysIoctl VIDIOC_S_FMT (ArgFormat V4L2_BUF_TYPE_VIDEO_CAPTURE m);
    SysIoctl VIDIOC_REQBUFS
      (ArgRequest (buffers opt) V4L2_BUF_TYPE_VIDEO_CAPTURE V4L2_MEMORY_MMAP)]
   ++ alloc_trace brk (sizeimage m) (buffers opt)
   ++ [SysIoctl VIDIOC_STREAMON (ArgType V4L2_BUF_TYPE_VIDEO_CAPTURE)]
   ++ queue_trace (buffers opt))%list.

(** The allocation loop of [usbcam_init] before its iteration [j], on a
    device that lets every call through. *)
Definition alloc_state (c1 : statics) (e0 : errno_t) (d1 : device) (len : Z) (j : Z)
    (q : process) : Prop :=
  0 <= j /\ script q = [] /\ errno q = e0 /\
  (exists starts lens,
     cam q = set_buffer_start starts (set_buffer_length lens c1) /\
     length starts = Z.to_nat usbcam_max_buffers /\
     length lens = Z.to_nat usbcam_max_buffers /\
     forall i, 0 <= i < j ->
       starts !! Z.to_nat i = Some (d_brk d1 + i * len) /\ lens !! Z.to_nat i = Some len) /\
  dev q = set_trace (d_trace d1 ++ alloc_trace (d_brk d1) len j)
            (set_maps (d_maps d1 ++ pool_maps (d_brk d1) len j) (d_brk d1 + j * len) d1).

(** The queueing loop of [usbcam_init] before its iteration [j]. *)
Definition queue_state (c3 : statics) (e0 : errno_t) (d3 : device) (n : Z) (j : Z)
    (q : process) : Prop :=
  0 <= j /\ script q = [] /\ errno q = e0 /\ cam q = c3 /\
  dev q = set_trace (d_trace d3 ++ queue_trace j)
            (set_queues n true (zseq j) [] (zrange j n) d3).

(** Stops that come from the device, or from the budget of the model: the
    exit of [usbcam_ioctl] on a failed request, a blocking request that
    nothing wakes, and a loop that outlasts its budget. *)
Definition device_stop (r : reason) : bool :=
  match r with RequestFailed _ | Blocked | OutOfFuel => true | _ => false end.

(** The lines of the assertions of [usbcam_init]. *)
Definition init_assert (line : Z) : bool :=
  existsb (Z.eqb line) [139; 140; 144; 156; 157; 158; 171; 193].

(** How [usbcam_init] stops: on the device, or on one of its own
    assertions, and then with nothing recorded as mapped, streaming or
    locked. *)
Definition init_stop (r : reason) (q : process) : Prop :=
  match r with
  | AssertFail line _ =>
      init_assert line = true /\
      usbcam_has_mmap (cam q) = 0 /\ usbcam_has_stream (cam q) = 0 /\
      usbcam_has_dqbuf (cam q) = 0
  | _ => device_stop r = true
  end.

(** How [usbcam_lock] stops when called in the session state [c0]: on the
    device, on one of its four assertions, or on a null out-pointer. *)
Definition lock_stop (c0 : statics) (data size timestamp : Z) (r : reason) : Prop :=
  match r with
  | AssertFail line _ => 229 <= line <= 232 /\ lock_ready c0 = false
  | NullDeref => data = NULL \/ size = NULL \/ timestamp = NULL
  | _ => device_stop r = true
  end.

(** How a public operation stops. *)
Definition call_stop (c : call) (p : process) (r : reason) (q : process) : Prop :=
  match c with
  | Init _ => init_stop r q
  | Lock data size timestamp => lock_stop (cam p) data size timestamp r
  | Cleanup | Unlock => device_stop r = true
  end.

(** The driver's queues as [usbcam_init] leaves them: [n] buffers, all
    queued for filling in index order, the stream on. *)
Definition all_queued (n : Z) (d : device) : Prop :=
  d_count d = n /\ d_streaming d = true /\ d_incoming d = zseq n /\
  d_done d = [] /\ d_user d = [].

(** The allocation loop of [usbcam_init], whatever the device answers. *)
Definition shaping (n : Z) (j : Z) (q : process) : Prop :=
  usbcam_has_mmap (cam q) = 0 /\ usbcam_has_stream (cam q) = 0 /\
  usbcam_has_dqbuf (cam q) = 0 /\ truthy (usbcam_has_fd (cam q)) = true /\
  length (usbcam_buffer_start (cam q)) = Z.to_nat usbcam_max_buffers /\
  length (usbcam_buffer_length (cam q)) = Z.to_nat usbcam_max_buffers /\
  d_count (dev q) = n /\ d_streaming (dev q) = false /\ d_incoming (dev q) = [] /\
  d_done (dev q) = [] /\ d_user (dev q) = zseq n.

(** The queueing loop of [usbcam_init], whatever the device answers. *)
Definition filling (n : Z) (j : Z) (q : process) : Prop :=
  0 <= j /\ truthy (usbcam_has_fd (cam q)) = true /\
  d_count (dev q) = n /\ d_streaming (dev q) = true /\ d_incoming (dev q) = zseq j /\
  d_done (dev q) = [] /\ d_user (dev q) = zrange j n.

(** The assertions a public operation may fail when called in the session
    state [c0]: [usbcam_init] its own, [usbcam_lock] one of its four
    preconditions, and then a false one; the others none. *)
Definition own_assert (c : call) (c0 : statics) (line : Z) : Prop :=
  match c with
  | Init _ => init_assert line = true
  | Lock _ _ _ => 229 <= line <= 232 /\ lock_ready c0 = false
  | Cleanup | Unlock => False
  end.

(** A null pointer among the out-parameters of a [usbcam_lock]. *)
Definition null_argument (c : call) : Prop :=
  match c with
  | Lock data size timestamp => data = NULL \/ size = NULL \/ timestamp = NULL
  | _ => False
  end.

(** What is left of the mappings [maps] once each region of [rs] has been
    unmapped. *)
Definition unmapped (rs maps : list (Z * Z)) : list (Z * Z) :=
  List.filter (fun r => negb (existsb (same_region r) rs)) maps.

(** The regions [usbcam_cleanup] unmaps. *)
Definition recorded_pool (c : statics) : list (Z * Z) :=
  if truthy (usbcam_has_mmap c) then pool_regions c else [].

(** [d'] is the camera [d] at a later time: the same node, modes and
    limits, and the same place for the next mapping. *)
Definition same_camera (d d' : device) : Prop :=
  d_name d' = d_name d /\ d_modes d' = d_modes d /\
  d_max_buffers d' = d_max_buffers d /\ d_brk d' = d_brk d.

(** The driver accounts for every buffer exactly once: the indices queued
    for filling, filled, or handed out are those of the buffers it
    granted. *)
Definition conserved (d : device) : Prop :=
  Permutation (d_incoming d ++ map b_index (d_done d) ++ d_user d) (zseq (d_count d)).

(** Every run of [m] leaves the device with the property [X] it had. *)
Definition keeps (X : device -> Prop) {A} (m : M A) : Prop :=
  forall p, X (dev p) -> wp m (fun _ q => X (dev q)) (fun _ q => X (dev q)) p.

(** ** Proofs *)

(** *** Stepping through the monad *)

Lemma bind_ret {A B} (m : M A) (k : A -> M B) p a p' :
  m p = Ret a p' -> bind m k p = k a p'.
Proof. unfold bind; intros ->; reflexivity. Qed.

Lemma wp_bind {A B} (m : M A) (k : A -> M B) Q E p :
  wp m (fun a p' => wp (k a) Q E p') E p -> wp (bind m k) Q E p.
Proof. unfold wp, bind; destruct (m p); auto. Qed.

Lemma wp_ret {A} (a : A) (Q : A -> process -> Prop) E p : Q a p -> wp (ret a) Q E p.
Proof. auto. Qed.

Lemma wp_stop {A} r (Q : A -> process -> Prop) (E : reason -> process -> Prop) p :
  E r p -> wp (stop r) Q E p.
Proof. auto. Qed.

Lemma wp_load {A} (f : statics -> A) (Q : A -> process -> Prop) E p :
  Q (f (cam p)) p -> wp (load f) Q E p.
Proof. auto. Qed.

Lemma wp_store f (Q : unit -> process -> Prop) E p :
  Q tt (set_cam (f (cam p)) p) -> wp (store f) Q E p.
Proof. auto. Qed.

Lemma wp_assert c line msg (Q : unit -> process -> Prop) (E : reason -> process -> Prop) p :
  (c = false -> E (AssertFail line msg) p) -> (c = true -> Q tt p) ->
  wp (usbcam_assert c line msg) Q E p.
Proof. destruct c; unfold wp; simpl; auto. Qed.

Lemma wp_mono {A} (m : M A) (Q Q' : A -> process -> Prop) (E E' : reason -> process -> Prop) p :
  wp m Q E p -> (forall a p', Q a p' -> Q' a p') -> (forall r p', E r p' -> E' r p') ->
  wp m Q' E' p.
Proof. unfold wp; destruct (m p); auto. Qed.

Lemma wp_rewrite {A} (m m' : M A) Q E p : m p = m' p -> wp m' Q E p -> wp m Q E p.
Proof. unfold wp; intros ->; auto. Qed.

Lemma wp_elim_ret {A} (m : M A) Q E p a p' : wp m Q E p -> m p = Ret a p' -> Q a p'.
Proof. unfold wp; intros H Hm; rewrite Hm in H; exact H. Qed.

Lemma wp_elim_stop {A} (m : M A) Q E p r p' : wp m Q E p -> m p = Stop r p' -> E r p'.
Proof. unfold wp; intros H Hm; rewrite Hm in H; exact H. Qed.

Lemma truthy_false z : truthy z = false -> z = 0.
Proof. unfold truthy; intros H; apply negb_false_iff in H; lia. Qed.

(** *** The preconditions of [usbcam_lock] *)

Lemma lock_not_ready fuel data size timestamp p :
  lock_ready (cam p) = false ->
  exists line msg, usbcam_lock fuel data size timestamp p = Stop (AssertFail line msg) p.
Proof.
  unfold lock_ready, usbcam_lock, bind, load, usbcam_assert; intros H.
  destruct (truthy (usbcam_has_dqbuf (cam p))); simpl; [eauto|].
  destruct (truthy (usbcam_has_fd (cam p))); simpl; [|eauto].
  destruct (truthy (usbcam_has_mmap (cam p))); simpl; [|eauto].
  destruct (truthy (usbcam_has_stream (cam p))); simpl; [|eauto].
  discriminate.
Qed.

Lemma lock_double fuel data size timestamp p :
  truthy (usbcam_has_dqbuf (cam p)) = true ->
  usbcam_lock fuel data size timestamp p =
    Stop (AssertFail 229 "You forgot to unlock the previous frame") p.
Proof.
  unfold usbcam_lock, bind, load, usbcam_assert; intros ->; reflexivity.
Qed.

Lemma lock_split fuel data size timestamp p :
  usbcam_lock fuel data size timestamp p =
  (buf <- lock_prefix fuel ;; lock_output data size timestamp buf) p.
Proof.
  unfold usbcam_lock, lock_prefix, lock_output, bind, load, usbcam_assert.
  simpl.
  destruct (truthy (usbcam_has_dqbuf (cam p))); simpl; [reflexivity|].
  destruct (truthy (usbcam_has_fd (cam p))); simpl; [|reflexivity].
  destruct (truthy (usbcam_has_mmap (cam p))); simpl; [|reflexivity].
  destruct (truthy (usbcam_has_stream (cam p))); simpl; [|reflexivity].
  destruct (ioctl_buffer fuel VIDIOC_DQBUF (capture_buffer 0) p); [|reflexivity].
  destruct (drain fuel fuel a p0); reflexivity.
Qed.

(** *** Rules for [usbcam_ioctl] *)

Lemma same_world_refl p : same_world p p.
Proof. split; reflexivity. Qed.

Lemma drv_fail_fatal d req arg e :
  drv_ioctl d req arg = Fail e -> is_EINTR e || is_EAGAIN e = false.
Proof.
  destruct req, arg; simpl;
    repeat match goal with
           | |- context [if ?c then _ else _] => destruct c
           | |- context [match ?x with _ => _ end] => destruct x
           end;
    intros H; inversion H; reflexivity.
Qed.

Lemma wp_ioctl_retry fuel req arg (Q : Z * ioctl_arg -> process -> Prop) E p :
  (forall p' r, same_world p p' ->
     (r = OutOfFuel /\ (fuel <= length (script p))%nat) \/
     (r = Blocked /\ drv_ioctl (dev p) req arg = Sleep) -> E r p') ->
  (forall p', same_world p p' -> fail_cause req arg p (errno p') -> Q (-1, arg) p') ->
  (forall p' a d, cam p' = cam p -> has_handle (dev p) (usbcam_fd (cam p)) = true ->
     drv_ioctl (dev p) req arg = Done a d ->
     dev p' = log (SysIoctl req a) d ->
     (exists pre, script p = (pre ++ script p')%list) -> Q (0, a) p') ->
  wp (ioctl_retry fuel req arg) Q E p.
Proof.
  revert p; induction fuel as [|fuel IH]; intros p HE HF HD.
  - apply HE; [apply same_world_refl | left; split; [reflexivity | lia]].
  - simpl. apply wp_bind, wp_load, wp_bind.
    unfold wp at 1, v4l2_ioctl, next_fault.
    destruct p as [c e0 s d0]; simpl in *.
    assert (Hattempt : forall s', (exists pre, s = (pre ++ s')%list) ->
      (length s' <= length s)%nat ->
      match
        (if has_handle d0 (usbcam_fd c)
         then match drv_ioctl d0 req arg with
              | Done a d => Ret (0, a) (set_dev (log (SysIoctl req a) d)
                                  {| cam := c; errno := e0; script := s'; dev := d0 |})
              | Fail e => Ret (-1, arg) (set_errno e
                                  {| cam := c; errno := e0; script := s'; dev := d0 |})
              | Sleep => Stop Blocked {| cam := c; errno := e0; script := s'; dev := d0 |}
              end
         else Ret (-1, arg) (set_errno EBADF
                                  {| cam := c; errno := e0; script := s'; dev := d0 |}))
      with
      | Ret a p' =>
          wp (e <- get_errno ;;
              (if (fst a =? -1) && (is_EINTR e || is_EAGAIN e)
               then ioctl_retry fuel req (snd a) else ret a)) Q E p'
      | Stop r p' => E r p'
      end).
    { intros s' Hpre Hlen.
      destruct (has_handle d0 (usbcam_fd c)) eqn:Hh.
      - destruct (drv_ioctl d0 req arg) as [a d|e|] eqn:Hdrv.
        + apply wp_bind. unfold wp at 1, get_errno. cbn [fst snd].
          replace (0 =? -1) with false by reflexivity. cbn [andb].
          apply wp_ret. eapply HD; simpl; eauto.
        + apply wp_bind. unfold wp at 1, get_errno. cbn [fst snd errno set_errno].
          rewrite (drv_fail_fatal _ _ _ _ Hdrv), andb_false_r.
          apply wp_ret. apply HF; [split; reflexivity|]. right; left; exact Hdrv.
        + apply HE; [split; reflexivity|]. right; split; auto.
      - apply wp_bind. unfold wp at 1, get_errno. cbn [fst snd errno set_errno].
        cbn [is_EINTR is_EAGAIN orb]. rewrite andb_false_r.
        apply wp_ret. apply HF; [split; reflexivity|]. right; right; auto. }
    destruct s as [|[e|] rest].
    + apply (Hattempt []); [exists []; reflexivity | lia].
    + simpl. apply wp_bind. unfold wp at 1, get_errno. simpl.
      destruct (is_EINTR e || is_EAGAIN e) eqn:Ht.
      * apply IH; simpl.
        -- intros p' r [Hc Hd] [[-> Hlen]|[-> Hs]]; apply HE; try (split; auto).
           ++ left; split; auto; simpl. lia.
           ++ right; split; auto.
        -- intros p' [Hc Hd] Hcause. apply HF; [split; auto|].
           destruct Hcause as [[Hin Hnt]|[Hf|Hb]]; simpl in *.
           ++ left; split; simpl; auto.
           ++ right; left; auto.
           ++ right; right; auto.
        -- intros p' a d Hc Hh Hdrv Hd [pre Hpre]. eapply HD; eauto.
           exists (Some e :: pre). simpl. rewrite Hpre. reflexivity.
      * apply wp_ret. apply HF; [split; reflexivity|].
        left; split; simpl; auto.
    + simpl. apply (Hattempt rest); [exists [None]; reflexivity | simpl; lia].
Qed.

Lemma wp_usbcam_ioctl fuel req arg (Q : ioctl_arg -> process -> Prop) E p :
  (truthy (usbcam_has_fd (cam p)) = false ->
     E (AssertFail 87 "The camera device has not been opened yet!") p) ->
  (forall p' r, same_world p p' -> ioctl_stop fuel req arg p r -> E r p') ->
  (forall p' a d, cam p' = cam p ->
     truthy (usbcam_has_fd (cam p)) = true ->
     has_handle (dev p) (usbcam_fd (cam p)) = true ->
     drv_ioctl (dev p) req arg = Done a d ->
     dev p' = log (SysIoctl req a) d ->
     (exists pre, script p = (pre ++ script p')%list) -> Q a p') ->
  wp (usbcam_ioctl fuel req arg) Q E p.
Proof.
  intros HA HE HD. unfold usbcam_ioctl.
  apply wp_bind, wp_load, wp_bind, wp_assert; [exact HA|].
  intros Hfd. apply wp_bind, wp_ioctl_retry.
  - intros p' r Hw [H|H]; apply HE; auto; [left|right; left]; exact H.
  - intros p' Hw Hcause. cbn [fst snd]. replace (-1 =? -1) with true by reflexivity.
    apply wp_bind. unfold wp at 1, get_errno. apply wp_stop, HE; [exact Hw|].
    right; right. eauto.
  - intros p' a d Hc Hh Hdrv Hd Hpre. cbn [fst snd].
    replace (0 =? -1) with false by reflexivity.
    apply wp_ret. eapply HD; eauto.
Qed.

Lemma wp_ioctl_buffer fuel req buf (Q : v4l2_buffer -> process -> Prop) E p :
  (truthy (usbcam_has_fd (cam p)) = false ->
     E (AssertFail 87 "The camera device has not been opened yet!") p) ->
  (forall p' r, same_world p p' -> ioctl_stop fuel req (ArgBuffer buf) p r -> E r p') ->
  (forall p' a d, cam p' = cam p ->
     truthy (usbcam_has_fd (cam p)) = true ->
     has_handle (dev p) (usbcam_fd (cam p)) = true ->
     drv_ioctl (dev p) req (ArgBuffer buf) = Done a d ->
     dev p' = log (SysIoctl req a) d ->
     (exists pre, script p = (pre ++ script p')%list) ->
     Q (match a with ArgBuffer b => b | _ => buf end) p') ->
  wp (ioctl_buffer fuel req buf) Q E p.
Proof.
  intros HA HE HD. unfold ioctl_buffer. apply wp_bind, wp_usbcam_ioctl; [exact HA|exact HE|].
  intros p' a d Hc Hfd Hh Hdrv Hd Hpre. apply wp_ret. eapply HD; eauto.
Qed.

(** *** The driver's queues *)

Lemma zmem_In i l : zmem i l = true <-> In i l.
Proof.
  unfold zmem. rewrite existsb_exists. split.
  - intros (x & Hx & He). apply Z.eqb_eq in He. subst; auto.
  - intros H. exists i. split; auto. apply Z.eqb_refl.
Qed.

Lemma zremove_In i j l : In j (zremove i l) <-> In j l /\ j <> i.
Proof.
  unfold zremove. rewrite filter_In, negb_true_iff, Z.eqb_neq. intuition congruence.
Qed.

Lemma zseq_In n i : In i (zseq n) <-> 0 <= i < n.
Proof.
  unfold zseq. rewrite in_map_iff. split.
  - intros (k & <- & Hk). apply in_seq in Hk. lia.
  - intros H. exists (Z.to_nat i). split; [lia|]. apply in_seq. lia.
Qed.

Lemma drv_qbuf d b a d' :
  drv_ioctl d VIDIOC_QBUF (ArgBuffer b) = Done a d' ->
  zmem (b_index b) (d_user d) = true /\ a = ArgBuffer b /\
  d' = set_queues (d_count d) (d_streaming d) (d_incoming d ++ [b_index b]) (d_done d)
         (zremove (b_index b) (d_user d)) d.
Proof.
  simpl. destruct (zmem (b_index b) (d_user d)); [|discriminate].
  intros H; inversion H; auto.
Qed.

Lemma drv_dqbuf d b0 a d' :
  drv_ioctl d VIDIOC_DQBUF (ArgBuffer b0) = Done a d' ->
  exists b rest, d_done d = b :: rest /\ d_streaming d = true /\ a = ArgBuffer b /\
    d' = set_queues (d_count d) true (d_incoming d) rest (d_user d ++ [b_index b]) d.
Proof.
  simpl. destruct (d_streaming d); [|discriminate].
  destruct (d_done d) as [|b rest]; [discriminate|].
  intros H; inversion H; subst. exists b, rest. auto.
Qed.

Lemma Inv_same_world p p' : Inv p -> same_world p p' -> Inv p'.
Proof. unfold Inv; intros H [-> ->]; exact H. Qed.

Lemma zremove_single i : zremove i [i] = [].
Proof. unfold zremove; simpl. rewrite Z.eqb_refl. reflexivity. Qed.

Lemma inv_relock c d b v :
  inv c d -> truthy v = false -> inv (set_has_dqbuf v (set_dqbuf b c)) d.
Proof.
  unfold inv, pool; simpl. intros (L1 & L2 & B & D & F & H & W & P) Hv.
  rewrite Hv. inv_cases.
Qed.

Lemma inv_qbuf c d i s :
  inv c d -> truthy (usbcam_has_dqbuf c) = false -> zmem i (d_user d) = true ->
  inv c (log s (set_queues (d_count d) (d_streaming d) (d_incoming d ++ [i]) (d_done d)
                  (zremove i (d_user d)) d)).
Proof.
  unfold inv, pool; simpl. intros (L1 & L2 & B & D & F & H & (W1 & W2 & W3) & P) Hdq Hz.
  rewrite Hdq. unfold dwf; simpl. inv_cases.
  - apply Forall_app; split; auto. constructor; auto.
    rewrite List.Forall_forall in W3. apply W3, zmem_In, Hz.
  - rewrite List.Forall_forall in *. intros x Hx. apply zremove_In in Hx. apply W3, Hx.
Qed.

Lemma inv_dqbuf c d b rest s :
  inv c d -> truthy (usbcam_has_dqbuf c) = false -> d_done d = b :: rest ->
  inv c (log s (set_queues (d_count d) true (d_incoming d) rest (d_user d ++ [b_index b]) d)).
Proof.
  unfold inv, pool; simpl. intros (L1 & L2 & B & D & F & H & (W1 & W2 & W3) & P) Hdq Hdone.
  rewrite Hdone in W2. inversion W2 as [|? ? Hb Hrest]; subst.
  rewrite Hdq. unfold dwf; simpl. inv_cases.
  apply Forall_app; split; auto. constructor; auto. lia.
Qed.

(** *** [usbcam_unlock] *)

Lemma follows_refl p : follows p p.
Proof. exists []; reflexivity. Qed.

Lemma follows_trans p q r : follows p q -> follows q r -> follows p r.
Proof.
  intros [a Ha] [b Hb]. exists (a ++ b)%list. rewrite Ha, Hb, app_assoc. reflexivity.
Qed.

Lemma follows_length p q : follows p q -> (length (script q) <= length (script p))%nat.
Proof. intros [a Ha]. rewrite Ha, length_app. lia. Qed.

Lemma follows_same_script p q : script q = script p -> follows p q.
Proof. intros H; exists []; rewrite H; reflexivity. Qed.

Lemma device_failure_follows fuel p q r :
  follows p q -> device_failure fuel q r -> device_failure fuel p r.
Proof.
  intros Hf Hq Hlen. pose proof (follows_length _ _ Hf) as Hl.
  destruct Hq as (e & -> & Hin & Hnt); [lia|].
  exists e. split; [reflexivity|]. split; [|exact Hnt].
  destruct Hf as [a Ha]. rewrite Ha. apply in_or_app; right; exact Hin.
Qed.

(** A request the driver would carry out, on the open handle, stops only
    for a scheduled failure. *)
Lemma ioctl_stop_failure fuel req arg p p' r a d :
  ioctl_stop fuel req arg p r -> same_world p p' ->
  drv_ioctl (dev p) req arg = Done a d ->
  has_handle (dev p) (usbcam_fd (cam p)) = true ->
  device_failure fuel p r.
Proof.
  intros [[-> Hlen]|[[-> Hs]|(e & -> & Hc)]] _ Hdrv Hh Hfuel.
  - lia.
  - congruence.
  - destruct Hc as [[Hin Hnt]|[Hf|[Hb _]]]; [eauto | congruence | congruence].
Qed.

Lemma unlock_spec fuel p :
  Inv p ->
  wp (usbcam_unlock fuel)
     (fun _ p' => Inv p' /\ cam p' = set_has_dqbuf 0 (cam p) /\ (owns p -> owns p') /\
                  follows p p' /\
                  d_trace (dev p') = (d_trace (dev p) ++ requeue_trace (cam p))%list /\
                  d_fd (dev p') = d_fd (dev p) /\
                  (owns p -> d_user (dev p') = []))
     (fun r p' => Inv p' /\ device_failure fuel p r) p.
Proof.
  intros HI. unfold usbcam_unlock, requeue_trace.
  apply wp_bind, wp_load.
  destruct (truthy (usbcam_has_dqbuf (cam p))) eqn:Hdq.
  - assert (Hfd : truthy (usbcam_has_fd (cam p)) = true).
    { destruct HI as (_ & _ & _ & D & F & _). apply F. left. apply D, Hdq. }
    assert (Hz : zmem (b_index (usbcam_dqbuf (cam p))) (d_user (dev p)) = true).
    { destruct HI as (_ & _ & _ & D & _). apply D, Hdq. }
    assert (Hh : has_handle (dev p) (usbcam_fd (cam p)) = true).
    { destruct HI as (_ & _ & _ & _ & _ & H & _). apply H, Hfd. }
    apply wp_bind, wp_load, wp_bind, wp_ioctl_buffer.
    + congruence.
    + intros p' r Hw Hstop. split; [eapply Inv_same_world; eauto|].
      eapply ioctl_stop_failure; eauto.
      simpl. rewrite Hz. reflexivity.
    + intros p' a d Hc _ _ Hdrv Hd Hpre.
      apply drv_qbuf in Hdrv as (_ & -> & ->).
      apply wp_bind, wp_store, wp_store.
      split; [|split; [|split; [|split; [|split; [|split]]]]]; simpl.
      * unfold Inv. simpl. rewrite Hc, Hd. apply inv_qbuf; [apply inv_relock; auto | reflexivity | exact Hz].
      * rewrite Hc. destruct (cam p); reflexivity.
      * unfold owns, held. simpl. rewrite Hd, Hdq. simpl. intros ->. apply zremove_single.
      * exact Hpre.
      * rewrite Hd. reflexivity.
      * rewrite Hd. reflexivity.
      * unfold owns, held. rewrite Hd, Hdq. simpl. intros ->. apply zremove_single.
  - apply wp_ret. split; [exact HI|]. split; [|split; [|split; [|split; [|split]]]].
    + apply truthy_false in Hdq. destruct (cam p); simpl in *. subst. reflexivity.
    + auto.
    + apply follows_refl.
    + rewrite app_nil_r. reflexivity.
    + reflexivity.
    + unfold owns, held. rewrite Hdq. auto.
Qed.

(** *** [usbcam_lock] *)

Lemma next_fault_world p : same_world p (snd (next_fault p)).
Proof. unfold next_fault; destruct (script p); split; reflexivity. Qed.

Lemma wp_select nfds fd (Q : Z -> process -> Prop) E p :
  (forall r p', same_world p p' -> Q r p') -> wp (select nfds fd) Q E p.
Proof.
  intros HQ. unfold wp, select.
  pose proof (next_fault_world p) as Hw.
  destruct (next_fault p) as [f q]; simpl in Hw. destruct Hw as [Hc Hd].
  destruct f as [e|].
  - apply HQ; split; auto.
  - destruct (has_handle (dev q) fd && (fd <? nfds)).
    + destruct (d_done (dev q)); apply HQ; split; auto.
    + apply HQ; split; auto.
Qed.

Lemma wp_array_get arr i (Q : Z -> process -> Prop) (E : reason -> process -> Prop) p :
  E OutOfBounds p -> (forall v, 0 <= i -> arr (cam p) !! Z.to_nat i = Some v -> Q v p) ->
  wp (array_get arr i) Q E p.
Proof.
  intros HE HQ. unfold wp, array_get.
  destruct (i <? 0) eqn:Hi; [exact HE|].
  destruct (arr (cam p) !! Z.to_nat i) eqn:Hl; [|exact HE].
  apply HQ; auto. lia.
Qed.

Lemma wp_deref ptr (Q : unit -> process -> Prop) (E : reason -> process -> Prop) p :
  E NullDeref p -> (ptr <> NULL -> Q tt p) -> wp (deref ptr) Q E p.
Proof.
  intros HE HQ. unfold wp, deref. destruct (ptr =? NULL) eqn:Hp; simpl; [exact HE|].
  apply HQ. apply Z.eqb_neq, Hp.
Qed.

Lemma drain_spec phi c0 fuel n buf p :
  truthy (usbcam_has_dqbuf c0) = false ->
  holding phi c0 buf p ->
  wp (drain fuel n buf) (fun buf' p' => holding phi c0 buf' p') (fun _ p' => Inv p') p.
Proof.
  intros Hdq. revert buf p. induction n as [|n IH]; intros buf p (Hc & HI & Hz & Hi & Hb & Hu).
  - apply wp_stop, HI.
  - simpl. apply wp_bind, wp_load, wp_bind, wp_select.
    intros r p1 [Hc1 Hd1].
    destruct (r =? 1).
    + apply wp_bind, wp_ioctl_buffer.
      * intros _. unfold Inv in *. congruence.
      * intros p' r' [Hc' Hd'] _. unfold Inv in *. congruence.
      * intros p2 a d Hc2 _ _ Hdrv Hd2 _. rewrite Hd1 in Hdrv.
        apply drv_qbuf in Hdrv as (_ & -> & ->).
        assert (HI2 : Inv p2).
        { unfold Inv. rewrite Hc2, Hd2, Hc1. apply inv_qbuf; auto. congruence. }
        apply wp_bind, wp_ioctl_buffer.
        -- intros _. exact HI2.
        -- intros p' r' [Hc' Hd'] _. unfold Inv in *. congruence.
        -- intros p3 a d Hc3 _ _ Hdrv Hd3 _.
           apply drv_dqbuf in Hdrv as (b & rest & Hdone & Hs & -> & ->).
           apply IH. unfold holding.
           assert (Hv : 0 <= b_index b < d_count (dev p2) /\
                        0 <= b_bytesused b <= d_buflen (dev p2)).
           { destruct HI2 as (_ & _ & _ & _ & _ & _ & (_ & W2 & _) & _).
             rewrite Hdone in W2. inversion W2; auto. }
           split; [congruence|]. split; [|split; [|split; [|split]]].
           ++ unfold Inv. rewrite Hd3, Hc3. apply inv_dqbuf; auto. congruence.
           ++ rewrite Hd3. simpl. apply zmem_In, in_or_app. right. left. reflexivity.
           ++ rewrite Hd3. simpl. tauto.
           ++ rewrite Hd3. simpl. tauto.
           ++ intros Hphi. rewrite Hd3. simpl. rewrite Hd2. simpl.
              rewrite (Hu Hphi), zremove_single. reflexivity.
    + apply wp_ret. unfold holding, Inv. rewrite Hc1, Hd1. split_and!; auto; lia.
Qed.

Lemma inv_lock c d buf :
  inv c d -> truthy (usbcam_has_mmap c) = true -> truthy (usbcam_has_stream c) = true ->
  zmem (b_index buf) (d_user d) = true ->
  inv (set_has_dqbuf 1 (set_dqbuf buf c)) d.
Proof.
  unfold inv, pool; simpl. intros (L1 & L2 & B & D & F & H & W & P) Hm Hs Hz.
  split_and!; auto; try lia.
Qed.

Lemma lock_spec fuel data size timestamp p :
  Inv p ->
  wp (usbcam_lock fuel data size timestamp)
     (fun f p' => Inv p' /\
        truthy (usbcam_has_dqbuf (cam p)) = false /\
        truthy (usbcam_has_dqbuf (cam p')) = true /\
        (owns p -> owns p') /\
        in_pool f p')
     (fun _ p' => Inv p') p.
Proof.
  intros HI. unfold usbcam_lock.
  apply wp_bind, wp_load, wp_bind, wp_assert; [intros _; exact HI|intros Hdq].
  apply negb_true_iff in Hdq.
  apply wp_bind, wp_load, wp_bind, wp_assert; [intros _; exact HI|intros Hfd].
  apply wp_bind, wp_load, wp_bind, wp_assert; [intros _; exact HI|intros Hmm].
  apply wp_bind, wp_load, wp_bind, wp_assert; [intros _; exact HI|intros Hst].
  apply wp_bind, wp_ioctl_buffer.
  { intros _; exact HI. }
  { intros p' r Hw _; eapply Inv_same_world; eauto. }
  intros p1 a d Hc1 _ Hh Hdrv Hd1 _.
  apply drv_dqbuf in Hdrv as (b & rest & Hdone & Hs & -> & ->).
  assert (Hv : 0 <= b_index b < d_count (dev p) /\ 0 <= b_bytesused b <= d_buflen (dev p)).
  { destruct HI as (_ & _ & _ & _ & _ & _ & (_ & W2 & _) & _).
    rewrite Hdone in W2. inversion W2; auto. }
  apply wp_bind.
  eapply wp_mono; [apply (drain_spec (owns p) (cam p)); auto | | auto].
  - unfold holding. split; [auto|]. split; [|split; [|split; [|split]]].
    + unfold Inv. rewrite Hd1, Hc1. apply inv_dqbuf; auto.
    + rewrite Hd1. simpl. apply zmem_In, in_or_app. right. left. reflexivity.
    + rewrite Hd1. simpl. tauto.
    + rewrite Hd1. simpl. tauto.
    + intros Ho. rewrite Hd1. simpl. unfold owns, held in Ho. rewrite Hdq in Ho.
      rewrite Ho. reflexivity.
  - intros buf p2 (Hc2 & HI2 & Hz & Hi & Hb & Hu). cbv beta.
    apply wp_bind, wp_deref; [exact HI2|intros _].
    apply wp_bind, wp_array_get; [exact HI2|intros start Hge Hstart].
    apply wp_bind, wp_deref; [exact HI2|intros _].
    apply wp_bind, wp_deref; [exact HI2|intros _].
    apply wp_bind, wp_store, wp_bind, wp_store, wp_ret.
    simpl. rewrite Hc2.
    split; [|split; [|split; [|split]]].
    + unfold Inv. simpl. apply inv_lock; auto. unfold Inv in HI2. congruence.
    + exact Hdq.
    + reflexivity.
    + intros Ho. unfold owns, held. simpl. auto.
    + destruct HI2 as (_ & _ & _ & _ & _ & _ & _ & P). rewrite Hc2 in P.
      destruct (P Hmm Hst) as (Hcount & Hpool).
      destruct (Hpool (b_index buf)) as (a & Ha & Hl & Hin); [lia|].
      exists (b_index buf), (d_buflen (dev p2)). simpl.
      rewrite Hc2 in Hstart. rewrite Hstart in Ha. inversion Ha; subst a.
      split_and!; auto; lia.
Qed.

(** *** [usbcam_cleanup] *)

Lemma bind_assoc {A B C} (m : M A) (f : A -> M B) (g : B -> M C) p :
  bind (bind m f) g p = bind m (fun a => bind (f a) g) p.
Proof. unfold bind; destruct (m p); reflexivity. Qed.

Lemma bind_ext {A B} (m : M A) (k k' : A -> M B) p :
  (forall a q, k a q = k' a q) -> bind m k p = bind m k' p.
Proof. intros H; unfold bind; destruct (m p); auto. Qed.

Lemma cleanup_unfold fuel p :
  usbcam_cleanup fuel p =
  (usbcam_unlock fuel ;;; release_pool ;;; stop_stream fuel ;;; close_device) p.
Proof.
  unfold usbcam_cleanup, usbcam_unlock, release_pool, stop_stream, close_device.
  rewrite bind_assoc. apply bind_ext; intros h1 p1. apply bind_ext; intros [] p2.
  rewrite bind_assoc. apply bind_ext; intros h2 p3. apply bind_ext; intros [] p4.
  rewrite bind_assoc. reflexivity.
Qed.

Lemma wp_for_range (I : Z -> process -> Prop) body (Q : unit -> process -> Prop) E n :
  forall i p,
  I i p ->
  (forall j q, i <= j < i + Z.of_nat n -> I j q ->
     wp (body j) (fun _ q' => I (j + 1) q') E q) ->
  (forall q, I (i + Z.of_nat n) q -> Q tt q) ->
  wp (for_range i n body) Q E p.
Proof.
  induction n as [|n IH]; intros i p HI Hbody HQ.
  - apply wp_ret, HQ. replace (i + Z.of_nat 0) with i by lia. exact HI.
  - simpl. apply wp_bind. eapply wp_mono; [apply (Hbody i p); [lia | exact HI] | | auto].
    intros [] q Hq. apply IH; auto.
    + intros j q' Hj. apply Hbody. lia.
    + intros q' Hq'. apply HQ. replace (i + Z.of_nat (S n)) with (i + 1 + Z.of_nat n) by lia.
      exact Hq'.
Qed.

Lemma wp_array_get_ok arr i (Q : Z -> process -> Prop) (E : reason -> process -> Prop) p :
  0 <= i -> (Z.to_nat i < length (arr (cam p)))%nat ->
  Q (nth (Z.to_nat i) (arr (cam p)) 0) p ->
  wp (array_get arr i) Q E p.
Proof.
  intros Hi Hlen HQ. unfold wp, array_get.
  destruct (i <? 0) eqn:Hneg; [lia|].
  destruct (lookup_lt_is_Some_2 _ _ Hlen) as [v Hv].
  rewrite Hv. rewrite (nth_lookup_Some _ _ 0 _ Hv) in HQ. exact HQ.
Qed.

Lemma unmap_trace_fold rs d :
  d_trace (fold_left unmap rs d) =
  (d_trace d ++ map (fun r => SysMunmap (fst r) (snd r)) rs)%list.
Proof.
  revert d; induction rs as [|r rs IH]; intros d; simpl.
  - rewrite app_nil_r; reflexivity.
  - rewrite IH. simpl. rewrite <- app_assoc. reflexivity.
Qed.

Lemma inv_unmap c d r : inv c d -> truthy (usbcam_has_mmap c) = false -> inv c (unmap d r).
Proof.
  unfold inv, pool, dwf; simpl. intros (L1 & L2 & B & D & F & H & (W1 & W2 & W3) & P) Hm.
  rewrite Hm. inv_cases.
  - intros Hd. destruct (D Hd) as [X _]. congruence.
  - intros [X|X]; [discriminate | auto].
Qed.

Lemma inv_unmap_fold c rs d :
  inv c d -> truthy (usbcam_has_mmap c) = false -> inv c (fold_left unmap rs d).
Proof.
  revert d; induction rs as [|r rs IH]; intros d HI Hm; simpl; auto.
  apply IH; auto. apply inv_unmap; auto.
Qed.

Lemma unmap_fold_frame rs d :
  d_fd (fold_left unmap rs d) = d_fd d /\
  d_user (fold_left unmap rs d) = d_user d.
Proof.
  revert d; induction rs as [|r rs IH]; intros d; simpl; auto.
  destruct (IH (unmap d r)) as [-> ->]. auto.
Qed.

Lemma inv_clear_mmap c d :
  inv c d -> truthy (usbcam_has_dqbuf c) = false -> inv (set_has_mmap 0 c) d.
Proof.
  unfold inv, pool; simpl. intros (L1 & L2 & B & D & F & H & W & P) Hdq.
  rewrite Hdq. inv_cases.
  intros [Hm|Hs]; [discriminate | auto].
Qed.

Lemma release_pool_spec p E :
  Inv p -> truthy (usbcam_has_dqbuf (cam p)) = false ->
  wp release_pool
     (fun _ p' => Inv p' /\ cam p' = set_has_mmap 0 (cam p) /\ script p' = script p /\
                  d_trace (dev p') = (d_trace (dev p) ++ unmap_trace (cam p))%list /\
                  d_fd (dev p') = d_fd (dev p) /\ d_user (dev p') = d_user (dev p))
     E p.
Proof.
  intros HI Hdq. unfold release_pool, unmap_trace.
  apply wp_bind, wp_load.
  destruct (truthy (usbcam_has_mmap (cam p))) eqn:Hm.
  - apply wp_bind, wp_load, wp_bind.
    apply (wp_for_range (fun j q =>
             0 <= j /\ cam q = cam p /\ script q = script p /\
             dev q = fold_left unmap (map (region (cam p)) (seq 0 (Z.to_nat j))) (dev p))).
    + simpl. split; [lia|]. auto.
    + intros j q Hj (Hj0 & Hc & Hs & Hd).
      destruct HI as (L1 & L2 & B & _).
      apply wp_bind, wp_array_get_ok; [lia | rewrite Hc, L1; unfold usbcam_max_buffers in *; lia |].
      apply wp_bind, wp_array_get_ok; [lia | rewrite Hc, L2; unfold usbcam_max_buffers in *; lia |].
      apply wp_bind. unfold wp at 1, munmap. apply wp_ret. simpl.
      split; [lia|]. split; [exact Hc|]. split; [exact Hs|].
      replace (Z.to_nat (j + 1)) with (S (Z.to_nat j)) by lia.
      rewrite seq_S, map_app, fold_left_app. simpl. rewrite <- Hd, Hc. reflexivity.
    + intros q (_ & Hc & Hs & Hd). apply wp_store. simpl.
      rewrite Z.add_0_l, Nat2Z.id in Hd. fold (pool_regions (cam p)) in Hd.
      split; [|split; [|split; [|split; [|split]]]].
      * unfold Inv. simpl. rewrite Hc, Hd. apply inv_unmap_fold; [|reflexivity].
        apply inv_clear_mmap; auto.
      * rewrite Hc. reflexivity.
      * exact Hs.
      * rewrite Hd. apply unmap_trace_fold.
      * rewrite Hd. apply unmap_fold_frame.
      * rewrite Hd. apply unmap_fold_frame.
  - apply wp_ret. split; [exact HI|]. split; [|split; [|split; [|split]]]; auto.
    + apply truthy_false in Hm. destruct (cam p); simpl in *. subst. reflexivity.
    + rewrite app_nil_r. reflexivity.
Qed.

Lemma inv_streamoff c d s :
  inv c d -> truthy (usbcam_has_dqbuf c) = false ->
  inv (set_has_stream 0 c)
      (log s (set_queues (d_count d) false [] [] (zseq (d_count d)) d)).
Proof.
  unfold inv, pool, dwf; simpl. intros (L1 & L2 & B & D & F & H & W & P) Hdq.
  rewrite Hdq. inv_cases.
  - intros [X|X]; [auto | discriminate].
  - apply List.Forall_forall. intros x Hx. apply zseq_In, Hx.
Qed.

Lemma stop_stream_spec fuel p :
  Inv p -> truthy (usbcam_has_dqbuf (cam p)) = false ->
  wp (stop_stream fuel)
     (fun _ p' => Inv p' /\ cam p' = set_has_stream 0 (cam p) /\ follows p p' /\
                  d_trace (dev p') = (d_trace (dev p) ++ streamoff_trace (cam p))%list /\
                  d_fd (dev p') = d_fd (dev p) /\
                  (truthy (usbcam_has_stream (cam p)) = false ->
                   d_user (dev p') = d_user (dev p)))
     (fun r p' => Inv p' /\ device_failure fuel p r) p.
Proof.
  intros HI Hdq. unfold stop_stream, streamoff_trace.
  apply wp_bind, wp_load.
  destruct (truthy (usbcam_has_stream (cam p))) eqn:Hst.
  - assert (Hfd : truthy (usbcam_has_fd (cam p)) = true).
    { destruct HI as (_ & _ & _ & _ & F & _). apply F. right. exact Hst. }
    assert (Hh : has_handle (dev p) (usbcam_fd (cam p)) = true).
    { destruct HI as (_ & _ & _ & _ & _ & H & _). apply H, Hfd. }
    apply wp_bind, wp_usbcam_ioctl.
    + congruence.
    + intros p' r Hw Hstop. split; [eapply Inv_same_world; eauto|].
      eapply ioctl_stop_failure; eauto.
    + intros p' a d Hc _ _ Hdrv Hd Hpre. simpl in Hdrv. inversion Hdrv; subst a d.
      apply wp_store. simpl.
      split; [|split; [|split; [|split; [|split]]]].
      * unfold Inv. simpl. rewrite Hc, Hd. apply inv_streamoff; auto.
      * rewrite Hc. reflexivity.
      * exact Hpre.
      * rewrite Hd. reflexivity.
      * rewrite Hd. reflexivity.
      * discriminate.
  - apply wp_ret. split; [exact HI|]. split; [|split; [|split; [|split]]]; auto.
    + apply truthy_false in Hst. destruct (cam p); simpl in *. subst. reflexivity.
    + apply follows_refl.
    + rewrite app_nil_r. reflexivity.
Qed.

Lemma inv_closed c d s :
  inv c d -> truthy (usbcam_has_dqbuf c) = false ->
  truthy (usbcam_has_mmap c) = false -> truthy (usbcam_has_stream c) = false ->
  inv (set_has_fd 0 c) (log s (set_handle None (set_queues 0 false [] [] [] d))).
Proof.
  unfold inv, pool, dwf; simpl. intros (L1 & L2 & B & D & F & H & W & P) Hdq Hm Hs.
  rewrite Hdq, Hm, Hs. inv_cases.
Qed.

Lemma close_device_spec p E :
  Inv p -> truthy (usbcam_has_dqbuf (cam p)) = false ->
  truthy (usbcam_has_mmap (cam p)) = false -> truthy (usbcam_has_stream (cam p)) = false ->
  wp close_device
     (fun _ p' => Inv p' /\ cam p' = set_has_fd 0 (cam p) /\ script p' = script p /\
                  d_trace (dev p') = (d_trace (dev p) ++ close_trace (cam p))%list /\
                  (truthy (usbcam_has_fd (cam p)) = true -> released (dev p')) /\
                  (truthy (usbcam_has_fd (cam p)) = false -> dev p' = dev p))
     E p.
Proof.
  intros HI Hdq Hm Hs. unfold close_device, close_trace.
  apply wp_bind, wp_load.
  destruct (truthy (usbcam_has_fd (cam p))) eqn:Hfd.
  - assert (Hh : has_handle (dev p) (usbcam_fd (cam p)) = true).
    { destruct HI as (_ & _ & _ & _ & _ & H & _). apply H, Hfd. }
    apply wp_bind, wp_load, wp_bind. unfold wp at 1, close. rewrite Hh.
    apply wp_store. simpl.
    split; [|split; [|split; [|split; [|split]]]]; auto.
    + unfold Inv. simpl. apply inv_closed; auto.
    + intros _. repeat split.
    + discriminate.
  - apply wp_ret. split; [exact HI|]. split; [|split; [|split; [|split]]]; auto.
    + apply truthy_false in Hfd. destruct (cam p); simpl in *. subst. reflexivity.
    + rewrite app_nil_r. reflexivity.
    + discriminate.
Qed.

Lemma quiescent_cleared c p' :
  cam p' = set_has_fd 0 (set_has_stream 0 (set_has_mmap 0 (set_has_dqbuf 0 c))) ->
  quiescent p'.
Proof. unfold quiescent; intros ->; simpl; auto. Qed.

Lemma cleanup_spec fuel p :
  Inv p ->
  wp (usbcam_cleanup fuel)
     (fun _ p' => Inv p' /\
        cam p' = set_has_fd 0 (set_has_stream 0 (set_has_mmap 0 (set_has_dqbuf 0 (cam p)))) /\
        (owns p -> owns p') /\
        follows p p' /\
        d_trace (dev p') = (d_trace (dev p) ++ cleanup_trace (cam p))%list /\
        (truthy (usbcam_has_fd (cam p)) = true -> released (dev p')))
     (fun r p' => Inv p' /\ device_failure fuel p r) p.
Proof.
  intros HI. apply (wp_rewrite _ _ _ _ _ (cleanup_unfold fuel p)).
  apply wp_bind. eapply wp_mono; [apply unlock_spec, HI | | auto].
  intros [] p1 (HI1 & Hc1 & _ & Hf1 & Ht1 & Hfd1 & Hu1).
  assert (Hdq1 : truthy (usbcam_has_dqbuf (cam p1)) = false) by (rewrite Hc1; reflexivity).
  apply wp_bind.
  eapply wp_mono; [apply (release_pool_spec p1 (fun _ _ => False)); auto | | intros r q []].
  intros [] p2 (HI2 & Hc2 & Hs2 & Ht2 & Hfd2 & Hu2).
  assert (Hdq2 : truthy (usbcam_has_dqbuf (cam p2)) = false) by (rewrite Hc2, Hc1; reflexivity).
  apply wp_bind. eapply wp_mono; [apply stop_stream_spec; auto | | ].
  2:{ intros r q [Hq Hdf]. split; [exact Hq|].
      eapply device_failure_follows; [|exact Hdf].
      eapply follows_trans; [exact Hf1|]. apply follows_same_script, Hs2. }
  intros [] p3 (HI3 & Hc3 & Hf3 & Ht3 & Hfd3 & Hu3).
  assert (Hdq3 : truthy (usbcam_has_dqbuf (cam p3)) = false)
    by (rewrite Hc3, Hc2, Hc1; reflexivity).
  assert (Hm3 : truthy (usbcam_has_mmap (cam p3)) = false)
    by (rewrite Hc3, Hc2; reflexivity).
  assert (Hs3 : truthy (usbcam_has_stream (cam p3)) = false)
    by (rewrite Hc3; reflexivity).
  eapply wp_mono; [apply (close_device_spec p3 (fun _ _ => False)); auto | | intros r q []].
  intros [] p4 (HI4 & Hc4 & Hs4 & Ht4 & Hrel & Hsame).
  assert (Hflags : usbcam_has_fd (cam p3) = usbcam_has_fd (cam p) /\
                   usbcam_has_stream (cam p2) = usbcam_has_stream (cam p) /\
                   usbcam_has_mmap (cam p1) = usbcam_has_mmap (cam p) /\
                   usbcam_fd (cam p3) = usbcam_fd (cam p) /\
                   pool_regions (cam p1) = pool_regions (cam p)).
  { rewrite Hc3, Hc2, Hc1. repeat split. }
  destruct Hflags as (E1 & E2 & E3 & E4 & E5).
  split; [exact HI4|]. split; [|split; [|split; [|split]]].
  - rewrite Hc4, Hc3, Hc2, Hc1. destruct (cam p); reflexivity.
  - intros Ho. unfold owns, held. rewrite Hc4, Hc3, Hc2, Hc1. simpl.
    destruct (truthy (usbcam_has_fd (cam p))) eqn:Hfd.
    + rewrite E1 in Hrel. apply Hrel; auto.
    + rewrite E1 in Hsame. rewrite (Hsame Hfd).
      assert (Hst : truthy (usbcam_has_stream (cam p)) = false).
      { destruct (truthy (usbcam_has_stream (cam p))) eqn:Hst; auto.
        destruct HI as (_ & _ & _ & _ & F & _). rewrite F in Hfd; auto. }
      rewrite E2 in Hu3. rewrite (Hu3 Hst), Hu2. auto.
  - eapply follows_trans; [exact Hf1|]. eapply follows_trans; [apply follows_same_script, Hs2|].
    eapply follows_trans; [exact Hf3|]. apply follows_same_script, Hs4.
  - rewrite Ht4, Ht3, Ht2, Ht1. unfold cleanup_trace, unmap_trace, streamoff_trace, close_trace.
    rewrite E1, E2, E3, E4, E5. rewrite <- !app_assoc. reflexivity.
  - rewrite E1 in Hrel. exact Hrel.
Qed.

(** *** [usbcam_init] *)

Lemma drv_frame d req arg a d' :
  drv_ioctl d req arg = Done a d' -> d_fd d' = d_fd d /\ d_maps d' = d_maps d.
Proof.
  destruct req, arg; simpl;
    repeat match goal with
           | |- context [if ?c then _ else _] => destruct c
           | |- context [match ?x with _ => _ end] => destruct x
           end;
    intros H; inversion H; subst; auto.
Qed.

Lemma dwf_empty d : d_count d <= 0 -> dwf d ->
  d_incoming d = [] /\ d_done d = [] /\ d_user d = [].
Proof.
  intros Hc (W1 & W2 & W3). split; [|split].
  - destruct (d_incoming d); auto. inversion W1; lia.
  - destruct (d_done d); auto. inversion W2; lia.
  - destruct (d_user d); auto. inversion W3; lia.
Qed.

Lemma drv_dwf d req arg a d' : dwf d -> drv_ioctl d req arg = Done a d' -> dwf d'.
Proof.
  intros W. pose proof W as (W1 & W2 & W3).
  destruct req, arg; simpl; try discriminate.
  - (* S_FMT *)
    destruct (d_streaming d || (0 <? d_count d)) eqn:Hb; [discriminate|].
    apply orb_false_iff in Hb as [_ Hc]. apply Z.ltb_ge in Hc.
    destruct (dwf_empty d Hc W) as (E1 & E2 & E3).
    destruct (find (same_mode pix) (d_modes d)); [|destruct (d_modes d); [discriminate|]];
      intros H; inversion H; subst; unfold dwf; simpl; rewrite E1, E2, E3; auto.
  - (* REQBUFS *)
    destruct (d_streaming d); [discriminate|]. intros H; inversion H; subst.
    unfold dwf; simpl. split_and!; auto.
    apply List.Forall_forall. intros x Hx. apply zseq_In, Hx.
  - (* QUERYBUF *)
    destruct ((0 <=? b_index b) && (b_index b <? d_count d)); [|discriminate].
    intros H; inversion H; subst; auto.
  - (* QBUF *)
    destruct (zmem (b_index b) (d_user d)) eqn:Hz; [|discriminate].
    intros H; inversion H; subst. unfold dwf; simpl. split_and!; auto.
    + apply Forall_app; split; auto. constructor; auto.
      rewrite List.Forall_forall in W3. apply W3, zmem_In, Hz.
    + rewrite List.Forall_forall in *. intros x Hx. apply zremove_In in Hx. apply W3, Hx.
  - (* DQBUF *)
    destruct (d_streaming d); [|discriminate].
    destruct (d_done d) as [|b0 rest] eqn:Hdone; [discriminate|].
    intros H; inversion H; subst. inversion W2; subst.
    unfold dwf; simpl. split_and!; auto.
    apply Forall_app; split; auto. constructor; auto. lia.
  - (* STREAMON *)
    intros H; inversion H; subst. unfold dwf; simpl. auto.
  - (* STREAMOFF *)
    intros H; inversion H; subst. unfold dwf; simpl. split_and!; auto.
    apply List.Forall_forall. intros x Hx. apply zseq_In, Hx.
Qed.

Lemma building_inv c d : building c d -> inv c d.
Proof.
  unfold building, inv. intros (L1 & L2 & B & Hdq & Hfd & Hs & Hh & W).
  rewrite Hdq, Hfd, Hs. inv_cases.
Qed.

Lemma building_drv c d req arg a d' s :
  building c d -> drv_ioctl d req arg = Done a d' -> building c (log s d').
Proof.
  unfold building. intros (L1 & L2 & B & Hdq & Hfd & Hs & Hh & W) Hdrv.
  destruct (drv_frame _ _ _ _ _ Hdrv) as [Ef Em].
  pose proof (drv_dwf _ _ _ _ _ W Hdrv) as W'.
  split_and!; auto; try lia.
  unfold has_handle in *. simpl. rewrite Ef. exact Hh.
Qed.

Lemma wp_open file oflag (Q : Z -> process -> Prop) E p :
  (forall p', same_world p p' -> Q (-1) p') ->
  (forall p', cam p' = cam p -> d_fd (dev p) = None ->
     dev p' = log (SysOpen 3) (set_handle (Some 3) (dev p)) -> Q 3 p') ->
  wp (v4l2_open file oflag) Q E p.
Proof.
  intros HF HS. unfold wp, v4l2_open.
  pose proof (next_fault_world p) as Hw.
  destruct (next_fault p) as [f q]; simpl in Hw. destruct Hw as [Hc Hd].
  destruct f as [e|].
  - apply HF; split; auto.
  - destruct (negb (String.eqb file (d_name (dev q)))).
    + apply HF; split; auto.
    + destruct (d_fd (dev q)) eqn:Hfd.
      * apply HF; split; auto.
      * apply HS; simpl; auto; congruence.
Qed.

Lemma wp_mmap len fd offset (Q : Z -> process -> Prop) E p :
  (forall p', same_world p p' -> Q MAP_FAILED p') ->
  (forall p', cam p' = cam p -> 0 < len ->
     dev p' = log (SysMmap (d_brk (dev p)) len)
                (set_maps (d_maps (dev p) ++ [(d_brk (dev p), len)])
                          (d_brk (dev p) + len) (dev p)) ->
     Q (d_brk (dev p)) p') ->
  wp (mmap len fd offset) Q E p.
Proof.
  intros HF HS. unfold wp, mmap.
  pose proof (next_fault_world p) as Hw.
  destruct (next_fault p) as [f q]; simpl in Hw. destruct Hw as [Hc Hd].
  destruct f as [e|].
  - apply HF; split; auto.
  - destruct (negb (has_handle (dev q) fd)).
    + apply HF; split; auto.
    + destruct (len <=? 0) eqn:Hl.
      * apply HF; split; auto.
      * rewrite Hd. apply HS; simpl; auto; try congruence. lia.
Qed.

Lemma wp_array_set arr upd i v (Q : unit -> process -> Prop) (E : reason -> process -> Prop) p :
  E OutOfBounds p ->
  (0 <= i -> (Z.to_nat i < length (arr (cam p)))%nat ->
   Q tt (set_cam (upd (<[Z.to_nat i := v]> (arr (cam p))) (cam p)) p)) ->
  wp (array_set arr upd i v) Q E p.
Proof.
  intros HE HQ. unfold wp, array_set.
  destruct ((i <? 0) || (Z.of_nat (length (arr (cam p))) <=? i)) eqn:Hb; [exact HE|].
  apply orb_false_iff in Hb as [H1 H2]. apply HQ; lia.
Qed.

Lemma drv_querybuf d b a d' :
  drv_ioctl d VIDIOC_QUERYBUF (ArgBuffer b) = Done a d' ->
  d' = d /\ exists b', a = ArgBuffer b' /\ b_length b' = d_buflen d.
Proof.
  simpl. destruct ((0 <=? b_index b) && (b_index b <? d_count d)); [|discriminate].
  intros H; inversion H; subst. split; auto. eexists; split; reflexivity.
Qed.

Lemma building_set_length c d l :
  building c d -> length l = length (usbcam_buffer_length c) ->
  building (set_buffer_length l c) d.
Proof.
  unfold building; simpl. intros (L1 & L2 & B & Hdq & Hfd & Hs & Hh & W) Hl.
  split_and!; auto; try lia.
Qed.

Lemma building_set_start c d l :
  building c d -> length l = length (usbcam_buffer_start c) ->
  building (set_buffer_start l c) d.
Proof.
  unfold building; simpl. intros (L1 & L2 & B & Hdq & Hfd & Hs & Hh & W) Hl.
  split_and!; auto; try lia.
Qed.

Lemma building_mmap c d s a len :
  building c d -> building c (log s (set_maps (d_maps d ++ [(a, len)]) (a + len) d)).
Proof.
  unfold building, dwf, has_handle; simpl. tauto.
Qed.

Lemma alloc_body_spec fuel n L u j q :
  0 <= j < n -> n <= usbcam_max_buffers ->
  allocating n L u j q ->
  wp (alloc_body fuel j) (fun _ q' => allocating n L u (j + 1) q') (fun _ q' => Inv q') q.
Proof.
  intros Hj Hn (Hj0 & HB & Hm & Hcount & Hu & HL & Hmap). unfold alloc_body.
  pose proof HB as (L1 & L2 & B & Hdq & Hfd & Hs & Hh & W).
  apply wp_bind, wp_ioctl_buffer.
  - congruence.
  - intros p' r [Hc Hd] _. unfold Inv. rewrite Hc, Hd. apply building_inv, HB.
  - intros q1 a d Hc1 _ _ Hdrv Hd1 _.
    apply drv_querybuf in Hdrv as (-> & b' & -> & Hlen).
    assert (HB1 : building (cam q1) (dev q1)).
    { rewrite Hc1, Hd1. unfold building in *. unfold has_handle, dwf in *. simpl. tauto. }
    apply wp_bind, wp_array_set.
    { apply building_inv, HB1. }
    intros _ Hin1. apply wp_bind, wp_load, wp_bind, wp_mmap.
    + (* mmap failed *)
      intros q2 [Hc2 Hd2]. apply wp_bind, wp_array_set.
      * unfold Inv. rewrite Hc2, Hd2. simpl. apply building_inv, building_set_length; auto.
        apply length_insert.
      * intros _ _. apply wp_assert; [|discriminate].
        intros _. unfold Inv. simpl. rewrite Hc2, Hd2. simpl.
        apply building_inv, building_set_start; [apply building_set_length; auto|];
          apply length_insert.
    + intros q2 Hc2 Hpos Hd2. simpl in Hc2, Hd2.
      assert (HB2 : building (cam q2) (dev q2)).
      { rewrite Hc2, Hd2. apply building_mmap, building_set_length; auto. apply length_insert. }
      apply wp_bind, wp_array_set.
      { apply building_inv, HB2. }
      intros _ Hin2. apply wp_assert.
      * intros _. unfold Inv. simpl. apply building_inv, building_set_start; auto.
        apply length_insert.
      * intros _. unfold allocating. simpl.
        split; [lia|]. split; [|split; [|split; [|split; [|split]]]].
        -- apply building_set_start; auto. apply length_insert.
        -- rewrite Hc2. simpl. rewrite Hc1. exact Hm.
        -- rewrite Hd2. simpl. rewrite Hd1. exact Hcount.
        -- rewrite Hd2. simpl. rewrite Hd1. exact Hu.
        -- rewrite Hd2. simpl. rewrite Hd1. exact HL.
        -- unfold mapped_upto. simpl. intros i Hi.
           rewrite Hc2, Hd2. simpl. rewrite Hc1, Hd1. simpl.
           destruct (Z.eq_dec i j) as [->|Hne].
           ++ exists (d_brk (dev q)). rewrite Hc2 in Hin2. simpl in Hin2. rewrite Hc1 in *.
              rewrite !list_lookup_insert_eq by auto.
              rewrite Hlen, HL. split; [reflexivity|]. split; [reflexivity|].
              apply in_or_app. right. left. reflexivity.
           ++ destruct (Hmap i) as (a & Ha & Hl & Hin); [lia|].
              exists a. rewrite !list_lookup_insert_ne by lia.
              split; [exact Ha|]. split; [exact Hl|].
              apply in_or_app. left. exact Hin.
Qed.

Lemma drv_reqbufs d count ty mem a d' :
  drv_ioctl d VIDIOC_REQBUFS (ArgRequest count ty mem) = Done a d' ->
  exists granted, a = ArgRequest granted ty mem /\
    d' = set_queues granted false [] [] (zseq granted) d.
Proof.
  simpl. destruct (d_streaming d); [discriminate|].
  intros H; inversion H; subst. eauto.
Qed.

Lemma inv_set_fd c d v :
  inv c d -> truthy (usbcam_has_fd c) = false -> inv (set_fd v c) d.
Proof.
  unfold inv, pool; simpl. intros (L1 & L2 & B & D & F & H & W & P) Hfd.
  rewrite Hfd. inv_cases.
  intros X. apply F in X. congruence.
Qed.

Lemma inv_started c d :
  building c d -> truthy (usbcam_has_mmap c) = true -> pool c d ->
  inv (set_has_stream 1 c) d.
Proof.
  unfold building, inv, pool; simpl.
  intros (L1 & L2 & B & Hdq & Hfd & Hs & Hh & W) Hm P.
  rewrite Hdq, Hfd, Hm. inv_cases.
Qed.

Lemma queue_body_spec fuel c n j q :
  truthy (usbcam_has_dqbuf c) = false ->
  queueing c n j q ->
  wp (ioctl_buffer fuel VIDIOC_QBUF (capture_buffer j) ;;; ret tt)
     (fun _ q' => queueing c n (j + 1) q') (fun _ q' => Inv q') q.
Proof.
  intros Hdq (Hj & HI & Hc & Hu).
  apply wp_bind, wp_ioctl_buffer.
  - intros _. exact HI.
  - intros p' r Hw _. eapply Inv_same_world; eauto.
  - intros q1 a d Hc1 _ _ Hdrv Hd1 _.
    apply drv_qbuf in Hdrv as (Hz & -> & ->). simpl in *.
    apply wp_ret. unfold queueing. split; [lia|]. split; [|split].
    + unfold Inv. rewrite Hc1, Hd1. apply inv_qbuf; auto. congruence.
    + congruence.
    + rewrite Hd1. simpl. rewrite List.Forall_forall in *.
      intros x Hx. apply zremove_In in Hx as [Hx Hne]. specialize (Hu x Hx). lia.
Qed.

Lemma init_spec fuel opt p :
  Inv p ->
  wp (usbcam_init fuel opt)
     (fun _ p' => Inv p' /\ owns p' /\
        truthy (usbcam_has_fd (cam p')) = true /\
        truthy (usbcam_has_mmap (cam p')) = true /\
        truthy (usbcam_has_stream (cam p')) = true /\
        truthy (usbcam_has_dqbuf (cam p')) = false /\
        usbcam_buffers (cam p') = buffers opt)
     (fun _ p' => Inv p') p.
Proof.
  intros HI. unfold usbcam_init.
  apply wp_bind. eapply wp_mono; [apply cleanup_spec, HI | | intros r q [Hq _]; exact Hq].
  intros [] p1 (HI1 & Hc1 & _). cbv beta.
  apply wp_bind, wp_assert; [intros _; exact HI1 | intros Hmax].
  apply wp_bind, wp_assert; [intros _; exact HI1 | intros Hmin].
  apply Z.leb_le in Hmax. apply Z.ltb_lt in Hmin.
  assert (Hfd1 : truthy (usbcam_has_fd (cam p1)) = false) by (rewrite Hc1; reflexivity).
  apply wp_bind, wp_open.
  { intros p2 [Hc2 Hd2]. apply wp_bind, wp_store, wp_bind, wp_assert; [|discriminate].
    intros _. unfold Inv. simpl. rewrite Hc2, Hd2. apply inv_set_fd; auto. }
  intros p2 Hc2 Hnone Hd2. apply wp_bind, wp_store, wp_bind, wp_assert; [discriminate|].
  intros _. apply wp_bind, wp_store.
  match goal with |- wp _ _ _ ?s => set (p3 := s) end.
  assert (Hc3 : cam p3 = set_has_fd 1 (set_fd 3 (cam p1))) by (simpl; rewrite Hc2; reflexivity).
  assert (Hd3 : dev p3 = log (SysOpen 3) (set_handle (Some 3) (dev p1))) by exact Hd2.
  clearbody p3.
  assert (HB3 : building (cam p3) (dev p3)).
  { rewrite Hc3, Hd3, Hc1. destruct HI1 as (L1 & L2 & B & _ & _ & _ & W & _).
    rewrite Hc1 in L1, L2, B. simpl in L1, L2, B.
    unfold building, dwf, has_handle; simpl. split_and!; auto; try lia; apply W. }
  assert (Hm3 : truthy (usbcam_has_mmap (cam p3)) = false) by (rewrite Hc3, Hc1; reflexivity).
  (* set format *)
  apply wp_bind, wp_usbcam_ioctl.
  { destruct HB3 as (_ & _ & _ & _ & Hfd & _). congruence. }
  { intros p' r [Hc Hd] _. unfold Inv. rewrite Hc, Hd. apply building_inv, HB3. }
  intros p4 a4 d4 Hc4 _ _ Hdrv4 Hd4 _.
  assert (HB4 : building (cam p4) (dev p4)).
  { rewrite Hc4, Hd4. eapply building_drv; eauto. }
  apply wp_bind. apply (wp_mono _ (fun _ q => q = p4) _ (fun _ q => Inv q)); [| |auto].
  { destruct a4; try (apply wp_ret; reflexivity).
    apply wp_bind, wp_assert; [intros _; apply building_inv, HB4|intros _].
    apply wp_bind, wp_assert; [intros _; apply building_inv, HB4|intros _].
    apply wp_assert; [intros _; apply building_inv, HB4|intros _]. reflexivity. }
  intros [] q ->.
  (* request buffers *)
  apply wp_bind, wp_usbcam_ioctl.
  { destruct HB4 as (_ & _ & _ & _ & Hfd & _). congruence. }
  { intros p' r [Hc Hd] _. unfold Inv. rewrite Hc, Hd. apply building_inv, HB4. }
  intros p5 a5 d5 Hc5 _ _ Hdrv5 Hd5 _.
  assert (HB5 : building (cam p5) (dev p5)).
  { rewrite Hc5, Hd5. eapply building_drv; eauto. }
  apply drv_reqbufs in Hdrv5 as (granted & -> & ->).
  apply wp_bind, wp_assert; [intros _; apply building_inv, HB5|intros Hgr].
  apply Z.eqb_eq in Hgr. subst granted.
  (* allocate buffers *)
  apply wp_bind.
  apply (wp_for_range (allocating (buffers opt) (d_buflen (dev p5)) (zseq (buffers opt)))).
  { unfold allocating. split; [lia|]. split; [exact HB5|]. split; [congruence|].
    rewrite Hd5. simpl. split; [reflexivity|]. split; [reflexivity|]. split; [reflexivity|].
    intros i Hi. lia. }
  { intros j q Hj HA. apply (alloc_body_spec fuel (buffers opt)); auto; lia. }
  intros p6 (_ & HB6 & Hm6 & Hcount6 & Hu6 & HL6 & Hmap6).
  rewrite Z.add_0_l, Z2Nat.id in Hmap6 by lia.
  apply wp_bind, wp_store, wp_bind, wp_store.
  match goal with |- wp _ _ _ ?s => set (p7 := s) end.
  assert (Hc7 : cam p7 = set_has_mmap 1 (set_buffers (buffers opt) (cam p6))) by reflexivity.
  assert (Hd7 : dev p7 = dev p6) by reflexivity.
  clearbody p7.
  assert (HB7 : building (cam p7) (dev p7)).
  { rewrite Hc7, Hd7. unfold building in *. simpl. split_and!; try apply HB6; lia. }
  (* start streaming *)
  apply wp_bind, wp_usbcam_ioctl.
  { destruct HB7 as (_ & _ & _ & _ & Hfd & _). congruence. }
  { intros p' r [Hc Hd] _. unfold Inv. rewrite Hc, Hd. apply building_inv, HB7. }
  intros p8 a8 d8 Hc8 _ _ Hdrv8 Hd8 _.
  assert (HB8 : building (cam p8) (dev p8)).
  { rewrite Hc8, Hd8. eapply building_drv; eauto. }
  simpl in Hdrv8. inversion Hdrv8; subst a8 d8. clear Hdrv8.
  apply wp_bind, wp_store.
  match goal with |- wp _ _ _ ?s => set (p9 := s) end.
  assert (Hc9 : cam p9 = set_has_stream 1 (cam p8)) by reflexivity.
  assert (Hd9 : dev p9 = dev p8) by reflexivity.
  clearbody p9.
  assert (HI9 : Inv p9).
  { unfold Inv. rewrite Hc9, Hd9. apply inv_started; auto.
    - rewrite Hc8, Hc7. reflexivity.
    - unfold pool. rewrite Hc8, Hc7, Hd8, Hd7. simpl. split; [exact Hcount6|].
      intros i Hi. rewrite HL6. apply Hmap6, Hi. }
  (* queue buffers *)
  assert (Hdq9 : truthy (usbcam_has_dqbuf (cam p9)) = false).
  { rewrite Hc9. simpl. apply HB8. }
  apply (wp_for_range (queueing (cam p9) (buffers opt))).
  { unfold queueing. split; [lia|]. split; [exact HI9|]. split; [reflexivity|].
    rewrite Hd9, Hd8. simpl. rewrite Hd7, Hu6.
    apply List.Forall_forall. intros x Hx. apply zseq_In in Hx. lia. }
  { intros j q Hj HQ. apply queue_body_spec; auto. }
  intros q (_ & HIq & Hcq & Huq).
  rewrite Z.add_0_l, Z2Nat.id in Huq by lia.
  split; [exact HIq|]. rewrite Hcq, Hc9, Hc8, Hc7. simpl.
  split; [|split; [|split; [|split; [|split]]]]; auto.
  - unfold owns, held. rewrite Hcq. rewrite Hdq9.
    destruct (d_user (dev q)) as [|x l]; auto. inversion Huq; lia.
  - apply HB6.
  - apply HB6.
Qed.

(** *** The invariant holds in every attainable state *)

Lemma Inv_boot d s : fresh d -> Inv (boot d s).
Proof.
  intros (F1 & F2 & F3 & F4 & F5 & F6 & F7).
  unfold Inv, inv, pool, dwf; simpl. rewrite F4, F5, F6.
  split_and!; auto; try discriminate; try lia; try reflexivity.
  intros [X|X]; discriminate.
Qed.

Lemma Inv_env p p' : Inv p -> env_step p p' -> Inv p'.
Proof.
  intros HI Hstep. destruct Hstep as [p bytes ts|p s]; [|exact HI].
  unfold Inv, world_step; simpl. unfold capture.
  destruct (d_incoming (dev p)) as [|i rest] eqn:Hin; [exact HI|].
  destruct (d_streaming (dev p) && (0 <=? bytes) && (bytes <=? d_buflen (dev p))) eqn:Hb;
    [|exact HI].
  apply andb_true_iff in Hb as [Hb Hb3]. apply andb_true_iff in Hb as [Hb1 Hb2].
  destruct HI as (L1 & L2 & B & D & F & H & (W1 & W2 & W3) & P).
  rewrite Hin in W1. inversion W1; subst.
  unfold inv, pool, dwf; simpl. split_and!; auto; try lia.
  apply Forall_app; split; auto. constructor; auto. simpl. lia.
Qed.

Lemma owns_env p p' : owns p -> env_step p p' -> owns p'.
Proof.
  intros Ho Hstep. destruct Hstep as [p bytes ts|p s]; [|exact Ho].
  unfold owns, world_step in *; simpl. unfold capture.
  destruct (d_incoming (dev p)); [exact Ho|].
  destruct (d_streaming (dev p) && (0 <=? bytes) && (bytes <=? d_buflen (dev p))); exact Ho.
Qed.

Lemma run_spec fuel c p :
  Inv p ->
  wp (run fuel c) (fun _ p' => Inv p' /\ (owns p -> owns p')) (fun _ p' => Inv p') p.
Proof.
  intros HI. destruct c as [opt| |data size timestamp|]; simpl.
  - eapply wp_mono; [apply init_spec, HI| |auto]. intros [] p' (H1 & H2 & _). auto.
  - eapply wp_mono; [apply cleanup_spec, HI| |]; cbv beta.
    + intros [] p' (H1 & _ & H2 & _). auto.
    + intros r p' [H1 _]. exact H1.
  - apply wp_bind. eapply wp_mono; [apply lock_spec, HI| |auto].
    intros f p' (H1 & _ & _ & H2 & _). apply wp_ret. auto.
  - eapply wp_mono; [apply unlock_spec, HI| |]; cbv beta.
    + intros [] p' (H1 & _ & H2 & _). auto.
    + intros r p' [H1 _]. exact H1.
Qed.

Lemma attainable_Inv p : attainable p -> Inv p.
Proof.
  induction 1 as [d s Hf|p fuel c p' _ IH Hrun|p fuel c r p' _ IH Hrun|p p' _ IH Hstep].
  - apply Inv_boot, Hf.
  - apply (wp_elim_ret _ _ _ _ _ _ (run_spec fuel c p IH) Hrun).
  - apply (wp_elim_stop _ _ _ _ _ _ (run_spec fuel c p IH) Hrun).
  - eapply Inv_env; eauto.
Qed.

Lemma reachable_attainable p : reachable p -> attainable p.
Proof.
  induction 1; [apply att_boot | eapply att_ret | eapply att_env]; eauto.
Qed.

Lemma reachable_owns p : reachable p -> owns p.
Proof.
  induction 1 as [d s Hf|p fuel c p' Hr IH Hrun|p p' _ IH Hstep].
  - destruct Hf as (_ & _ & _ & _ & _ & Hu & _). unfold owns, held; simpl. exact Hu.
  - pose proof (attainable_Inv _ (reachable_attainable _ Hr)) as HI.
    apply (wp_elim_ret _ _ _ _ _ _ (run_spec fuel c p HI) Hrun). exact IH.
  - eapply owns_env; eauto.
Qed.

(** *** Runs on a device that reports no failure *)

Lemma ioctl_healthy fuel req arg p a d :
  script p = [] -> truthy (usbcam_has_fd (cam p)) = true ->
  has_handle (dev p) (usbcam_fd (cam p)) = true ->
  drv_ioctl (dev p) req arg = Done a d ->
  usbcam_ioctl (S fuel) req arg p = Ret a (set_dev (log (SysIoctl req a) d) p).
Proof.
  intros Hs Hfd Hh Hdrv.
  unfold usbcam_ioctl, bind, load, usbcam_assert. rewrite Hfd. simpl.
  unfold bind, load, v4l2_ioctl, next_fault. rewrite Hs, Hh, Hdrv. reflexivity.
Qed.

Lemma ioctl_buffer_healthy fuel req buf p b d :
  script p = [] -> truthy (usbcam_has_fd (cam p)) = true ->
  has_handle (dev p) (usbcam_fd (cam p)) = true ->
  drv_ioctl (dev p) req (ArgBuffer buf) = Done (ArgBuffer b) d ->
  ioctl_buffer (S fuel) req buf p = Ret b (set_dev (log (SysIoctl req (ArgBuffer b)) d) p).
Proof.
  intros Hs Hfd Hh Hdrv. unfold ioctl_buffer.
  rewrite (bind_ret _ _ _ _ _ (ioctl_healthy fuel _ _ _ _ _ Hs Hfd Hh Hdrv)). reflexivity.
Qed.

Lemma select_healthy fd p :
  script p = [] -> has_handle (dev p) fd = true ->
  select (fd + 1) fd p = Ret (match d_done (dev p) with [] => 0 | _ :: _ => 1 end) p.
Proof.
  intros Hs Hh. unfold select, next_fault. rewrite Hs, Hh.
  replace (fd <? fd + 1) with true by (symmetry; apply Z.ltb_lt; lia).
  destruct (d_done (dev p)); reflexivity.
Qed.

Lemma drain_idle fuel n buf q :
  script q = [] -> has_handle (dev q) (usbcam_fd (cam q)) = true ->
  d_done (dev q) = [] ->
  drain fuel (S n) buf q = Ret buf q.
Proof.
  intros Hs Hh Hd. simpl. unfold bind at 1, load.
  rewrite (bind_ret _ _ _ _ _ (select_healthy _ _ Hs Hh)). rewrite Hd. reflexivity.
Qed.

Lemma drain_handover fuel n buf q y rest :
  script q = [] -> truthy (usbcam_has_fd (cam q)) = true ->
  has_handle (dev q) (usbcam_fd (cam q)) = true ->
  d_streaming (dev q) = true ->
  zmem (b_index buf) (d_user (dev q)) = true ->
  d_done (dev q) = y :: rest ->
  drain (S fuel) (S n) buf q =
  drain (S fuel) n y (set_dev (dequeue y rest (requeue buf (dev q))) q).
Proof.
  intros Hs Hfd Hh Hst Hz Hd. simpl drain. unfold bind at 1, load.
  rewrite (bind_ret _ _ _ _ _ (select_healthy _ _ Hs Hh)). rewrite Hd.
  replace (1 =? 1) with true by reflexivity.
  assert (H1 : drv_ioctl (dev q) VIDIOC_QBUF (ArgBuffer buf) =
               Done (ArgBuffer buf)
                 (set_queues (d_count (dev q)) (d_streaming (dev q))
                    (d_incoming (dev q) ++ [b_index buf]) (d_done (dev q))
                    (zremove (b_index buf) (d_user (dev q))) (dev q))).
  { simpl. rewrite Hz. reflexivity. }
  rewrite (bind_ret _ _ _ _ _ (ioctl_buffer_healthy fuel _ _ _ _ _ Hs Hfd Hh H1)).
  fold (requeue buf (dev q)).
  set (q1 := set_dev (requeue buf (dev q)) q).
  assert (H2 : drv_ioctl (dev q1) VIDIOC_DQBUF (ArgBuffer buf) =
               Done (ArgBuffer y)
                 (set_queues (d_count (dev q1)) true (d_incoming (dev q1)) rest
                    (d_user (dev q1) ++ [b_index y]) (dev q1))).
  { simpl. rewrite Hst, Hd. reflexivity. }
  rewrite (bind_ret _ _ _ _ _ (ioctl_buffer_healthy fuel _ _ q1 _ _ Hs Hfd Hh H2)).
  reflexivity.
Qed.

Lemma drain_latest fuel bs :
  forall b buf q n,
  script q = [] -> truthy (usbcam_has_fd (cam q)) = true ->
  has_handle (dev q) (usbcam_fd (cam q)) = true ->
  d_streaming (dev q) = true ->
  zmem (b_index buf) (d_user (dev q)) = true ->
  d_done (dev q) = (bs ++ [b])%list ->
  (length bs + 2 <= n)%nat ->
  exists q', drain (S fuel) n buf q = Ret b q' /\
    cam q' = cam q /\ script q' = [] /\ errno q' = errno q /\
    d_incoming (dev q') = (d_incoming (dev q) ++ b_index buf :: map b_index bs)%list /\
    d_done (dev q') = [] /\
    d_trace (dev q') =
      (d_trace (dev q) ++ SysIoctl VIDIOC_QBUF (ArgBuffer buf) :: flat_map recycle bs ++
         [SysIoctl VIDIOC_DQBUF (ArgBuffer b)])%list.
Proof.
  induction bs as [|x bs IH]; intros b buf q n Hs Hfd Hh Hst Hz Hd Hn.
  - destruct n as [|[|n]]; simpl in Hn; try lia.
    rewrite (drain_handover fuel _ buf q b [] Hs Hfd Hh Hst Hz Hd).
    rewrite drain_idle by auto.
    eexists; split; [reflexivity|]. simpl. rewrite <- app_assoc. auto 10.
  - destruct n as [|n]; simpl in Hn; try lia.
    rewrite (drain_handover fuel n buf q x (bs ++ [b]) Hs Hfd Hh Hst Hz Hd).
    edestruct (IH b x (set_dev (dequeue x (bs ++ [b]) (requeue buf (dev q))) q) n)
      as (q' & Hr & Hc & Hs' & He & Hi & Hdn & Ht); simpl; auto; try lia.
    { apply zmem_In, in_or_app. right. left. reflexivity. }
    exists q'. split; [exact Hr|]. simpl in *.
    split; [exact Hc|]. split; [exact Hs'|]. split; [exact He|].
    split; [rewrite Hi, <- app_assoc; reflexivity|]. split; [exact Hdn|].
    rewrite Ht. rewrite <- !app_assoc. reflexivity.
Qed.

Lemma lock_prefix_latest fuel p bs b :
  healthy_stream p -> d_done (dev p) = (bs ++ [b])%list -> (length bs < fuel)%nat ->
  exists q, lock_prefix fuel p = Ret b q /\
    cam q = cam p /\
    d_incoming (dev q) = (d_incoming (dev p) ++ map b_index bs)%list /\
    d_done (dev q) = [] /\
    d_trace (dev q) =
      (d_trace (dev p) ++ flat_map recycle bs ++ [SysIoctl VIDIOC_DQBUF (ArgBuffer b)])%list.
Proof.
  intros (Hr & Hs & Hh & Hst) Hd Hfuel.
  unfold lock_ready in Hr.
  apply andb_true_iff in Hr as [Hr H4]. apply andb_true_iff in Hr as [Hr H3].
  apply andb_true_iff in Hr as [H1 H2].
  unfold lock_prefix.
  run_step. rewrite H1.
  run_step. rewrite H2.
  run_step. rewrite H3.
  run_step. rewrite H4.
  cbv beta iota.
  destruct fuel as [|fuel]; [lia|].
  destruct bs as [|x bs]; simpl in Hd.
  - assert (Hq : drv_ioctl (dev p) VIDIOC_DQBUF (ArgBuffer (capture_buffer 0)) =
               Done (ArgBuffer b)
                 (set_queues (d_count (dev p)) true (d_incoming (dev p)) []
                    (d_user (dev p) ++ [b_index b]) (dev p))).
    { simpl. rewrite Hst, Hd. reflexivity. }
    rewrite (ioctl_buffer_healthy fuel _ _ _ _ _ Hs H2 Hh Hq).
    rewrite drain_idle by auto.
    eexists; split; [reflexivity|]. simpl. rewrite app_nil_r. auto.
  - assert (Hq : drv_ioctl (dev p) VIDIOC_DQBUF (ArgBuffer (capture_buffer 0)) =
               Done (ArgBuffer x)
                 (set_queues (d_count (dev p)) true (d_incoming (dev p)) (bs ++ [b])
                    (d_user (dev p) ++ [b_index x]) (dev p))).
    { simpl. rewrite Hst, Hd. reflexivity. }
    rewrite (ioctl_buffer_healthy fuel _ _ _ _ _ Hs H2 Hh Hq).
    match goal with |- context [drain _ _ x ?s] => set (q1 := s) end.
    destruct (drain_latest fuel bs b x q1 (S fuel))
      as (q' & Hr & Hc & Hs' & He & Hi & Hdn & Ht); simpl; auto.
    { apply zmem_In, in_or_app. right. left. reflexivity. }
    { simpl in Hfuel. lia. }
    exists q'. split; [exact Hr|]. simpl in *.
    split; [exact Hc|]. split; [exact Hi|]. split; [exact Hdn|].
    rewrite Ht, <- !app_assoc. reflexivity.
Qed.

Lemma lock_output_ok data size timestamp buf q a :
  data <> NULL -> size <> NULL -> timestamp <> NULL ->
  0 <= b_index buf ->
  usbcam_buffer_start (cam q) !! Z.to_nat (b_index buf) = Some a ->
  lock_output data size timestamp buf q =
  Ret {| f_data := a; f_size := b_bytesused buf; f_timestamp := b_timestamp buf |}
      (set_cam (set_has_dqbuf 1 (set_dqbuf buf (cam q))) q).
Proof.
  intros Hd Hs Ht Hi Ha. unfold lock_output.
  apply Z.eqb_neq in Hd, Hs, Ht.
  cbv beta iota delta [bind deref ret stop]. rewrite Ht.
  cbv beta iota delta [bind deref ret stop array_get].
  replace (b_index buf <? 0) with false by (symmetry; apply Z.ltb_ge; lia).
  rewrite Ha, Hd. cbv beta iota. rewrite Hs. reflexivity.
Qed.

(** ** The properties *)

Lemma reachable_demo_ready : reachable demo_ready.
Proof.
  apply (reach_call (boot camera0 []) 1%nat (Init opt0)).
  - apply reach_boot. repeat split.
  - vm_compute. reflexivity.
Qed.

Lemma reachable_demo_filled : reachable demo_filled.
Proof.
  unfold demo_filled.
  do 3 (eapply reach_env; [|apply env_capture]). apply reachable_demo_ready.
Qed.

Lemma reachable_demo_locked : reachable demo_locked.
Proof.
  apply (reach_call demo_filled 4%nat (Lock 1000 1008 1016)).
  - apply reachable_demo_filled.
  - vm_compute. reflexivity.
Qed.

(** C1. Drain-to-latest.  On a streaming session whose device reports no
    failure, if [N = length bs + 1] buffers [bs ++ [b]] are filled and
    waiting when [usbcam_lock] is called, the call returns, and what it
    stores through its out-parameters is the mapped address, the used
    length and the timestamp of [b], the most recently completed one; [b] is
    the buffer recorded as locked.  Each of the first [N - 1] buffers was
    dequeued and at once queued again (they are back in the driver's
    incoming queue, in order), and nothing of them reaches the caller. *)
Theorem drain_to_latest fuel data size timestamp p bs b a :
  healthy_stream p ->
  d_done (dev p) = (bs ++ [b])%list ->
  (length bs < fuel)%nat ->
  data <> NULL -> size <> NULL -> timestamp <> NULL ->
  0 <= b_index b ->
  usbcam_buffer_start (cam p) !! Z.to_nat (b_index b) = Some a ->
  exists p',
    usbcam_lock fuel data size timestamp p =
      Ret {| f_data := a; f_size := b_bytesused b; f_timestamp := b_timestamp b |} p' /\
    usbcam_dqbuf (cam p') = b /\ usbcam_has_dqbuf (cam p') = 1 /\
    d_incoming (dev p') = (d_incoming (dev p) ++ map b_index bs)%list /\
    d_done (dev p') = [] /\
    d_trace (dev p') =
      (d_trace (dev p) ++ flat_map recycle bs ++
         [SysIoctl VIDIOC_DQBUF (ArgBuffer b)])%list.
Proof.
  intros Hh Hd Hfuel Hdata Hsize Hts Hi Ha.
  destruct (lock_prefix_latest fuel p bs b Hh Hd Hfuel) as (q & Hq & Hc & Hin & Hdn & Ht).
  rewrite lock_split, (bind_ret _ _ _ _ _ Hq).
  rewrite <- Hc in Ha.
  rewrite (lock_output_ok data size timestamp b q a Hdata Hsize Hts Hi Ha).
  eexists; split; [reflexivity|]. simpl. auto 10.
Qed.

Lemma drain_to_latest_witness :
  exists p',
    usbcam_lock 3 1000 1008 1016 demo_filled =
      Ret {| f_data := 1232896; f_size := 300; f_timestamp := ts0 3 |} p' /\
    usbcam_dqbuf (cam p') = filled 2 300 (ts0 3) 614400 /\
    usbcam_has_dqbuf (cam p') = 1 /\
    d_incoming (dev p') = [0; 1] /\
    d_done (dev p') = [] /\
    d_trace (dev p') =
      (d_trace (dev demo_filled) ++
         flat_map recycle [filled 0 100 (ts0 1) 614400; filled 1 200 (ts0 2) 614400] ++
         [SysIoctl VIDIOC_DQBUF (ArgBuffer (filled 2 300 (ts0 3) 614400))])%list.
Proof.
  apply (drain_to_latest 3 1000 1008 1016 demo_filled
           [filled 0 100 (ts0 1) 614400; filled 1 200 (ts0 2) 614400]
           (filled 2 300 (ts0 3) 614400) 1232896).
  - repeat split; vm_compute; reflexivity.
  - vm_compute; reflexivity.
  - simpl; lia.
  - unfold NULL; lia.
  - unfold NULL; lia.
  - unfold NULL; lia.
  - simpl; lia.
  - vm_compute; reflexivity.
Defined.

(** C2. Every frame a successful [usbcam_lock] hands out lies in the pool:
    its address is the recorded base of a live mapping for some slot below
    [usbcam_buffers], and its size does not exceed the length recorded for
    that slot. *)
Theorem lock_within_pool fuel data size timestamp p f p' :
  attainable p ->
  usbcam_lock fuel data size timestamp p = Ret f p' ->
  in_pool f p'.
Proof.
  intros Ha Hl. pose proof (attainable_Inv p Ha) as HI.
  apply (wp_elim_ret _ _ _ _ _ _ (lock_spec fuel data size timestamp p HI) Hl).
Qed.

Lemma lock_within_pool_witness :
  in_pool {| f_data := 1232896; f_size := 300; f_timestamp := ts0 3 |} demo_locked.
Proof.
  apply (lock_within_pool 4 1000 1008 1016 demo_filled).
  - apply reachable_attainable, reachable_demo_filled.
  - vm_compute; reflexivity.
Defined.

(** The poll of the drain loop fails: the loop ends and the buffer in hand
    is returned as though nothing more were pending. *)
Lemma drain_poll_error fuel n buf q e rest :
  script q = Some e :: rest ->
  drain fuel (S n) buf q = Ret buf (set_errno e (set_script rest q)).
Proof.
  intros Hs. simpl. unfold bind at 1, load. unfold bind, select, next_fault.
  rewrite Hs. reflexivity.
Qed.

(** C3. With three buffers filled and the poll after the first dequeue
    failing with [EIO], [usbcam_lock] does not stop: it returns the oldest
    buffer as a normal result and records it as locked, leaving the two
    newer ones undrained. *)
Theorem poll_error_returns_stale_frame :
  exists p',
    usbcam_lock 4 1000 1008 1016 demo_poll_error =
      Ret {| f_data := 4096; f_size := 100; f_timestamp := ts0 1 |} p' /\
    errno p' = EIO /\
    usbcam_has_dqbuf (cam p') = 1 /\
    d_done (dev p') = [filled 1 200 (ts0 2) 614400; filled 2 300 (ts0 3) 614400].
Proof.
  eexists. split; [vm_compute; reflexivity|]. repeat split.
Qed.

Lemma cleanup_quiescent fuel p : quiescent p -> usbcam_cleanup fuel p = Ret tt p.
Proof.
  intros (H1 & H2 & H3 & H4).
  unfold usbcam_cleanup.
  cbv beta iota delta [bind load ret]. rewrite H4.
  cbv beta iota delta [bind load ret truthy Z.eqb negb]. rewrite H2.
  cbv beta iota delta [bind load ret truthy Z.eqb negb]. rewrite H3.
  cbv beta iota delta [bind load ret truthy Z.eqb negb]. rewrite H1.
  reflexivity.
Qed.

Lemma repeat_cleanup_quiescent fuel n p :
  quiescent p -> repeat_call n (usbcam_cleanup fuel) p = Ret tt p.
Proof.
  intros Hq. induction n as [|n IH]; simpl; [reflexivity|].
  rewrite (bind_ret _ _ _ _ _ (cleanup_quiescent fuel p Hq)). exact IH.
Qed.

Lemma quiescent_observable p : quiescent p -> observable p = quiet_flags.
Proof. intros (H1 & H2 & H3 & H4). unfold observable. rewrite H1, H2, H3, H4. reflexivity. Qed.

Lemma benign_no_fatal s e : benign s -> In (Some e) s -> transient (Some e) = false -> False.
Proof.
  unfold benign. rewrite forallb_forall. intros Hb Hin Hnt.
  rewrite (Hb _ Hin) in Hnt. discriminate.
Qed.

(** With enough fuel, [usbcam_cleanup] returns quiescent or exits on a
    device error that is not retried. *)
Lemma cleanup_outcome fuel p :
  attainable p -> (length (script p) < fuel)%nat ->
  match usbcam_cleanup fuel p with
  | Ret _ p' => quiescent p'
  | Stop r _ => exists e, r = RequestFailed e /\ In (Some e) (script p) /\
                          transient (Some e) = false
  end.
Proof.
  intros Ha Hfuel. pose proof (cleanup_spec fuel p (attainable_Inv p Ha)) as Hwp.
  unfold wp in Hwp.
  destruct (usbcam_cleanup fuel p) as [[] p'|r p'].
  - destruct Hwp as (_ & Hc & _). apply (quiescent_cleared _ _ Hc).
  - destruct Hwp as [_ Hdf]. destruct (Hdf Hfuel) as (e & -> & Hin & Hnt). eauto.
Qed.

Lemma cleanup_returns fuel p :
  attainable p -> (length (script p) < fuel)%nat -> benign (script p) ->
  exists p', usbcam_cleanup fuel p = Ret tt p' /\ quiescent p'.
Proof.
  intros Ha Hfuel Hb. pose proof (cleanup_outcome fuel p Ha Hfuel) as Ho.
  destruct (usbcam_cleanup fuel p) as [[] p'|r p']; [eauto|].
  destruct Ho as (e & _ & Hin & Hnt). destruct (benign_no_fatal _ _ Hb Hin Hnt).
Qed.

(** The claim as the spec has it fails: with a frame locked and the device
    gone, [usbcam_cleanup] terminates the process in the requeue request,
    whatever the fuel. *)
Lemma cleanup_exits_when_unplugged :
  attainable demo_unplugged /\
  usbcam_cleanup 1 demo_unplugged =
    Stop (RequestFailed ENODEV) (set_errno ENODEV demo_locked) /\
  forall fuel p', usbcam_cleanup fuel demo_unplugged <> Ret tt p'.
Proof.
  split; [|split].
  - eapply att_env; [apply reachable_attainable, reachable_demo_locked | apply env_script].
  - vm_compute. reflexivity.
  - intros [|fuel] p'; vm_compute; discriminate.
Qed.

(** C4 (amended).  From every state a session can be in (before init, after
    init, after an init that stopped part-way, with a frame locked) and with
    enough fuel for the scheduled failures, [usbcam_cleanup] never stops on
    a failed assertion: either it returns with all four flags 0, or it is
    the exit of [usbcam_ioctl] on an error that the device reported and that
    is not retried.  In particular it returns whenever every failure the
    device reports is [EINTR] or [EAGAIN]. *)
Theorem cleanup_fails_only_on_device_error fuel p :
  attainable p -> (length (script p) < fuel)%nat ->
  match usbcam_cleanup fuel p with
  | Ret _ p' => quiescent p'
  | Stop r _ => exists e, r = RequestFailed e /\ In (Some e) (script p) /\
                          transient (Some e) = false
  end /\
  (benign (script p) -> exists p', usbcam_cleanup fuel p = Ret tt p' /\ quiescent p').
Proof.
  intros Ha Hfuel. split.
  - apply cleanup_outcome; auto.
  - apply cleanup_returns; auto.
Qed.

Lemma cleanup_fails_only_on_device_error_witness :
  match usbcam_cleanup 1 demo_locked with
  | Ret _ p' => quiescent p'
  | Stop r _ => exists e, r = RequestFailed e /\ In (Some e) (script demo_locked) /\
                          transient (Some e) = false
  end /\
  (benign (script demo_locked) ->
   exists p', usbcam_cleanup 1 demo_locked = Ret tt p' /\ quiescent p').
Proof.
  apply (cleanup_fails_only_on_device_error 1 demo_locked).
  - apply reachable_attainable, reachable_demo_locked.
  - vm_compute; lia.
Defined.

(** C5. Teardown is idempotent and order-safe.  From every state a session
    can be in, a [usbcam_cleanup] that returns leaves all four flags 0, the
    observable state of a session that was never initialised, and from there
    any number of further calls return without changing anything at all.  It
    does return whenever the device reports no failure other than [EINTR] or
    [EAGAIN].  In particular [usbcam_init] followed at once by
    [usbcam_cleanup] ends in that state, with the device handle closed and
    nothing left queued. *)
Theorem teardown_idempotent fuel p :
  attainable p ->
  (forall p1, usbcam_cleanup fuel p = Ret tt p1 ->
     quiescent p1 /\ observable p1 = quiet_flags /\
     forall fuel' n, repeat_call n (usbcam_cleanup fuel') p1 = Ret tt p1) /\
  (benign (script p) -> (length (script p) < fuel)%nat ->
     exists p1, usbcam_cleanup fuel p = Ret tt p1) /\
  (forall opt p1 fuel' p2,
     usbcam_init fuel opt p = Ret tt p1 -> usbcam_cleanup fuel' p1 = Ret tt p2 ->
     observable p2 = quiet_flags /\ released (dev p2) /\ quiescent p2).
Proof.
  intros Ha. pose proof (attainable_Inv p Ha) as HI.
  split; [|split].
  - intros p1 Hc.
    destruct (wp_elim_ret _ _ _ _ _ _ (cleanup_spec fuel p HI) Hc) as (_ & Hcam & _).
    pose proof (quiescent_cleared _ _ Hcam) as Hq.
    split; [exact Hq|]. split; [apply quiescent_observable, Hq|].
    intros fuel' n. apply repeat_cleanup_quiescent, Hq.
  - intros Hb Hfuel.
    destruct (cleanup_returns fuel p Ha Hfuel Hb) as (p1 & H1 & _).
    eauto.
  - intros opt p1 fuel' p2 Hi Hc.
    destruct (wp_elim_ret _ _ _ _ _ _ (init_spec fuel opt p HI) Hi)
      as (HI1 & _ & Hfd & _).
    destruct (wp_elim_ret _ _ _ _ _ _ (cleanup_spec fuel' p1 HI1) Hc)
      as (_ & Hcam & _ & _ & _ & Hrel).
    pose proof (quiescent_cleared _ _ Hcam) as Hq.
    split; [apply quiescent_observable, Hq|]. split; [apply Hrel, Hfd | exact Hq].
Qed.

Lemma teardown_idempotent_witness :
  (forall p1, usbcam_cleanup 1 demo_locked = Ret tt p1 ->
     quiescent p1 /\ observable p1 = quiet_flags /\
     forall fuel' n, repeat_call n (usbcam_cleanup fuel') p1 = Ret tt p1) /\
  (benign (script demo_locked) -> (length (script demo_locked) < 1)%nat ->
     exists p1, usbcam_cleanup 1 demo_locked = Ret tt p1) /\
  (forall opt p1 fuel' p2,
     usbcam_init 1 opt demo_locked = Ret tt p1 -> usbcam_cleanup fuel' p1 = Ret tt p2 ->
     observable p2 = quiet_flags /\ released (dev p2) /\ quiescent p2).
Proof.
  apply (teardown_idempotent 1 demo_locked).
  apply reachable_attainable, reachable_demo_locked.
Defined.

(** The claim as the spec has it fails: in a run of init, lock and cleanup
    the resources are taken in the order device, mapping, stream, frame and
    given back in the order frame, mapping, stream, device, which is not the
    reverse: the pool is unmapped while the stream is still on. *)
Lemma cleanup_order_not_reversed :
  order_of acquires [] (d_trace (dev demo_locked)) = [Device; Mapping; Stream; Frame] /\
  order_of releases [] (cleanup_trace (cam demo_locked)) = [Frame; Mapping; Stream; Device] /\
  d_trace (dev (after (usbcam_cleanup 1 demo_locked))) =
    (d_trace (dev demo_locked) ++ cleanup_trace (cam demo_locked))%list /\
  order_of releases [] (cleanup_trace (cam demo_locked)) <>
    rev (order_of acquires [] (d_trace (dev demo_locked))).
Proof.
  split; [vm_compute; reflexivity|]. split; [vm_compute; reflexivity|].
  split; [vm_compute; reflexivity|]. vm_compute; discriminate.
Qed.

(** C6 (amended).  [usbcam_cleanup] makes, in this order, the requeue of the
    locked buffer, the unmapping of every pool slot, the stream-off and the
    close, each if and only if its flag is set on entry, and when it returns
    every flag is 0.  (The pool is unmapped before the stream is turned off,
    so the order is not the exact reverse of the order of acquisition.) *)
Theorem cleanup_steps_in_order fuel p p' :
  attainable p ->
  usbcam_cleanup fuel p = Ret tt p' ->
  d_trace (dev p') =
    (d_trace (dev p) ++
     (if truthy (usbcam_has_dqbuf (cam p))
      then [SysIoctl VIDIOC_QBUF (ArgBuffer (usbcam_dqbuf (cam p)))] else []) ++
     (if truthy (usbcam_has_mmap (cam p))
      then map (fun r => SysMunmap (fst r) (snd r)) (pool_regions (cam p)) else []) ++
     (if truthy (usbcam_has_stream (cam p))
      then [SysIoctl VIDIOC_STREAMOFF (ArgType V4L2_BUF_TYPE_VIDEO_CAPTURE)] else []) ++
     (if truthy (usbcam_has_fd (cam p))
      then [SysClose (usbcam_fd (cam p))] else []))%list /\
  quiescent p'.
Proof.
  intros Ha Hc.
  destruct (wp_elim_ret _ _ _ _ _ _ (cleanup_spec fuel p (attainable_Inv p Ha)) Hc)
    as (_ & Hcam & _ & _ & Ht & _).
  split; [exact Ht | apply (quiescent_cleared _ _ Hcam)].
Qed.

Lemma cleanup_steps_in_order_witness :
  d_trace (dev (after (usbcam_cleanup 1 demo_locked))) =
    (d_trace (dev demo_locked) ++
     (if truthy (usbcam_has_dqbuf (cam demo_locked))
      then [SysIoctl VIDIOC_QBUF (ArgBuffer (usbcam_dqbuf (cam demo_locked)))] else []) ++
     (if truthy (usbcam_has_mmap (cam demo_locked))
      then map (fun r => SysMunmap (fst r) (snd r)) (pool_regions (cam demo_locked))
      else []) ++
     (if truthy (usbcam_has_stream (cam demo_locked))
      then [SysIoctl VIDIOC_STREAMOFF (ArgType V4L2_BUF_TYPE_VIDEO_CAPTURE)] else []) ++
     (if truthy (usbcam_has_fd (cam demo_locked))
      then [SysClose (usbcam_fd (cam demo_locked))] else []))%list /\
  quiescent (after (usbcam_cleanup 1 demo_locked)).
Proof.
  apply (cleanup_steps_in_order 1 demo_locked).
  - apply reachable_attainable, reachable_demo_locked.
  - vm_compute; reflexivity.
Defined.

Lemma lock_ret_locked fuel data size timestamp p f p' :
  usbcam_lock fuel data size timestamp p = Ret f p' -> usbcam_has_dqbuf (cam p') = 1.
Proof.
  rewrite lock_split. unfold bind.
  destruct (lock_prefix fuel p) as [buf q|]; [|discriminate].
  unfold lock_output, bind, deref, array_get.
  destruct (timestamp =? NULL); [discriminate|]. simpl.
  destruct (b_index buf <? 0); [discriminate|].
  destruct (usbcam_buffer_start (cam q) !! Z.to_nat (b_index buf)); [|discriminate].
  destruct (data =? NULL); [discriminate|]. simpl.
  destruct (size =? NULL); [discriminate|]. simpl.
  intros H; inversion H; subst. reflexivity.
Qed.

(** C7. [usbcam_lock] with any of its four preconditions false stops on the
    failed assertion in the very state it was called in: no request has
    been issued and nothing has been dequeued.  A second [usbcam_lock]
    after one that returned is such a call: it stops on the assertion of
    line 229 and leaves the first frame locked. *)
Theorem lock_preconditions fuel data size timestamp p :
  (lock_ready (cam p) = false ->
     exists line msg,
       usbcam_lock fuel data size timestamp p = Stop (AssertFail line msg) p) /\
  (truthy (usbcam_has_dqbuf (cam p)) = true ->
     usbcam_lock fuel data size timestamp p =
       Stop (AssertFail 229 "You forgot to unlock the previous frame") p) /\
  (forall fuel0 data0 size0 timestamp0 p0 f,
     usbcam_lock fuel0 data0 size0 timestamp0 p0 = Ret f p ->
     usbcam_lock fuel data size timestamp p =
       Stop (AssertFail 229 "You forgot to unlock the previous frame") p).
Proof.
  split; [|split].
  - apply lock_not_ready.
  - apply lock_double.
  - intros fuel0 data0 size0 timestamp0 p0 f Hl.
    apply lock_double. rewrite (lock_ret_locked _ _ _ _ _ _ _ Hl). reflexivity.
Qed.

Lemma lock_preconditions_witness :
  (exists line msg,
     usbcam_lock 4 1000 1008 1016 (boot camera0 []) =
       Stop (AssertFail line msg) (boot camera0 [])) /\
  usbcam_lock 4 1000 1008 1016 demo_locked =
    Stop (AssertFail 229 "You forgot to unlock the previous frame") demo_locked.
Proof.
  destruct (lock_preconditions 4 1000 1008 1016 (boot camera0 [])) as (H1 & _).
  destruct (lock_preconditions 4 1000 1008 1016 demo_locked) as (_ & H2 & _).
  split; [apply H1 | apply H2]; vm_compute; reflexivity.
Defined.

Lemma unlock_idle fuel p :
  truthy (usbcam_has_dqbuf (cam p)) = false -> usbcam_unlock fuel p = Ret tt p.
Proof.
  intros H. unfold usbcam_unlock, bind, load. rewrite H. reflexivity.
Qed.

(** C8. [usbcam_unlock] with no frame locked returns and leaves the whole
    process state as it was (flags, descriptor, buffer table, device); so
    does any number of consecutive calls, and a [usbcam_lock] that follows
    behaves exactly as it would have without them. *)
Theorem unlock_noop fuel p :
  truthy (usbcam_has_dqbuf (cam p)) = false ->
  usbcam_unlock fuel p = Ret tt p /\
  (forall n, repeat_call n (usbcam_unlock fuel) p = Ret tt p) /\
  (forall n fuel' data size timestamp,
     (repeat_call n (usbcam_unlock fuel) ;;; usbcam_lock fuel' data size timestamp) p =
     usbcam_lock fuel' data size timestamp p).
Proof.
  intros H.
  assert (Hn : forall n, repeat_call n (usbcam_unlock fuel) p = Ret tt p).
  { induction n as [|n IH]; simpl; [reflexivity|].
    rewrite (bind_ret _ _ _ _ _ (unlock_idle fuel p H)). exact IH. }
  split; [apply unlock_idle, H|]. split; [exact Hn|].
  intros n fuel' data size timestamp. rewrite (bind_ret _ _ _ _ _ (Hn n)). reflexivity.
Qed.

Lemma unlock_noop_witness :
  usbcam_unlock 1 demo_filled = Ret tt demo_filled /\
  (forall n, repeat_call n (usbcam_unlock 1) demo_filled = Ret tt demo_filled) /\
  (forall n fuel' data size timestamp,
     (repeat_call n (usbcam_unlock 1) ;;; usbcam_lock fuel' data size timestamp) demo_filled =
     usbcam_lock fuel' data size timestamp demo_filled).
Proof.
  apply (unlock_noop 1 demo_filled). vm_compute; reflexivity.
Defined.

Lemma held_at_most_one c : (length (held c) <= 1)%nat.
Proof. unfold held. destruct (truthy (usbcam_has_dqbuf c)); simpl; lia. Qed.

(** C9. Single outstanding lock.  In every state reached by calls that
    returned, the buffers the driver has handed to the application are
    exactly the one the session records as locked, or none: never two.  A
    [usbcam_lock] that returns goes from none to one; [usbcam_unlock] and
    [usbcam_cleanup] go back to none. *)
Theorem single_outstanding_lock p :
  reachable p ->
  d_user (dev p) = held (cam p) /\ (length (d_user (dev p)) <= 1)%nat /\
  (forall fuel data size timestamp f p',
     usbcam_lock fuel data size timestamp p = Ret f p' ->
     d_user (dev p) = [] /\ d_user (dev p') = [b_index (usbcam_dqbuf (cam p'))]) /\
  (forall fuel p', usbcam_unlock fuel p = Ret tt p' -> d_user (dev p') = []) /\
  (forall fuel p', usbcam_cleanup fuel p = Ret tt p' -> d_user (dev p') = []).
Proof.
  intros Hr. pose proof (reachable_owns p Hr) as Ho.
  pose proof (attainable_Inv p (reachable_attainable p Hr)) as HI.
  split; [exact Ho|]. split; [rewrite Ho; apply held_at_most_one|].
  split; [|split].
  - intros fuel data size timestamp f p' Hl.
    destruct (wp_elim_ret _ _ _ _ _ _ (lock_spec fuel data size timestamp p HI) Hl)
      as (_ & H0 & H1 & Ho' & _).
    split.
    + rewrite Ho. unfold held. rewrite H0. reflexivity.
    + rewrite (Ho' Ho). unfold held. rewrite H1. reflexivity.
  - intros fuel p' Hu.
    destruct (wp_elim_ret _ _ _ _ _ _ (unlock_spec fuel p HI) Hu)
      as (_ & _ & _ & _ & _ & _ & Hnone).
    exact (Hnone Ho).
  - intros fuel p' Hc.
    destruct (wp_elim_ret _ _ _ _ _ _ (cleanup_spec fuel p HI) Hc)
      as (_ & Hcam & Ho' & _).
    rewrite (Ho' Ho). unfold held. rewrite Hcam. reflexivity.
Qed.

Lemma single_outstanding_lock_witness :
  d_user (dev demo_locked) = held (cam demo_locked) /\
  (length (d_user (dev demo_locked)) <= 1)%nat /\
  (forall fuel data size timestamp f p',
     usbcam_lock fuel data size timestamp demo_locked = Ret f p' ->
     d_user (dev demo_locked) = [] /\
     d_user (dev p') = [b_index (usbcam_dqbuf (cam p'))]) /\
  (forall fuel p', usbcam_unlock fuel demo_locked = Ret tt p' -> d_user (dev p') = []) /\
  (forall fuel p', usbcam_cleanup fuel demo_locked = Ret tt p' -> d_user (dev p') = []).
Proof.
  apply (single_outstanding_lock demo_locked). apply reachable_demo_locked.
Defined.

Lemma drain_cam fuel n : forall buf p,
  wp (drain fuel n buf) (fun _ q => cam q = cam p) (fun _ q => cam q = cam p) p.
Proof.
  induction n as [|n IH]; intros buf p.
  - apply wp_stop. reflexivity.
  - simpl. apply wp_bind, wp_load, wp_bind, wp_select.
    intros r p1 [Hc1 _]. destruct (r =? 1); [|apply wp_ret, Hc1].
    apply wp_bind, wp_ioctl_buffer.
    + intros _. exact Hc1.
    + intros p' r' [Hc' _] _. congruence.
    + intros p2 a d Hc2 _ _ _ _ _. apply wp_bind, wp_ioctl_buffer.
      * intros _. congruence.
      * intros p' r' [Hc' _] _. congruence.
      * intros p3 a' d' Hc3 _ _ _ _ _.
        eapply wp_mono; [apply IH| |]; cbv beta; intros; congruence.
Qed.

Lemma lock_prefix_cam fuel p :
  match lock_prefix fuel p with
  | Ret _ q => cam q = cam p
  | Stop _ q => cam q = cam p
  end.
Proof.
  change (wp (lock_prefix fuel) (fun _ q => cam q = cam p) (fun _ q => cam q = cam p) p).
  unfold lock_prefix.
  apply wp_bind, wp_load, wp_bind, wp_assert; [reflexivity|intros _].
  apply wp_bind, wp_load, wp_bind, wp_assert; [reflexivity|intros _].
  apply wp_bind, wp_load, wp_bind, wp_assert; [reflexivity|intros _].
  apply wp_bind, wp_load, wp_bind, wp_assert; [reflexivity|intros _].
  apply wp_bind, wp_ioctl_buffer.
  - reflexivity.
  - intros p' r [Hc _] _. exact Hc.
  - intros p1 a d Hc1 _ _ _ _ _.
    eapply wp_mono; [apply drain_cam| |]; cbv beta; intros; congruence.
Qed.

(** C10. [usbcam_lock] stores the timestamp through its third parameter
    without testing it.  A call that leaves the parameter at its default
    (null) therefore never returns: where the preconditions hold and a frame
    has been chosen it dereferences the null pointer, before anything is
    stored and with the chosen buffer neither locked nor given back; where
    the call stops earlier it stops as it would with any other pointer.  In
    particular every call that would return with a valid pointer is a null
    dereference without one. *)
Theorem lock_default_timestamp fuel data size p :
  match lock_prefix fuel p with
  | Ret _ q => usbcam_lock_default fuel data size p = Stop NullDeref q
  | Stop r q => usbcam_lock_default fuel data size p = Stop r q
  end /\
  (forall f p', usbcam_lock_default fuel data size p <> Ret f p') /\
  (forall timestamp f p',
     usbcam_lock fuel data size timestamp p = Ret f p' ->
     exists q, usbcam_lock_default fuel data size p = Stop NullDeref q /\
               usbcam_has_dqbuf (cam q) = usbcam_has_dqbuf (cam p)).
Proof.
  assert (H : match lock_prefix fuel p with
              | Ret _ q => usbcam_lock_default fuel data size p = Stop NullDeref q
              | Stop r q => usbcam_lock_default fuel data size p = Stop r q
              end).
  { unfold usbcam_lock_default. rewrite lock_split. unfold bind.
    destruct (lock_prefix fuel p); reflexivity. }
  split; [exact H|]. split.
  - intros f p' Hr. destruct (lock_prefix fuel p); rewrite H in Hr; discriminate.
  - intros timestamp f p' Hl. rewrite lock_split in Hl. unfold bind in Hl.
    pose proof (lock_prefix_cam fuel p) as Hc.
    destruct (lock_prefix fuel p) as [buf q|]; [|discriminate].
    exists q. split; [exact H|]. rewrite Hc. reflexivity.
Qed.

Lemma lock_default_timestamp_witness :
  exists q, usbcam_lock_default 4 1000 1008 demo_filled = Stop NullDeref q /\
            usbcam_has_dqbuf (cam q) = usbcam_has_dqbuf (cam demo_filled).
Proof.
  destruct (lock_default_timestamp 4 1000 1008 demo_filled) as (_ & _ & H).
  apply (H 1016 {| f_data := 1232896; f_size := 300; f_timestamp := ts0 3 |} demo_locked).
  vm_compute; reflexivity.
Defined.

(** ** Further properties

    Properties of the code that the ten claims above leave out: the retry
    loop of [usbcam_ioctl], the successful and the failing runs of
    [usbcam_init], what [usbcam_cleanup] unmaps, how the calls can stop,
    and what a session keeps true of the driver's buffers. *)

(** *** [usbcam_ioctl] *)

Lemma bind_stop_eq {A B} (m : M A) (k : A -> M B) p r p' :
  m p = Stop r p' -> bind m k p = Stop r p'.
Proof. unfold bind; intros ->; reflexivity. Qed.

Lemma next_fault_unhindered p :
  unhindered (script p) -> next_fault p = (None, set_script (tl (script p)) p).
Proof.
  unfold unhindered, next_fault. destruct p as [c e s d]; simpl.
  destruct s as [|[e'|] s]; simpl; intros H; try discriminate; reflexivity.
Qed.

Lemma ioctl_retry_transient req arg a d rest :
  forall ts p fuel,
  script p = (ts ++ rest)%list -> forallb retried_fault ts = true -> unhindered rest ->
  (length ts < fuel)%nat ->
  has_handle (dev p) (usbcam_fd (cam p)) = true ->
  drv_ioctl (dev p) req arg = Done a d ->
  exists e, ioctl_retry fuel req arg p =
              Ret (0, a) (settled p e (tl rest) (log (SysIoctl req a) d)) /\
            (e = errno p \/ In (Some e) ts).
Proof.
  induction ts as [|t ts IH]; intros p fuel Hs Ht Hr Hf Hh Hd;
    (destruct fuel as [|fuel]; [simpl in Hf; lia|]).
  - simpl in Hs. exists (errno p). split; [|auto].
    simpl. unfold bind at 1, load. unfold bind at 1, v4l2_ioctl.
    rewrite next_fault_unhindered by (rewrite Hs; exact Hr).
    cbn [set_script dev cam]. rewrite Hh, Hd. rewrite Hs.
    unfold bind, get_errno. reflexivity.
  - simpl in Hs, Ht. apply andb_true_iff in Ht as [Ht Hts].
    destruct t as [e|]; [|discriminate]. simpl in Ht.
    simpl ioctl_retry. unfold bind at 1, load. unfold bind at 1, v4l2_ioctl, next_fault.
    rewrite Hs. unfold bind at 1, get_errno. cbn [fst snd errno set_errno].
    replace (-1 =? -1) with true by reflexivity. rewrite Ht. cbn [andb].
    destruct (IH (set_errno e (set_script (ts ++ rest) p)) fuel) as (e' & Hr' & He');
      simpl; auto; [simpl in Hf; lia|].
    exists e'. split; [exact Hr'|]. simpl in He'. destruct He' as [->|Hin]; auto.
Qed.

Lemma ioctl_retry_fails req arg e rest :
  forall ts p fuel,
  script p = (ts ++ Some e :: rest)%list -> forallb retried_fault ts = true ->
  retried_fault (Some e) = false ->
  (length ts < fuel)%nat ->
  ioctl_retry fuel req arg p = Ret (-1, arg) (settled p e rest (dev p)).
Proof.
  induction ts as [|t ts IH]; intros p fuel Hs Ht He Hf;
    (destruct fuel as [|fuel]; [simpl in Hf; lia|]).
  - simpl in Hs. simpl. unfold bind at 1, load. unfold bind at 1, v4l2_ioctl, next_fault.
    rewrite Hs. unfold bind, get_errno. cbn [fst snd errno set_errno].
    simpl in He. rewrite He. reflexivity.
  - simpl in Hs, Ht. apply andb_true_iff in Ht as [Ht Hts].
    destruct t as [e0|]; [|discriminate]. simpl in Ht.
    simpl ioctl_retry. unfold bind at 1, load. unfold bind at 1, v4l2_ioctl, next_fault.
    rewrite Hs. unfold bind at 1, get_errno. cbn [fst snd errno set_errno].
    replace (-1 =? -1) with true by reflexivity. rewrite Ht. cbn [andb].
    rewrite (IH (set_errno e0 (set_script (ts ++ Some e :: rest) p)) fuel); simpl; auto.
    simpl in Hf; lia.
Qed.

Lemma ioctl_retry_refused req arg e rest :
  forall ts p fuel,
  script p = (ts ++ rest)%list -> forallb retried_fault ts = true -> unhindered rest ->
  (length ts < fuel)%nat ->
  has_handle (dev p) (usbcam_fd (cam p)) = true ->
  drv_ioctl (dev p) req arg = Fail e ->
  ioctl_retry fuel req arg p = Ret (-1, arg) (settled p e (tl rest) (dev p)).
Proof.
  induction ts as [|t ts IH]; intros p fuel Hs Ht Hr Hf Hh Hd;
    (destruct fuel as [|fuel]; [simpl in Hf; lia|]).
  - simpl in Hs. simpl. unfold bind at 1, load. unfold bind at 1, v4l2_ioctl.
    rewrite next_fault_unhindered by (rewrite Hs; exact Hr).
    cbn [set_script dev cam]. rewrite Hh, Hd. rewrite Hs.
    unfold bind, get_errno. cbn [fst snd errno set_errno].
    rewrite (drv_fail_fatal _ _ _ _ Hd), andb_false_r. reflexivity.
  - simpl in Hs, Ht. apply andb_true_iff in Ht as [Ht Hts].
    destruct t as [e0|]; [|discriminate]. simpl in Ht.
    simpl ioctl_retry. unfold bind at 1, load. unfold bind at 1, v4l2_ioctl, next_fault.
    rewrite Hs. unfold bind at 1, get_errno. cbn [fst snd errno set_errno].
    replace (-1 =? -1) with true by reflexivity. rewrite Ht. cbn [andb].
    rewrite (IH (set_errno e0 (set_script (ts ++ rest) p)) fuel); simpl; auto.
    simpl in Hf; lia.
Qed.

Lemma usbcam_ioctl_open fuel req arg p :
  truthy (usbcam_has_fd (cam p)) = true ->
  usbcam_ioctl fuel req arg p =
  (ra <- ioctl_retry fuel req arg ;;
   if fst ra =? -1 then e <- get_errno ;; stop (RequestFailed e) else ret (snd ra)) p.
Proof.
  intros H. unfold usbcam_ioctl. unfold bind at 1, load. unfold bind at 1, usbcam_assert.
  rewrite H. reflexivity.
Qed.

(** X1. [usbcam_ioctl] hides interrupted requests: when the device answers
    [EINTR] or [EAGAIN] any number of times and then carries the request
    out, the call returns what the driver returned, the device is changed by
    that one request only, the statics are untouched, and [errno] is what it
    was or the error of one of the failed attempts. *)
Theorem ioctl_retries_transient fuel req arg p ts rest a d :
  truthy (usbcam_has_fd (cam p)) = true ->
  has_handle (dev p) (usbcam_fd (cam p)) = true ->
  script p = (ts ++ rest)%list -> forallb retried_fault ts = true -> unhindered rest ->
  (length ts < fuel)%nat ->
  drv_ioctl (dev p) req arg = Done a d ->
  exists e, usbcam_ioctl fuel req arg p =
              Ret a (settled p e (tl rest) (log (SysIoctl req a) d)) /\
            (e = errno p \/ In (Some e) ts).
Proof.
  intros Hfd Hh Hs Ht Hr Hf Hd.
  destruct (ioctl_retry_transient req arg a d rest ts p fuel Hs Ht Hr Hf Hh Hd)
    as (e & He & Hin).
  exists e. split; [|exact Hin].
  rewrite usbcam_ioctl_open, (bind_ret _ _ _ _ _ He) by exact Hfd. reflexivity.
Qed.

Lemma ioctl_retries_transient_witness :
  exists e,
    usbcam_ioctl 3 VIDIOC_QBUF (ArgBuffer (filled 2 300 (ts0 3) 614400))
      (set_script [Some EINTR; Some EAGAIN; None; Some EIO] demo_locked) =
    Ret (ArgBuffer (filled 2 300 (ts0 3) 614400))
      (settled (set_script [Some EINTR; Some EAGAIN; None; Some EIO] demo_locked) e
         [Some EIO]
         (log (SysIoctl VIDIOC_QBUF (ArgBuffer (filled 2 300 (ts0 3) 614400)))
            (set_queues 3 true [0; 1; 2] [] [] (dev demo_locked)))) /\
    (e = errno (set_script [Some EINTR; Some EAGAIN; None; Some EIO] demo_locked) \/
     In (Some e) [Some EINTR; Some EAGAIN]).
Proof.
  apply (ioctl_retries_transient 3 VIDIOC_QBUF (ArgBuffer (filled 2 300 (ts0 3) 614400))
           (set_script [Some EINTR; Some EAGAIN; None; Some EIO] demo_locked)
           [Some EINTR; Some EAGAIN] [None; Some EIO]).
  - vm_compute; reflexivity.
  - vm_compute; reflexivity.
  - reflexivity.
  - reflexivity.
  - reflexivity.
  - simpl; lia.
  - vm_compute; reflexivity.
Defined.

(** X2. [usbcam_ioctl] exits the process on every other failure, after the
    interrupted attempts it retried: on an error the device reports that is
    neither [EINTR] nor [EAGAIN], and on a request the driver refuses.  The
    exit happens with [errno] set to that error and with the statics and
    the device exactly as they were. *)
Theorem ioctl_exits_on_error fuel req arg p ts rest :
  truthy (usbcam_has_fd (cam p)) = true ->
  script p = (ts ++ rest)%list -> forallb retried_fault ts = true ->
  (length ts < fuel)%nat ->
  (forall e rest', rest = Some e :: rest' -> retried_fault (Some e) = false ->
     usbcam_ioctl fuel req arg p = Stop (RequestFailed e) (settled p e rest' (dev p))) /\
  (forall e, unhindered rest -> has_handle (dev p) (usbcam_fd (cam p)) = true ->
     drv_ioctl (dev p) req arg = Fail e ->
     usbcam_ioctl fuel req arg p = Stop (RequestFailed e) (settled p e (tl rest) (dev p))).
Proof.
  intros Hfd Hs Ht Hf. split.
  - intros e rest' -> He.
    rewrite usbcam_ioctl_open by exact Hfd.
    rewrite (bind_ret _ _ _ _ _ (ioctl_retry_fails req arg e rest' ts p fuel Hs Ht He Hf)).
    reflexivity.
  - intros e Hr Hh Hd.
    rewrite usbcam_ioctl_open by exact Hfd.
    rewrite (bind_ret _ _ _ _ _ (ioctl_retry_refused req arg e rest ts p fuel Hs Ht Hr Hf Hh Hd)).
    reflexivity.
Qed.

Lemma ioctl_exits_on_error_witness :
  usbcam_ioctl 2 VIDIOC_STREAMOFF (ArgType V4L2_BUF_TYPE_VIDEO_CAPTURE)
    (set_script [Some EINTR; Some ENODEV] demo_ready) =
  Stop (RequestFailed ENODEV)
    (settled (set_script [Some EINTR; Some ENODEV] demo_ready) ENODEV []
       (dev (set_script [Some EINTR; Some ENODEV] demo_ready))) /\
  usbcam_ioctl 1 VIDIOC_QBUF (ArgBuffer (filled 2 300 (ts0 3) 614400)) demo_ready =
  Stop (RequestFailed EINVAL) (settled demo_ready EINVAL [] (dev demo_ready)).
Proof.
  split.
  - refine (proj1 (ioctl_exits_on_error 2 VIDIOC_STREAMOFF (ArgType V4L2_BUF_TYPE_VIDEO_CAPTURE)
             (set_script [Some EINTR; Some ENODEV] demo_ready)
             [Some EINTR] [Some ENODEV] _ _ _ _) ENODEV [] _ _).
    + vm_compute; reflexivity.
    + reflexivity.
    + reflexivity.
    + simpl; lia.
    + reflexivity.
    + reflexivity.
  - refine (proj2 (ioctl_exits_on_error 1 VIDIOC_QBUF (ArgBuffer (filled 2 300 (ts0 3) 614400))
             demo_ready [] [] _ _ _ _) EINVAL _ _ _).
    + vm_compute; reflexivity.
    + vm_compute; reflexivity.
    + reflexivity.
    + simpl; lia.
    + reflexivity.
    + vm_compute; reflexivity.
    + vm_compute; reflexivity.
Defined.

(** X3. The retry loop of [usbcam_ioctl] has no bound of its own: as long as
    the device keeps answering [EINTR] or [EAGAIN] the request is issued
    again, so no budget of attempts is enough for a device that answers so
    at least that many times. *)
Theorem ioctl_retry_unbounded fuel req arg p ts rest :
  truthy (usbcam_has_fd (cam p)) = true ->
  script p = (ts ++ rest)%list -> forallb retried_fault ts = true ->
  (fuel <= length ts)%nat ->
  exists q, usbcam_ioctl fuel req arg p = Stop OutOfFuel q /\
            cam q = cam p /\ dev q = dev p.
Proof.
  intros Hfd Hs Ht Hf. rewrite usbcam_ioctl_open by exact Hfd.
  assert (H : exists q, ioctl_retry fuel req arg p = Stop OutOfFuel q /\
                        cam q = cam p /\ dev q = dev p).
  { clear Hfd. revert p ts Hs Ht Hf. induction fuel as [|fuel IH]; intros p ts Hs Ht Hf.
    - exists p. auto.
    - destruct ts as [|t ts]; [simpl in Hf; lia|].
      simpl in Hs, Ht. apply andb_true_iff in Ht as [Ht Hts].
      destruct t as [e0|]; [|discriminate]. simpl in Ht.
      simpl ioctl_retry. unfold bind at 1, load. unfold bind at 1, v4l2_ioctl, next_fault.
      rewrite Hs. unfold bind at 1, get_errno. cbn [fst snd errno set_errno].
      replace (-1 =? -1) with true by reflexivity. rewrite Ht. cbn [andb].
      destruct (IH (set_errno e0 (set_script (ts ++ rest) p)) ts) as (q & Hq & Hc & Hd);
        simpl; auto; [simpl in Hf; lia|].
      exists q. auto. }
  destruct H as (q & Hq & Hc & Hd). exists q. rewrite (bind_stop_eq _ _ _ _ _ Hq). auto.
Qed.

Lemma ioctl_retry_unbounded_witness :
  exists q,
    usbcam_ioctl 2 VIDIOC_STREAMOFF (ArgType V4L2_BUF_TYPE_VIDEO_CAPTURE)
      (set_script [Some EAGAIN; Some EINTR; None] demo_ready) = Stop OutOfFuel q /\
    cam q = cam (set_script [Some EAGAIN; Some EINTR; None] demo_ready) /\
    dev q = dev (set_script [Some EAGAIN; Some EINTR; None] demo_ready).
Proof.
  apply (ioctl_retry_unbounded 2 VIDIOC_STREAMOFF (ArgType V4L2_BUF_TYPE_VIDEO_CAPTURE)
           (set_script [Some EAGAIN; Some EINTR; None] demo_ready)
           [Some EAGAIN; Some EINTR] [None]).
  - vm_compute; reflexivity.
  - reflexivity.
  - reflexivity.
  - simpl; lia.
Defined.

Lemma ioctl_quiet fuel req arg p a d :
  unhindered (script p) -> truthy (usbcam_has_fd (cam p)) = true ->
  has_handle (dev p) (usbcam_fd (cam p)) = true ->
  drv_ioctl (dev p) req arg = Done a d ->
  usbcam_ioctl (S fuel) req arg p =
    Ret a (settled p (errno p) (tl (script p)) (log (SysIoctl req a) d)).
Proof.
  intros Hr Hfd Hh Hd.
  destruct (ioctl_retry_transient req arg a d (script p) [] p (S fuel))
    as (e & He & [->|[]]); auto; [simpl; lia|].
  rewrite usbcam_ioctl_open, (bind_ret _ _ _ _ _ He) by exact Hfd. reflexivity.
Qed.

Lemma ioctl_buffer_quiet fuel req buf p b d :
  unhindered (script p) -> truthy (usbcam_has_fd (cam p)) = true ->
  has_handle (dev p) (usbcam_fd (cam p)) = true ->
  drv_ioctl (dev p) req (ArgBuffer buf) = Done (ArgBuffer b) d ->
  ioctl_buffer (S fuel) req buf p =
    Ret b (settled p (errno p) (tl (script p)) (log (SysIoctl req (ArgBuffer b)) d)).
Proof.
  intros Hr Hfd Hh Hd. unfold ioctl_buffer.
  rewrite (bind_ret _ _ _ _ _ (ioctl_quiet fuel _ _ _ _ _ Hr Hfd Hh Hd)). reflexivity.
Qed.

(** *** [usbcam_unlock] *)

(** X4. [usbcam_unlock] with a frame locked, on a device that lets the
    request through, returns; it clears [usbcam_has_dqbuf] and changes
    nothing else of the statics, and the locked buffer leaves the
    application's hands for the back of the driver's incoming queue, with
    the filled queue and the mappings as they were. *)
Theorem unlock_requeues fuel p :
  attainable p -> truthy (usbcam_has_dqbuf (cam p)) = true ->
  unhindered (script p) ->
  exists p',
    usbcam_unlock (S fuel) p = Ret tt p' /\
    cam p' = set_has_dqbuf 0 (cam p) /\
    d_incoming (dev p') = (d_incoming (dev p) ++ [b_index (usbcam_dqbuf (cam p))])%list /\
    d_user (dev p') = zremove (b_index (usbcam_dqbuf (cam p))) (d_user (dev p)) /\
    d_done (dev p') = d_done (dev p) /\
    d_maps (dev p') = d_maps (dev p) /\
    script p' = tl (script p).
Proof.
  intros Ha Hdq Hr. pose proof (attainable_Inv p Ha) as HI.
  destruct HI as (_ & _ & _ & D & F & H & _).
  destruct (D Hdq) as (Hm & Hs & Hz).
  assert (Hfd : truthy (usbcam_has_fd (cam p)) = true) by (apply F; auto).
  assert (Hq : drv_ioctl (dev p) VIDIOC_QBUF (ArgBuffer (usbcam_dqbuf (cam p))) =
               Done (ArgBuffer (usbcam_dqbuf (cam p)))
                 (set_queues (d_count (dev p)) (d_streaming (dev p))
                    (d_incoming (dev p) ++ [b_index (usbcam_dqbuf (cam p))]) (d_done (dev p))
                    (zremove (b_index (usbcam_dqbuf (cam p))) (d_user (dev p))) (dev p))).
  { simpl. rewrite Hz. reflexivity. }
  unfold usbcam_unlock. unfold bind at 1, load. rewrite Hdq.
  unfold bind at 1, load.
  rewrite (bind_ret _ _ _ _ _ (ioctl_buffer_quiet fuel _ _ _ _ _ Hr Hfd (H Hfd) Hq)).
  eexists. split; [reflexivity|]. simpl.
  split; [destruct (cam p); reflexivity|]. auto 10.
Qed.

Lemma unlock_requeues_witness :
  exists p',
    usbcam_unlock 1 demo_locked = Ret tt p' /\
    cam p' = set_has_dqbuf 0 (cam demo_locked) /\
    d_incoming (dev p') =
      (d_incoming (dev demo_locked) ++ [b_index (usbcam_dqbuf (cam demo_locked))])%list /\
    d_user (dev p') =
      zremove (b_index (usbcam_dqbuf (cam demo_locked))) (d_user (dev demo_locked)) /\
    d_done (dev p') = d_done (dev demo_locked) /\
    d_maps (dev p') = d_maps (dev demo_locked) /\
    script p' = tl (script demo_locked).
Proof.
  apply (unlock_requeues 0 demo_locked).
  - apply reachable_attainable, reachable_demo_locked.
  - vm_compute; reflexivity.
  - vm_compute; reflexivity.
Defined.

(** *** [usbcam_lock] *)

Lemma lock_prefix_ready fuel p buf q :
  lock_prefix fuel p = Ret buf q -> lock_ready (cam p) = true.
Proof.
  unfold lock_prefix, lock_ready, bind, load, usbcam_assert.
  destruct (negb (truthy (usbcam_has_dqbuf (cam p)))); simpl; [|discriminate].
  destruct (truthy (usbcam_has_fd (cam p))); simpl; [|discriminate].
  destruct (truthy (usbcam_has_mmap (cam p))); simpl; [|discriminate].
  destruct (truthy (usbcam_has_stream (cam p))); simpl; [|discriminate].
  reflexivity.
Qed.



Lemma ioctl_retry_sleeps fuel req arg p :
  unhindered (script p) -> has_handle (dev p) (usbcam_fd (cam p)) = true ->
  drv_ioctl (dev p) req arg = Sleep ->
  ioctl_retry (S fuel) req arg p = Stop Blocked (set_script (tl (script p)) p).
Proof.
  intros Hr Hh Hd. simpl. unfold bind at 1, load. unfold bind at 1, v4l2_ioctl.
  rewrite next_fault_unhindered by exact Hr.
  cbn [set_script dev cam]. rewrite Hh, Hd. reflexivity.
Qed.

(** X6. [usbcam_lock] waits when no frame is ready: on a streaming session
    with nothing in the driver's filled queue the first dequeue does not
    come back, whatever the budget; nothing has been polled, stored or
    locked. *)
Theorem lock_waits_for_first_frame fuel data size timestamp p :
  lock_ready (cam p) = true -> unhindered (script p) ->
  has_handle (dev p) (usbcam_fd (cam p)) = true -> d_streaming (dev p) = true ->
  d_done (dev p) = [] ->
  usbcam_lock (S fuel) data size timestamp p = Stop Blocked (set_script (tl (script p)) p).
Proof.
  intros Hr Hs Hh Hst Hd.
  unfold lock_ready in Hr.
  apply andb_true_iff in Hr as [Hr H4]. apply andb_true_iff in Hr as [Hr H3].
  apply andb_true_iff in Hr as [H1 H2].
  assert (Hq : drv_ioctl (dev p) VIDIOC_DQBUF (ArgBuffer (capture_buffer 0)) = Sleep).
  { simpl. rewrite Hst, Hd. reflexivity. }
  unfold usbcam_lock.
  run_step. rewrite H1. run_step. rewrite H2. run_step. rewrite H3. run_step. rewrite H4.
  cbv beta iota.
  apply bind_stop_eq. unfold ioctl_buffer. apply bind_stop_eq.
  rewrite usbcam_ioctl_open by exact H2.
  apply bind_stop_eq, ioctl_retry_sleeps; auto.
Qed.

Lemma lock_waits_for_first_frame_witness :
  usbcam_lock 1 1000 1008 1016 demo_ready =
  Stop Blocked (set_script (tl (script demo_ready)) demo_ready).
Proof.
  apply (lock_waits_for_first_frame 0 1000 1008 1016 demo_ready).
  - vm_compute; reflexivity.
  - vm_compute; reflexivity.
  - vm_compute; reflexivity.
  - vm_compute; reflexivity.
  - vm_compute; reflexivity.
Defined.

(** X7. [usbcam_lock] takes any failure of its poll for "nothing more is
    ready": when the first dequeue goes through and the [select] that
    follows it fails, with whatever error, the call returns the oldest
    filled buffer as its frame and locks it; the newer filled buffers stay
    in the driver's queue and [errno] holds the error. *)
Theorem lock_poll_failure_ends_drain fuel data size timestamp p b bs e rest a :
  lock_ready (cam p) = true ->
  has_handle (dev p) (usbcam_fd (cam p)) = true -> d_streaming (dev p) = true ->
  script p = None :: Some e :: rest ->
  d_done (dev p) = b :: bs ->
  data <> NULL -> size <> NULL -> timestamp <> NULL ->
  0 <= b_index b ->
  usbcam_buffer_start (cam p) !! Z.to_nat (b_index b) = Some a ->
  exists p',
    usbcam_lock (S fuel) data size timestamp p =
      Ret {| f_data := a; f_size := b_bytesused b; f_timestamp := b_timestamp b |} p' /\
    usbcam_dqbuf (cam p') = b /\ usbcam_has_dqbuf (cam p') = 1 /\
    d_done (dev p') = bs /\ errno p' = e /\ script p' = rest.
Proof.
  intros Hr Hh Hst Hs Hd Hdata Hsize Hts Hi Ha.
  assert (Hpre : lock_prefix (S fuel) p =
                 Ret b (settled p e rest
                          (log (SysIoctl VIDIOC_DQBUF (ArgBuffer b))
                             (set_queues (d_count (dev p)) true (d_incoming (dev p)) bs
                                (d_user (dev p) ++ [b_index b]) (dev p))))).
  { unfold lock_ready in Hr.
    apply andb_true_iff in Hr as [Hr H4]. apply andb_true_iff in Hr as [Hr H3].
    apply andb_true_iff in Hr as [H1 H2].
    unfold lock_prefix.
    run_step. rewrite H1. run_step. rewrite H2. run_step. rewrite H3. run_step. rewrite H4.
    cbv beta iota.
    assert (Hq : drv_ioctl (dev p) VIDIOC_DQBUF (ArgBuffer (capture_buffer 0)) =
                 Done (ArgBuffer b)
                   (set_queues (d_count (dev p)) true (d_incoming (dev p)) bs
                      (d_user (dev p) ++ [b_index b]) (dev p))).
    { simpl. rewrite Hst, Hd. reflexivity. }
    assert (Hu : unhindered (script p)) by (rewrite Hs; reflexivity).
    rewrite (ioctl_buffer_quiet fuel _ _ _ _ _ Hu H2 Hh Hq).
    rewrite Hs. simpl tl.
    rewrite (drain_poll_error (S fuel) fuel b _ e rest) by reflexivity.
    reflexivity. }
  rewrite lock_split, (bind_ret _ _ _ _ _ Hpre).
  rewrite (lock_output_ok data size timestamp b _ a Hdata Hsize Hts Hi) by exact Ha.
  eexists. split; [reflexivity|]. simpl. auto 10.
Qed.

Lemma lock_poll_failure_ends_drain_witness :
  exists p',
    usbcam_lock 1 1000 1008 1016 (set_script [None; Some EINTR; None] demo_filled) =
      Ret {| f_data := 4096; f_size := 100; f_timestamp := ts0 1 |} p' /\
    usbcam_dqbuf (cam p') = filled 0 100 (ts0 1) 614400 /\
    usbcam_has_dqbuf (cam p') = 1 /\
    d_done (dev p') = [filled 1 200 (ts0 2) 614400; filled 2 300 (ts0 3) 614400] /\
    errno p' = EINTR /\ script p' = [None].
Proof.
  apply (lock_poll_failure_ends_drain 0 1000 1008 1016
           (set_script [None; Some EINTR; None] demo_filled)
           (filled 0 100 (ts0 1) 614400)
           [filled 1 200 (ts0 2) 614400; filled 2 300 (ts0 3) 614400] EINTR [None] 4096).
  - vm_compute; reflexivity.
  - vm_compute; reflexivity.
  - vm_compute; reflexivity.
  - reflexivity.
  - vm_compute; reflexivity.
  - unfold NULL; lia.
  - unfold NULL; lia.
  - unfold NULL; lia.
  - simpl; lia.
  - vm_compute; reflexivity.
Defined.

(** *** [usbcam_init] on a camera that lets every call through *)

Lemma wp_eq_ret {A} (m : M A) a p' (Q : A -> process -> Prop) E p :
  m p = Ret a p' -> Q a p' -> wp m Q E p.
Proof. unfold wp; intros ->; auto. Qed.

Lemma device_ext (a b : device) :
  d_name a = d_name b -> d_modes a = d_modes b -> d_max_buffers a = d_max_buffers b ->
  d_fd a = d_fd b -> d_buflen a = d_buflen b -> d_count a = d_count b ->
  d_streaming a = d_streaming b -> d_incoming a = d_incoming b -> d_done a = d_done b ->
  d_user a = d_user b -> d_maps a = d_maps b -> d_brk a = d_brk b ->
  d_trace a = d_trace b -> a = b.
Proof. destruct a, b; simpl; intros; subst; reflexivity. Qed.

Lemma zseq_succ j : 0 <= j -> zseq (j + 1) = (zseq j ++ [j])%list.
Proof.
  intros Hj. unfold zseq.
  replace (Z.to_nat (j + 1)) with (S (Z.to_nat j)) by lia.
  rewrite seq_S, map_app. simpl. rewrite Z2Nat.id by lia. reflexivity.
Qed.

Lemma zrange_all n : zrange 0 n = zseq n.
Proof. unfold zrange, zseq. rewrite Z.sub_0_r. reflexivity. Qed.

Lemma zrange_none n : zrange n n = [].
Proof. unfold zrange. rewrite Z.sub_diag. reflexivity. Qed.

Lemma zrange_cons j n : 0 <= j < n -> zrange j n = j :: zrange (j + 1) n.
Proof.
  intros Hj. unfold zrange.
  replace (Z.to_nat (n - j)) with (S (Z.to_nat (n - (j + 1)))) by lia.
  simpl. rewrite Z2Nat.id by lia.
  replace (Z.to_nat (j + 1)) with (S (Z.to_nat j)) by lia. reflexivity.
Qed.

Lemma zremove_above j l : Forall (fun i => j < i) l -> zremove j l = l.
Proof.
  induction 1 as [|i l Hi _ IH]; [reflexivity|].
  unfold zremove in *. simpl.
  replace (j =? i) with false by (symmetry; apply Z.eqb_neq; lia).
  simpl. rewrite IH. reflexivity.
Qed.

Lemma zrange_above j n : 0 <= j -> Forall (fun i => j < i) (zrange (j + 1) n).
Proof.
  intros Hj. unfold zrange. apply List.Forall_forall. intros i Hi.
  apply in_map_iff in Hi as (k & <- & Hk). apply in_seq in Hk. lia.
Qed.

Lemma zremove_head j n : 0 <= j < n -> zremove j (zrange j n) = zrange (j + 1) n.
Proof.
  intros Hj. rewrite (zrange_cons j n Hj). unfold zremove. simpl.
  rewrite Z.eqb_refl. simpl. apply (zremove_above j), zrange_above. lia.
Qed.

Lemma pool_maps_succ brk len j :
  0 <= j -> pool_maps brk len (j + 1) = (pool_maps brk len j ++ [(brk + j * len, len)])%list.
Proof. intros Hj. unfold pool_maps. rewrite zseq_succ, map_app by exact Hj. reflexivity. Qed.

Lemma alloc_trace_succ brk len j :
  0 <= j ->
  alloc_trace brk len (j + 1) =
  (alloc_trace brk len j ++
   [SysIoctl VIDIOC_QUERYBUF (ArgBuffer (filled j 0 (ts0 0) len));
    SysMmap (brk + j * len) len])%list.
Proof.
  intros Hj. unfold alloc_trace. rewrite zseq_succ, flat_map_app by exact Hj.
  simpl. reflexivity.
Qed.

Lemma queue_trace_succ j :
  0 <= j ->
  queue_trace (j + 1) =
  (queue_trace j ++ [SysIoctl VIDIOC_QBUF (ArgBuffer (capture_buffer j))])%list.
Proof. intros Hj. unfold queue_trace. rewrite zseq_succ, map_app by exact Hj. reflexivity. Qed.

Lemma open_healthy file oflag p :
  script p = [] -> String.eqb file (d_name (dev p)) = true -> d_fd (dev p) = None ->
  v4l2_open file oflag p = Ret 3 (set_dev (log (SysOpen 3) (set_handle (Some 3) (dev p))) p).
Proof.
  intros Hs Hn Hfd. unfold v4l2_open, next_fault. rewrite Hs, Hn, Hfd. reflexivity.
Qed.

Lemma mmap_healthy len fd offset p :
  script p = [] -> has_handle (dev p) fd = true -> 0 < len ->
  mmap len fd offset p =
  Ret (d_brk (dev p))
      (set_dev (log (SysMmap (d_brk (dev p)) len)
                  (set_maps (d_maps (dev p) ++ [(d_brk (dev p), len)])
                            (d_brk (dev p) + len) (dev p))) p).
Proof.
  intros Hs Hh Hl. unfold mmap, next_fault. rewrite Hs, Hh.
  replace (len <=? 0) with false by (symmetry; apply Z.leb_gt; lia). reflexivity.
Qed.

Lemma array_set_ok arr upd i v p :
  0 <= i < Z.of_nat (length (arr (cam p))) ->
  array_set arr upd i v p = Ret tt (set_cam (upd (<[Z.to_nat i := v]> (arr (cam p))) (cam p)) p).
Proof.
  intros Hi. unfold array_set.
  replace (i <? 0) with false by (symmetry; apply Z.ltb_ge; lia).
  replace (Z.of_nat (length (arr (cam p))) <=? i) with false
    by (symmetry; apply Z.leb_gt; lia).
  reflexivity.
Qed.

Lemma alloc_step fuel c1 e0 d1 len j q :
  truthy (usbcam_has_fd c1) = true -> has_handle d1 (usbcam_fd c1) = true ->
  d_buflen d1 = len -> 0 < len -> 0 <= d_brk d1 ->
  0 <= j < d_count d1 -> j < usbcam_max_buffers ->
  alloc_state c1 e0 d1 len j q ->
  exists q', alloc_body (S fuel) j q = Ret tt q' /\ alloc_state c1 e0 d1 len (j + 1) q'.
Proof.
  intros Hfd Hh Hlen Hpos Hbrk Hj Hmax (Hj0 & Hs & He & (starts & lens & Hc & Ls & Ll & Hslots) & Hd).
  destruct q as [c e s d]. simpl in Hs, He, Hc, Hd. subst s e c.
  unfold usbcam_max_buffers in *.
  assert (Hq : drv_ioctl d VIDIOC_QUERYBUF (ArgBuffer (capture_buffer j)) =
               Done (ArgBuffer (filled j 0 (ts0 0) len)) d).
  { rewrite Hd. simpl.
    replace (0 <=? j) with true by (symmetry; apply Z.leb_le; lia).
    replace (j <? d_count d1) with true by (symmetry; apply Z.ltb_lt; lia).
    simpl. rewrite Hlen. reflexivity. }
  assert (Hh' : has_handle d (usbcam_fd c1) = true) by (rewrite Hd; exact Hh).
  unfold alloc_body.
  match goal with |- context [bind (ioctl_buffer _ ?r ?b) ?k ?q] =>
    rewrite (bind_ret _ k q _ _ (ioctl_buffer_healthy fuel r b q _ _ eq_refl Hfd Hh' Hq)) end.
  match goal with |- context [bind (array_set ?a ?u ?i ?v) ?k ?q] =>
    rewrite (bind_ret _ k q _ _ (array_set_ok a u i v q ltac:(simpl; lia))) end.
  unfold bind at 1, load.
  match goal with |- context [bind (mmap ?l ?f ?o) ?k ?q] =>
    rewrite (bind_ret _ k q _ _ (mmap_healthy l f o q eq_refl Hh' Hpos)) end.
  match goal with |- context [bind (array_set ?a ?u ?i ?v) ?k ?q] =>
    rewrite (bind_ret _ k q _ _ (array_set_ok a u i v q ltac:(simpl; lia))) end.
  simpl. rewrite Hd. simpl.
  replace (d_brk d1 + j * len =? MAP_FAILED) with false
    by (symmetry; apply Z.eqb_neq; unfold MAP_FAILED; nia).
  simpl. eexists. split; [reflexivity|].
  split; [lia|]. split; [reflexivity|]. split; [reflexivity|]. split.
  - exists (<[Z.to_nat j := d_brk d1 + j * len]> starts), (<[Z.to_nat j := len]> lens).
    split; [reflexivity|]. rewrite !length_insert. split; [exact Ls|]. split; [exact Ll|].
    intros i Hi. destruct (Z.eq_dec i j) as [->|Hne].
    + rewrite !list_lookup_insert_eq by lia. auto.
    + rewrite !list_lookup_insert_ne by lia. apply Hslots. lia.
  - simpl. rewrite pool_maps_succ, alloc_trace_succ by exact Hj0.
    apply device_ext; simpl; try reflexivity.
    + rewrite <- app_assoc. reflexivity.
    + lia.
    + rewrite <- !app_assoc. reflexivity.
Qed.

Lemma queue_step fuel c3 e0 d3 n j q :
  truthy (usbcam_has_fd c3) = true -> has_handle d3 (usbcam_fd c3) = true ->
  d_count d3 = n -> 0 <= j < n ->
  queue_state c3 e0 d3 n j q ->
  exists q', (ioctl_buffer (S fuel) VIDIOC_QBUF (capture_buffer j) ;;; ret tt) q = Ret tt q' /\
             queue_state c3 e0 d3 n (j + 1) q'.
Proof.
  intros Hfd Hh Hn Hj (Hj0 & Hs & He & Hc & Hd).
  destruct q as [c e s d]. simpl in Hs, He, Hc, Hd. subst s e c.
  assert (Hq : drv_ioctl d VIDIOC_QBUF (ArgBuffer (capture_buffer j)) =
               Done (ArgBuffer (capture_buffer j))
                 (set_queues (d_count d) (d_streaming d) (d_incoming d ++ [j]) (d_done d)
                    (zremove j (d_user d)) d)).
  { rewrite Hd. simpl. rewrite (zrange_cons j n Hj). simpl. rewrite Z.eqb_refl. reflexivity. }
  assert (Hh' : has_handle d (usbcam_fd c3) = true) by (rewrite Hd; exact Hh).
  match goal with |- context [bind (ioctl_buffer _ ?r ?b) ?k ?q] =>
    rewrite (bind_ret _ k q _ _ (ioctl_buffer_healthy fuel r b q _ _ eq_refl Hfd Hh' Hq)) end.
  eexists. split; [reflexivity|].
  split; [lia|]. split; [reflexivity|]. split; [reflexivity|]. split; [reflexivity|].
  simpl. rewrite Hd. rewrite queue_trace_succ, zseq_succ by exact Hj0.
  apply device_ext; simpl; try reflexivity.
  - apply zremove_head; exact Hj.
  - rewrite <- app_assoc. reflexivity.
Qed.

Lemma same_mode_fields a b :
  same_mode a b = true ->
  pixelformat b = pixelformat a /\ width b = width a /\ height b = height a.
Proof.
  unfold same_mode. intros H.
  apply andb_true_iff in H as [H H3]. apply andb_true_iff in H as [H1 H2].
  apply Z.eqb_eq in H1, H2, H3. auto.
Qed.

Lemma init_from_idle fuel opt p m :
  length (usbcam_buffer_start (cam p)) = Z.to_nat usbcam_max_buffers ->
  length (usbcam_buffer_length (cam p)) = Z.to_nat usbcam_max_buffers ->
  quiescent p -> script p = [] ->
  d_fd (dev p) = None -> d_streaming (dev p) = false -> d_count (dev p) <= 0 ->
  d_name (dev p) = device_name opt ->
  List.find (same_mode (requested opt)) (d_modes (dev p)) = Some m ->
  0 < sizeimage m -> 0 <= d_brk (dev p) ->
  0 < buffers opt <= usbcam_max_buffers -> buffers opt <= d_max_buffers (dev p) ->
  wp (usbcam_init (S fuel) opt)
     (fun _ p' =>
        (exists starts lens,
           cam p' = set_has_stream 1 (set_has_mmap 1 (set_buffers (buffers opt)
                      (set_buffer_start starts (set_buffer_length lens
                         (set_has_fd 1 (set_fd 3 (cam p))))))) /\
           forall i, 0 <= i < buffers opt ->
             starts !! Z.to_nat i = Some (d_brk (dev p) + i * sizeimage m) /\
             lens !! Z.to_nat i = Some (sizeimage m)) /\
        dev p' =
          set_trace (d_trace (dev p) ++ init_trace opt m (d_brk (dev p)))
            (set_maps (d_maps (dev p) ++
                       pool_maps (d_brk (dev p)) (sizeimage m) (buffers opt))
               (d_brk (dev p) + buffers opt * sizeimage m)
               (set_queues (buffers opt) true (zseq (buffers opt)) [] []
                  (set_buflen (sizeimage m) (set_handle (Some 3) (dev p))))) /\
        script p' = [] /\ errno p' = errno p)
     (fun _ _ => False) p.
Proof.
  intros Ls Ll Hq Hs Hfd Hst Hcnt Hname Hfind Hlen Hbrk Hn Hmaxb.
  pose proof (find_some _ _ Hfind) as [_ Hmode].
  apply same_mode_fields in Hmode as (M1 & M2 & M3). simpl in M1, M2, M3.
  unfold usbcam_init.
  apply wp_bind, (wp_eq_ret _ tt p); [apply cleanup_quiescent, Hq|].
  destruct Hq as (Q1 & Q2 & Q3 & Q4).
  destruct p as [c e s d]. simpl in *. subst s.
  apply wp_bind, wp_assert; [intros H; apply Z.leb_gt in H; lia | intros _].
  apply wp_bind, wp_assert; [intros H; apply Z.ltb_ge in H; lia | intros _].
  apply wp_bind.
  eapply wp_eq_ret;
    [apply open_healthy; simpl; [reflexivity | rewrite Hname; apply String.eqb_refl | exact Hfd]|].
  apply wp_bind, wp_store.
  apply wp_bind, wp_assert; [discriminate | intros _].
  apply wp_bind, wp_store.
  (* the format *)
  apply wp_bind.
  eapply wp_eq_ret.
  { apply ioctl_healthy; simpl; [reflexivity | reflexivity | reflexivity |].
    rewrite Hst. replace (0 <? d_count d) with false by (symmetry; apply Z.ltb_ge; lia).
    simpl. fold (requested opt). rewrite Hfind. reflexivity. }
  cbv beta iota. apply wp_bind. rewrite M1, M2, M3, !Z.eqb_refl.
  apply wp_bind, wp_assert; [discriminate | intros _].
  apply wp_bind, wp_assert; [discriminate | intros _].
  apply wp_assert; [discriminate | intros _].
  (* the buffers *)
  apply wp_bind.
  eapply wp_eq_ret.
  { apply ioctl_healthy; simpl; [reflexivity | reflexivity | reflexivity |].
    rewrite Hst. replace (Z.max 0 (Z.min (buffers opt) (d_max_buffers d))) with (buffers opt)
      by lia.
    reflexivity. }
  cbv beta iota. apply wp_bind. rewrite Z.eqb_refl. apply wp_assert; [discriminate | intros _].
  pose (c1 := set_has_fd 1 (set_fd 3 c)).
  pose (d1 := log (SysIoctl VIDIOC_REQBUFS
                    (ArgRequest (buffers opt) V4L2_BUF_TYPE_VIDEO_CAPTURE V4L2_MEMORY_MMAP))
               (set_queues (buffers opt) false [] [] (zseq (buffers opt))
                  (log (SysIoctl VIDIOC_S_FMT (ArgFormat V4L2_BUF_TYPE_VIDEO_CAPTURE m))
                     (set_buflen (sizeimage m)
                        (log (SysOpen 3) (set_handle (Some 3) d)))))).
  (* the allocation loop *)
  apply wp_bind.
  apply (wp_for_range (alloc_state c1 e d1 (sizeimage m))).
  { split; [lia|]. split; [reflexivity|]. split; [reflexivity|]. split.
    - exists (usbcam_buffer_start c), (usbcam_buffer_length c).
      split; [reflexivity|]. split; [exact Ls|]. split; [exact Ll|]. intros i Hi; lia.
    - apply device_ext; simpl; try reflexivity.
      + rewrite app_nil_r; reflexivity.
      + lia.
      + rewrite app_nil_r; reflexivity. }
  { intros j q Hj HI.
    destruct (alloc_step fuel c1 e d1 (sizeimage m) j q) as (q' & Hr & HI'); auto;
      try reflexivity; try (simpl; lia).
    apply (wp_eq_ret _ tt q'); [exact Hr | exact HI']. }
  intros q (_ & Hqs & Hqe & (starts & lens & Hqc & Ls' & Ll' & Hslots) & Hqd).
  rewrite Z.add_0_l, Z2Nat.id in Hslots, Hqd by lia.
  destruct q as [cq eq sq dq]. simpl in Hqs, Hqe, Hqc, Hqd. subst sq eq cq.
  apply wp_bind, wp_store. apply wp_bind, wp_store.
  (* streaming *)
  apply wp_bind.
  eapply wp_eq_ret.
  { apply ioctl_healthy; simpl; [reflexivity | reflexivity | rewrite Hqd; reflexivity |].
    reflexivity. }
  apply wp_bind, wp_store.
  pose (c3 := set_has_stream 1 (set_has_mmap 1 (set_buffers (buffers opt)
               (set_buffer_start starts (set_buffer_length lens c1))))).
  pose (d3 := log (SysIoctl VIDIOC_STREAMON (ArgType V4L2_BUF_TYPE_VIDEO_CAPTURE))
               (set_queues (d_count dq) true (d_incoming dq) (d_done dq) (d_user dq) dq)).
  (* the queueing loop *)
  apply (wp_for_range (queue_state c3 e d3 (buffers opt))).
  { split; [lia|]. split; [reflexivity|]. split; [reflexivity|]. split; [reflexivity|].
    unfold d3. rewrite Hqd. apply device_ext; simpl; try reflexivity.
    - rewrite zrange_all; reflexivity.
    - rewrite app_nil_r; reflexivity. }
  { intros j q Hj HI.
    destruct (queue_step fuel c3 e d3 (buffers opt) j q) as (q' & Hr & HI'); auto;
      try reflexivity; try (unfold d3; rewrite Hqd; reflexivity); try lia.
    apply (wp_eq_ret _ tt q'); [exact Hr | exact HI']. }
  intros q (_ & Hqs' & Hqe' & Hqc' & Hqd').
  rewrite Z.add_0_l, Z2Nat.id in Hqd' by lia.
  split; [|split; [|split]]; auto.
  - exists starts, lens. split; [exact Hqc'|exact Hslots].
  - rewrite Hqd'. unfold d3. rewrite Hqd. unfold init_trace.
    apply device_ext; simpl; try reflexivity.
    + rewrite zrange_none; reflexivity.
    + rewrite <- !app_assoc. reflexivity.
Qed.

(** X8. [usbcam_init] on a camera that is free and lets every call through
    returns with the session ready for [usbcam_lock]: for a quiescent
    session, a device of the requested name that nobody has open and that
    supports the requested mode [m] with a positive image size, and a buffer
    count between 1 and what both the header (128) and the driver allow,
    the call leaves all of [usbcam_lock]'s preconditions true and
    [usbcam_buffers] at the requested count; buffer [i] is recorded with
    the image size as its length and mapped at the [i]-th consecutive
    address; the device is open on descriptor 3, streaming, with every
    buffer queued in index order and none filled or handed out; and the
    calls made are, in order, open, S_FMT, REQBUFS, a QUERYBUF and an mmap
    per buffer, STREAMON, and a QBUF per buffer. *)
Theorem init_succeeds fuel opt p m :
  attainable p -> quiescent p -> script p = [] ->
  d_fd (dev p) = None -> d_streaming (dev p) = false -> d_count (dev p) <= 0 ->
  d_name (dev p) = device_name opt ->
  List.find (same_mode (requested opt)) (d_modes (dev p)) = Some m ->
  0 < sizeimage m -> 0 <= d_brk (dev p) ->
  0 < buffers opt <= usbcam_max_buffers -> buffers opt <= d_max_buffers (dev p) ->
  exists p',
    usbcam_init (S fuel) opt p = Ret tt p' /\
    lock_ready (cam p') = true /\
    usbcam_buffers (cam p') = buffers opt /\
    (forall i, 0 <= i < buffers opt ->
       usbcam_buffer_start (cam p') !! Z.to_nat i = Some (d_brk (dev p) + i * sizeimage m) /\
       usbcam_buffer_length (cam p') !! Z.to_nat i = Some (sizeimage m)) /\
    dev p' =
      set_trace (d_trace (dev p) ++ init_trace opt m (d_brk (dev p)))
        (set_maps (d_maps (dev p) ++ pool_maps (d_brk (dev p)) (sizeimage m) (buffers opt))
           (d_brk (dev p) + buffers opt * sizeimage m)
           (set_queues (buffers opt) true (zseq (buffers opt)) [] []
              (set_buflen (sizeimage m) (set_handle (Some 3) (dev p))))) /\
    script p' = [] /\ errno p' = errno p.
Proof.
  intros Ha Hq Hs Hfd Hst Hcnt Hname Hfind Hlen Hbrk Hn Hmaxb.
  destruct (attainable_Inv p Ha) as (Ls & Ll & _).
  pose proof (init_from_idle fuel opt p m Ls Ll Hq Hs Hfd Hst Hcnt Hname Hfind Hlen Hbrk
                Hn Hmaxb) as Hwp.
  unfold wp in Hwp.
  destruct (usbcam_init (S fuel) opt p) as [[] p'|]; [|destruct Hwp].
  destruct Hwp as ((starts & lens & Hc & Hslots) & Hd & Hs' & He').
  destruct Hq as (Q1 & Q2 & Q3 & Q4).
  exists p'. split; [reflexivity|]. rewrite Hc. unfold lock_ready. simpl. rewrite Q4.
  split; [reflexivity|]. split; [reflexivity|]. auto.
Qed.

Lemma init_succeeds_witness :
  exists p',
    usbcam_init 1 opt0 (boot camera0 []) = Ret tt p' /\
    lock_ready (cam p') = true /\
    usbcam_buffers (cam p') = buffers opt0 /\
    (forall i, 0 <= i < buffers opt0 ->
       usbcam_buffer_start (cam p') !! Z.to_nat i =
         Some (d_brk (dev (boot camera0 [])) + i * sizeimage (hd (requested opt0) (d_modes camera0))) /\
       usbcam_buffer_length (cam p') !! Z.to_nat i =
         Some (sizeimage (hd (requested opt0) (d_modes camera0)))) /\
    dev p' =
      set_trace (d_trace (dev (boot camera0 [])) ++
                 init_trace opt0 (hd (requested opt0) (d_modes camera0))
                   (d_brk (dev (boot camera0 []))))
        (set_maps (d_maps (dev (boot camera0 [])) ++
                   pool_maps (d_brk (dev (boot camera0 [])))
                     (sizeimage (hd (requested opt0) (d_modes camera0))) (buffers opt0))
           (d_brk (dev (boot camera0 [])) +
            buffers opt0 * sizeimage (hd (requested opt0) (d_modes camera0)))
           (set_queues (buffers opt0) true (zseq (buffers opt0)) [] []
              (set_buflen (sizeimage (hd (requested opt0) (d_modes camera0)))
                 (set_handle (Some 3) (dev (boot camera0 [])))))) /\
    script p' = [] /\ errno p' = errno (boot camera0 []).
Proof.
  apply (init_succeeds 0 opt0 (boot camera0 []) (hd (requested opt0) (d_modes camera0))).
  - apply att_boot. repeat split.
  - repeat split.
  - reflexivity.
  - reflexivity.
  - reflexivity.
  - simpl; lia.
  - reflexivity.
  - reflexivity.
  - simpl; lia.
  - simpl; lia.
  - unfold usbcam_max_buffers; simpl; lia.
  - simpl; lia.
Defined.

(** *** [usbcam_init] rejecting its arguments or the device *)

Lemma wp_stop_eq {A} (m : M A) p r0 q0 :
  wp m (fun _ _ => False) (fun r q => r = r0 /\ q = q0) p -> m p = Stop r0 q0.
Proof. unfold wp. destruct (m p) as [a q|r q]; [intros []|intros [-> ->]; reflexivity]. Qed.

(** X9. [usbcam_init] checks the buffer count only after it has torn the
    running session down: called with a count above 128 or below 1, on a
    device that reports no error other than retried ones, it exits on the
    assertion of line 139 or 140 in the state [usbcam_cleanup] leaves, with
    all four flags cleared. *)
Theorem init_checks_count_after_teardown fuel opt p :
  attainable p -> (length (script p) < fuel)%nat -> benign (script p) ->
  ~ (0 < buffers opt <= usbcam_max_buffers) ->
  exists p1 line,
    usbcam_cleanup fuel p = Ret tt p1 /\ quiescent p1 /\
    ((usbcam_max_buffers < buffers opt /\ line = 139 /\
      usbcam_init fuel opt p = Stop (AssertFail line "You requested too many buffers") p1) \/
     (buffers opt <= 0 /\ line = 140 /\
      usbcam_init fuel opt p = Stop (AssertFail line "You need atleast one buffer") p1)).
Proof.
  intros Ha Hf Hb Hn.
  destruct (cleanup_returns fuel p Ha Hf Hb) as (p1 & Hc & Hq).
  unfold usbcam_init. rewrite (bind_ret _ _ _ _ _ Hc).
  destruct (buffers opt <=? usbcam_max_buffers) eqn:H1.
  - apply Z.leb_le in H1.
    exists p1, 140. split; [exact Hc|]. split; [exact Hq|]. right.
    split; [lia|]. split; [reflexivity|].
    run_step. replace (0 <? buffers opt) with false by (symmetry; apply Z.ltb_ge; lia).
    reflexivity.
  - apply Z.leb_gt in H1.
    exists p1, 139. split; [exact Hc|]. split; [exact Hq|]. left.
    split; [lia|]. split; [reflexivity|]. reflexivity.
Qed.

Lemma init_checks_count_after_teardown_witness :
  exists p1 line,
    usbcam_cleanup 1 demo_locked = Ret tt p1 /\ quiescent p1 /\
    ((usbcam_max_buffers <
        buffers {| device_name := "/dev/video0"; buffers := 129; pixel_format := 1196444237;
                   opt_width := 640; opt_height := 480 |} /\ line = 139 /\
      usbcam_init 1 {| device_name := "/dev/video0"; buffers := 129;
                       pixel_format := 1196444237; opt_width := 640; opt_height := 480 |}
        demo_locked = Stop (AssertFail line "You requested too many buffers") p1) \/
     (buffers {| device_name := "/dev/video0"; buffers := 129; pixel_format := 1196444237;
                 opt_width := 640; opt_height := 480 |} <= 0 /\ line = 140 /\
      usbcam_init 1 {| device_name := "/dev/video0"; buffers := 129;
                       pixel_format := 1196444237; opt_width := 640; opt_height := 480 |}
        demo_locked = Stop (AssertFail line "You need atleast one buffer") p1)).
Proof.
  apply (init_checks_count_after_teardown 1
           {| device_name := "/dev/video0"; buffers := 129; pixel_format := 1196444237;
              opt_width := 640; opt_height := 480 |} demo_locked).
  - apply reachable_attainable, reachable_demo_locked.
  - vm_compute; lia.
  - vm_compute; reflexivity.
  - unfold usbcam_max_buffers; simpl; lia.
Defined.

(** X10. A failed open is not retried and leaves nothing to clean up:
    when the open of the device fails, because the environment makes it
    fail (with [EINTR] as with any other error), because there is no such
    device, or because the device is already open, [usbcam_init] exits on
    the assertion of line 144 with [usbcam_fd] set to -1, [usbcam_has_fd]
    still 0 and the device untouched. *)
Theorem init_open_fails fuel opt p e :
  quiescent p -> 0 < buffers opt <= usbcam_max_buffers ->
  hd None (script p) = Some e \/
  (unhindered (script p) /\ d_name (dev p) <> device_name opt /\ e = ENOENT) \/
  (unhindered (script p) /\ d_name (dev p) = device_name opt /\ d_fd (dev p) <> None /\
   e = EBUSY) ->
  usbcam_init fuel opt p =
  Stop (AssertFail 144 "Failed to open device")
       (set_cam (set_fd (-1) (cam p)) (settled p e (tl (script p)) (dev p))).
Proof.
  intros Hq Hn Hcause.
  assert (Hopen : v4l2_open (device_name opt) O_RDWR p =
                  Ret (-1) (settled p e (tl (script p)) (dev p))).
  { unfold v4l2_open. destruct Hcause as [Hs|[(Hu & Hname & ->)|(Hu & Hname & Hfd & ->)]].
    - unfold next_fault. destruct (script p) as [|f rest]; [discriminate|].
      simpl in Hs. subst f. reflexivity.
    - rewrite (next_fault_unhindered p Hu). cbn [dev set_script].
      replace (String.eqb (device_name opt) (d_name (dev p))) with false
        by (symmetry; apply String.eqb_neq; congruence).
      reflexivity.
    - rewrite (next_fault_unhindered p Hu). cbn [dev set_script].
      rewrite Hname, String.eqb_refl. simpl.
      destruct (d_fd (dev p)); [reflexivity|congruence]. }
  unfold usbcam_init. rewrite (bind_ret _ _ _ _ _ (cleanup_quiescent fuel p Hq)).
  run_step.
  replace (buffers opt <=? usbcam_max_buffers) with true by (symmetry; apply Z.leb_le; lia).
  replace (0 <? buffers opt) with true by (symmetry; apply Z.ltb_lt; lia).
  cbv beta iota. rewrite Hopen. reflexivity.
Qed.

Lemma init_open_fails_witness :
  usbcam_init 0 opt0 (boot camera0 [Some EINTR; None]) =
  Stop (AssertFail 144 "Failed to open device")
       (set_cam (set_fd (-1) (cam (boot camera0 [Some EINTR; None])))
          (settled (boot camera0 [Some EINTR; None]) EINTR
             (tl (script (boot camera0 [Some EINTR; None])))
             (dev (boot camera0 [Some EINTR; None])))).
Proof.
  apply (init_open_fails 0 opt0 (boot camera0 [Some EINTR; None]) EINTR).
  - repeat split.
  - unfold usbcam_max_buffers; simpl; lia.
  - left; reflexivity.
Defined.

(** X11. [usbcam_init] does not accept a format the driver substituted:
    when the camera supports no mode of the requested pixel format, width
    and height and answers S_FMT with its first mode [m] instead, the call
    exits on the assertion of line 156, 157 or 158; the device has been
    opened and set to [m], [usbcam_has_fd] is 1 and no buffer has been
    requested. *)
Theorem init_format_refused fuel opt p m ms :
  quiescent p -> script p = [] ->
  d_fd (dev p) = None -> d_streaming (dev p) = false -> d_count (dev p) <= 0 ->
  d_name (dev p) = device_name opt ->
  0 < buffers opt <= usbcam_max_buffers ->
  List.find (same_mode (requested opt)) (d_modes (dev p)) = None ->
  d_modes (dev p) = m :: ms ->
  exists line msg,
    (156 <= line <= 158) /\
    usbcam_init (S fuel) opt p =
    Stop (AssertFail line msg)
      (set_cam (set_has_fd 1 (set_fd 3 (cam p)))
         (set_dev (log (SysIoctl VIDIOC_S_FMT (ArgFormat V4L2_BUF_TYPE_VIDEO_CAPTURE m))
                     (set_buflen (sizeimage m)
                        (log (SysOpen 3) (set_handle (Some 3) (dev p))))) p)).
Proof.
  intros Hq Hs Hfd Hst Hcnt Hname Hn Hfind Hmodes.
  assert (Hmode : same_mode (requested opt) m = false).
  { apply (find_none _ _ Hfind). rewrite Hmodes. left. reflexivity. }
  unfold same_mode in Hmode. simpl in Hmode.
  assert (Hrun : forall line msg,
            (if pixelformat m =? pixel_format opt then
               if width m =? opt_width opt then
                 if height m =? opt_height opt then None
                 else Some (158, "Did not get the requested height")
               else Some (157, "Did not get the requested width")
             else Some (156, "Did not get the requested format")) = Some (line, msg) ->
            usbcam_init (S fuel) opt p =
            Stop (AssertFail line msg)
              (set_cam (set_has_fd 1 (set_fd 3 (cam p)))
                 (set_dev (log (SysIoctl VIDIOC_S_FMT
                                  (ArgFormat V4L2_BUF_TYPE_VIDEO_CAPTURE m))
                             (set_buflen (sizeimage m)
                                (log (SysOpen 3) (set_handle (Some 3) (dev p))))) p))).
  { intros line msg Hline. apply wp_stop_eq.
    unfold usbcam_init.
    apply wp_bind, (wp_eq_ret _ tt p); [apply cleanup_quiescent, Hq|].
    destruct Hq as (Q1 & Q2 & Q3 & Q4).
    destruct p as [c e s d]. simpl in *. subst s.
    apply wp_bind, wp_assert; [intros H; apply Z.leb_gt in H; lia | intros _].
    apply wp_bind, wp_assert; [intros H; apply Z.ltb_ge in H; lia | intros _].
    apply wp_bind.
    eapply wp_eq_ret;
      [apply open_healthy; simpl;
         [reflexivity | rewrite Hname; apply String.eqb_refl | exact Hfd]|].
    apply wp_bind, wp_store.
    apply wp_bind, wp_assert; [discriminate | intros _].
    apply wp_bind, wp_store.
    apply wp_bind.
    eapply wp_eq_ret.
    { apply ioctl_healthy; simpl; [reflexivity | reflexivity | reflexivity |].
      rewrite Hst. replace (0 <? d_count d) with false by (symmetry; apply Z.ltb_ge; lia).
      simpl. fold (requested opt). rewrite Hfind, Hmodes. reflexivity. }
    cbv beta iota. apply wp_bind.
    destruct (pixelformat m =? pixel_format opt).
    - apply wp_bind, wp_assert; [discriminate | intros _].
      destruct (width m =? opt_width opt).
      + apply wp_bind, wp_assert; [discriminate | intros _].
        destruct (height m =? opt_height opt); [discriminate|].
        inversion Hline; subst. apply wp_assert; [|discriminate]. intros _. split; reflexivity.
      + inversion Hline; subst.
        apply wp_bind, wp_assert; [|discriminate]. intros _. split; reflexivity.
    - inversion Hline; subst.
      apply wp_bind, wp_assert; [|discriminate]. intros _. split; reflexivity. }
  destruct (pixelformat m =? pixel_format opt) eqn:E1.
  - destruct (width m =? opt_width opt) eqn:E2.
    + destruct (height m =? opt_height opt) eqn:E3.
      * apply Z.eqb_eq in E1, E2, E3. rewrite E1, E2, E3, !Z.eqb_refl in Hmode.
        discriminate.
      * exists 158, "Did not get the requested height". split; [lia|]. apply Hrun. reflexivity.
    + exists 157, "Did not get the requested width". split; [lia|]. apply Hrun. reflexivity.
  - exists 156, "Did not get the requested format". split; [lia|]. apply Hrun. reflexivity.
Qed.

Lemma init_format_refused_witness :
  exists line msg,
    (156 <= line <= 158) /\
    usbcam_init 1 {| device_name := "/dev/video0"; buffers := 3; pixel_format := 1448695129;
                     opt_width := 640; opt_height := 480 |} (boot camera0 []) =
    Stop (AssertFail line msg)
      (set_cam (set_has_fd 1 (set_fd 3 (cam (boot camera0 []))))
         (set_dev (log (SysIoctl VIDIOC_S_FMT
                          (ArgFormat V4L2_BUF_TYPE_VIDEO_CAPTURE
                             {| pixelformat := 1196444237; width := 640; height := 480;
                                sizeimage := 614400 |}))
                     (set_buflen
                        (sizeimage {| pixelformat := 1196444237; width := 640; height := 480;
                                      sizeimage := 614400 |})
                        (log (SysOpen 3) (set_handle (Some 3) (dev (boot camera0 []))))))
            (boot camera0 []))).
Proof.
  apply (init_format_refused 0
           {| device_name := "/dev/video0"; buffers := 3; pixel_format := 1448695129;
              opt_width := 640; opt_height := 480 |} (boot camera0 [])
           {| pixelformat := 1196444237; width := 640; height := 480; sizeimage := 614400 |}
           []).
  - repeat split.
  - reflexivity.
  - reflexivity.
  - reflexivity.
  - simpl; lia.
  - reflexivity.
  - unfold usbcam_max_buffers; simpl; lia.
  - reflexivity.
  - reflexivity.
Defined.

(** X12. [usbcam_init] does not accept fewer buffers than it asked for:
    when the driver grants at most [d_max_buffers] buffers and the request
    is for more, the call exits on the assertion of line 171, with the
    device open, the format set and the smaller number of buffers
    allocated in the driver; nothing has been mapped. *)
Theorem init_count_refused fuel opt p m :
  quiescent p -> script p = [] ->
  d_fd (dev p) = None -> d_streaming (dev p) = false -> d_count (dev p) <= 0 ->
  d_name (dev p) = device_name opt ->
  List.find (same_mode (requested opt)) (d_modes (dev p)) = Some m ->
  0 < buffers opt <= usbcam_max_buffers -> d_max_buffers (dev p) < buffers opt ->
  exists p',
    usbcam_init (S fuel) opt p =
      Stop (AssertFail 171 "Did not get the requested number of buffers") p' /\
    cam p' = set_has_fd 1 (set_fd 3 (cam p)) /\
    d_count (dev p') = Z.max 0 (d_max_buffers (dev p)) /\
    d_fd (dev p') = Some 3 /\ d_maps (dev p') = d_maps (dev p).
Proof.
  intros Hq Hs Hfd Hst Hcnt Hname Hfind Hn Hmaxb.
  pose proof (find_some _ _ Hfind) as [_ Hmode].
  apply same_mode_fields in Hmode as (M1 & M2 & M3). simpl in M1, M2, M3.
  pose proof (cleanup_quiescent (S fuel) p Hq) as Hcl.
  destruct Hq as (Q1 & Q2 & Q3 & Q4).
  destruct p as [c e s d]. simpl in *. subst s.
  eexists. split.
  - apply wp_stop_eq.
    unfold usbcam_init.
    apply wp_bind, (wp_eq_ret _ tt _ _ _ _ Hcl).
    apply wp_bind, wp_assert; [intros H; apply Z.leb_gt in H; lia | intros _].
    apply wp_bind, wp_assert; [intros H; apply Z.ltb_ge in H; lia | intros _].
    apply wp_bind.
    eapply wp_eq_ret;
      [apply open_healthy; simpl;
         [reflexivity | rewrite Hname; apply String.eqb_refl | exact Hfd]|].
    apply wp_bind, wp_store.
    apply wp_bind, wp_assert; [discriminate | intros _].
    apply wp_bind, wp_store.
    apply wp_bind.
    eapply wp_eq_ret.
    { apply ioctl_healthy; simpl; [reflexivity | reflexivity | reflexivity |].
      rewrite Hst. replace (0 <? d_count d) with false by (symmetry; apply Z.ltb_ge; lia).
      simpl. fold (requested opt). rewrite Hfind. reflexivity. }
    cbv beta iota. apply wp_bind. rewrite M1, M2, M3, !Z.eqb_refl.
    apply wp_bind, wp_assert; [discriminate | intros _].
    apply wp_bind, wp_assert; [discriminate | intros _].
    apply wp_assert; [discriminate | intros _].
    apply wp_bind.
    eapply wp_eq_ret.
    { apply ioctl_healthy; simpl; [reflexivity | reflexivity | reflexivity |].
      rewrite Hst. reflexivity. }
    cbv beta iota. apply wp_bind, wp_assert.
    + intros _. split; reflexivity.
    + intros H. apply Z.eqb_eq in H. lia.
  - simpl. split; [reflexivity|]. split; [|split; reflexivity].
    f_equal. lia.
Qed.

Lemma init_count_refused_witness :
  exists p',
    usbcam_init 1 {| device_name := "/dev/video0"; buffers := 64; pixel_format := 1196444237;
                     opt_width := 640; opt_height := 480 |} (boot camera0 []) =
      Stop (AssertFail 171 "Did not get the requested number of buffers") p' /\
    cam p' = set_has_fd 1 (set_fd 3 (cam (boot camera0 []))) /\
    d_count (dev p') = Z.max 0 (d_max_buffers (dev (boot camera0 []))) /\
    d_fd (dev p') = Some 3 /\ d_maps (dev p') = d_maps (dev (boot camera0 [])).
Proof.
  apply (init_count_refused 0
           {| device_name := "/dev/video0"; buffers := 64; pixel_format := 1196444237;
              opt_width := 640; opt_height := 480 |} (boot camera0 [])
           {| pixelformat := 1196444237; width := 640; height := 480; sizeimage := 614400 |}).
  - repeat split.
  - reflexivity.
  - reflexivity.
  - reflexivity.
  - simpl; lia.
  - reflexivity.
  - reflexivity.
  - unfold usbcam_max_buffers; simpl; lia.
  - simpl; lia.
Defined.

(** *** How the calls stop *)

Lemma wp_conj {A} (m : M A) (Q1 Q2 : A -> process -> Prop) (E1 E2 : reason -> process -> Prop) p :
  wp m Q1 E1 p -> wp m Q2 E2 p ->
  wp m (fun a q => Q1 a q /\ Q2 a q) (fun r q => E1 r q /\ E2 r q) p.
Proof. unfold wp; destruct (m p); auto. Qed.

Lemma wp_deref_null ptr (Q : unit -> process -> Prop) (E : reason -> process -> Prop) p :
  (ptr = NULL -> E NullDeref p) -> (ptr <> NULL -> Q tt p) -> wp (deref ptr) Q E p.
Proof.
  intros HE HQ. unfold wp, deref. destruct (ptr =? NULL) eqn:Hp; simpl.
  - apply HE, Z.eqb_eq, Hp.
  - apply HQ, Z.eqb_neq, Hp.
Qed.

Lemma ioctl_stop_device fuel req arg p r : ioctl_stop fuel req arg p r -> device_stop r = true.
Proof. intros [[-> _]|[[-> _]|(e & -> & _)]]; reflexivity. Qed.

Lemma device_init_stop r q : device_stop r = true -> init_stop r q.
Proof. destruct r; simpl; auto; discriminate. Qed.

Lemma device_lock_stop c0 data size timestamp r :
  device_stop r = true -> lock_stop c0 data size timestamp r.
Proof. destruct r; simpl; auto; discriminate. Qed.

Lemma unlock_stops fuel p :
  Inv p -> wp (usbcam_unlock fuel) (fun _ _ => True) (fun r _ => device_stop r = true) p.
Proof.
  intros (_ & _ & _ & D & F & _). unfold usbcam_unlock.
  apply wp_bind, wp_load.
  destruct (truthy (usbcam_has_dqbuf (cam p))) eqn:Hdq; [|apply wp_ret; exact I].
  destruct (D eq_refl) as (Hm & _).
  apply wp_bind, wp_load, wp_bind, wp_ioctl_buffer.
  - intros Hfd. rewrite F in Hfd by auto. discriminate.
  - intros p' r _ Hr. apply (ioctl_stop_device _ _ _ _ _ Hr).
  - intros. apply wp_bind, wp_store, wp_store. exact I.
Qed.

Lemma stop_stream_stops fuel p :
  Inv p -> wp (stop_stream fuel) (fun _ _ => True) (fun r _ => device_stop r = true) p.
Proof.
  intros (_ & _ & _ & _ & F & _). unfold stop_stream.
  apply wp_bind, wp_load.
  destruct (truthy (usbcam_has_stream (cam p))) eqn:Hst; [|apply wp_ret; exact I].
  apply wp_bind, wp_usbcam_ioctl.
  - intros Hfd. rewrite F in Hfd by auto. discriminate.
  - intros p' r _ Hr. apply (ioctl_stop_device _ _ _ _ _ Hr).
  - intros. apply wp_store. exact I.
Qed.

Lemma cleanup_stops fuel p :
  Inv p ->
  wp (usbcam_cleanup fuel)
     (fun _ p' => Inv p' /\
        cam p' = set_has_fd 0 (set_has_stream 0 (set_has_mmap 0 (set_has_dqbuf 0 (cam p)))))
     (fun r _ => device_stop r = true) p.
Proof.
  intros HI. apply (wp_rewrite _ _ _ _ _ (cleanup_unfold fuel p)).
  apply wp_bind.
  eapply wp_mono; [apply (wp_conj _ _ _ _ _ _ (unlock_spec fuel p HI) (unlock_stops fuel p HI))
                  | | intros r q [_ H]; exact H].
  intros [] p1 ((HI1 & Hc1 & _) & _).
  assert (Hdq1 : truthy (usbcam_has_dqbuf (cam p1)) = false) by (rewrite Hc1; reflexivity).
  apply wp_bind.
  eapply wp_mono; [apply (release_pool_spec p1 (fun _ _ => False)); auto | | intros r q []].
  intros [] p2 (HI2 & Hc2 & _).
  assert (Hdq2 : truthy (usbcam_has_dqbuf (cam p2)) = false) by (rewrite Hc2, Hc1; reflexivity).
  apply wp_bind.
  eapply wp_mono; [apply (wp_conj _ _ _ _ _ _ (stop_stream_spec fuel p2 HI2 Hdq2)
                            (stop_stream_stops fuel p2 HI2))
                  | | intros r q [_ H]; exact H].
  intros [] p3 ((HI3 & Hc3 & _) & _).
  assert (Hdq3 : truthy (usbcam_has_dqbuf (cam p3)) = false)
    by (rewrite Hc3, Hc2, Hc1; reflexivity).
  assert (Hm3 : truthy (usbcam_has_mmap (cam p3)) = false)
    by (rewrite Hc3, Hc2; reflexivity).
  assert (Hs3 : truthy (usbcam_has_stream (cam p3)) = false)
    by (rewrite Hc3; reflexivity).
  eapply wp_mono; [apply (close_device_spec p3 (fun _ _ => False)); auto | | intros r q []].
  intros [] p4 (HI4 & Hc4 & _). split; [exact HI4|].
  rewrite Hc4, Hc3, Hc2, Hc1. destruct (cam p); reflexivity.
Qed.

Lemma drain_stops fuel n :
  forall buf p, truthy (usbcam_has_fd (cam p)) = true ->
  wp (drain fuel n buf) (fun _ _ => True) (fun r _ => device_stop r = true) p.
Proof.
  induction n as [|n IH]; intros buf p Hfd.
  - apply wp_stop. reflexivity.
  - simpl. apply wp_bind, wp_load, wp_bind, wp_select.
    intros r p1 [Hc1 _].
    destruct (r =? 1); [|apply wp_ret; exact I].
    apply wp_bind, wp_ioctl_buffer.
    + congruence.
    + intros p' r' _ Hr. apply (ioctl_stop_device _ _ _ _ _ Hr).
    + intros p2 a d Hc2 _ _ _ _ _.
      apply wp_bind, wp_ioctl_buffer.
      * congruence.
      * intros p' r' _ Hr. apply (ioctl_stop_device _ _ _ _ _ Hr).
      * intros p3 a' d' Hc3 _ _ _ _ _. apply IH. congruence.
Qed.

Lemma lock_stops fuel data size timestamp p :
  Inv p ->
  wp (usbcam_lock fuel data size timestamp) (fun _ _ => True)
     (fun r _ => lock_stop (cam p) data size timestamp r) p.
Proof.
  intros HI. unfold usbcam_lock.
  apply wp_bind, wp_load, wp_bind, wp_assert;
    [intros H; simpl; split; [lia|unfold lock_ready; rewrite H; reflexivity] | intros Hdq].
  apply wp_bind, wp_load, wp_bind, wp_assert;
    [intros H; simpl; split; [lia|unfold lock_ready; rewrite H, ?andb_false_r; reflexivity]
    | intros Hfd].
  apply wp_bind, wp_load, wp_bind, wp_assert;
    [intros H; simpl; split; [lia|unfold lock_ready; rewrite H, ?andb_false_r; reflexivity]
    | intros Hmm].
  apply wp_bind, wp_load, wp_bind, wp_assert;
    [intros H; simpl; split; [lia|unfold lock_ready; rewrite H, ?andb_false_r; reflexivity]
    | intros Hst].
  apply negb_true_iff in Hdq.
  apply wp_bind, wp_ioctl_buffer.
  { congruence. }
  { intros p' r _ Hr. apply (device_lock_stop (cam p) data size timestamp).
    apply (ioctl_stop_device _ _ _ _ _ Hr). }
  intros p1 a d Hc1 _ Hh Hdrv Hd1 _.
  apply drv_dqbuf in Hdrv as (b & rest & Hdone & Hs & -> & ->).
  assert (Hv : 0 <= b_index b < d_count (dev p) /\ 0 <= b_bytesused b <= d_buflen (dev p)).
  { destruct HI as (_ & _ & _ & _ & _ & _ & (_ & W2 & _) & _).
    rewrite Hdone in W2. inversion W2; auto. }
  assert (Hhold : holding (owns p) (cam p) b p1).
  { unfold holding. split; [auto|]. split; [|split; [|split; [|split]]].
    + unfold Inv. rewrite Hd1, Hc1. apply inv_dqbuf; auto.
    + rewrite Hd1. simpl. apply zmem_In, in_or_app. right. left. reflexivity.
    + rewrite Hd1. simpl. tauto.
    + rewrite Hd1. simpl. tauto.
    + intros Ho. rewrite Hd1. simpl. unfold owns, held in Ho. rewrite Hdq in Ho.
      rewrite Ho. reflexivity. }
  assert (Hfd1 : truthy (usbcam_has_fd (cam p1)) = true) by congruence.
  apply wp_bind.
  eapply wp_mono;
    [apply (wp_conj _ _ _ _ _ _ (drain_spec (owns p) (cam p) fuel fuel b p1 Hdq Hhold)
              (drain_stops fuel fuel b p1 Hfd1)) | | ].
  - intros buf p2 ((Hc2 & HI2 & Hz & Hi & Hb & Hu) & _). cbv beta.
    apply wp_bind, wp_deref_null; [intros ->; simpl; auto|intros _].
    destruct HI2 as (L1 & _ & _ & _ & _ & _ & _ & P). rewrite Hc2 in P, L1.
    destruct (P Hmm Hst) as (Hcount & Hpool).
    destruct (Hpool (b_index buf)) as (a & Ha & _); [lia|].
    apply wp_bind, wp_array_get_ok; [lia | rewrite Hc2; eapply lookup_lt_Some; eauto |].
    apply wp_bind, wp_deref_null; [intros ->; simpl; auto|intros _].
    apply wp_bind, wp_deref_null; [intros ->; simpl; auto|intros _].
    apply wp_bind, wp_store, wp_bind, wp_store, wp_ret. exact I.
  - intros r q [_ Hr]. apply (device_lock_stop (cam p) data size timestamp), Hr.
Qed.

Lemma shaping_step fuel n j q :
  0 <= j < n -> n <= usbcam_max_buffers -> shaping n j q ->
  wp (alloc_body fuel j) (fun _ q' => shaping n (j + 1) q') init_stop q.
Proof.
  unfold usbcam_max_buffers.
  intros Hj Hn (F1 & F2 & F3 & Hfd & Ls & Ll & D1 & D2 & D3 & D4 & D5). unfold alloc_body.
  apply wp_bind, wp_ioctl_buffer.
  { congruence. }
  { intros p' r _ Hr. apply device_init_stop, (ioctl_stop_device _ _ _ _ _ Hr). }
  intros q1 a d Hc1 _ _ Hdrv Hd1 _.
  apply drv_querybuf in Hdrv as (-> & _).
  apply wp_bind.
  eapply wp_eq_ret; [apply array_set_ok; rewrite Hc1; unfold usbcam_max_buffers in *; lia|].
  apply wp_bind, wp_load, wp_bind, wp_mmap.
  - intros q2 [Hc2 Hd2]. apply wp_bind.
    eapply wp_eq_ret;
      [apply array_set_ok; rewrite Hc2; simpl; rewrite Hc1;
       unfold usbcam_max_buffers in *; lia|].
    apply wp_assert; [|discriminate].
    intros _. simpl. rewrite Hc2. simpl. rewrite Hc1. auto.
  - intros q2 Hc2 _ Hd2. apply wp_bind.
    eapply wp_eq_ret;
      [apply array_set_ok; rewrite Hc2; simpl; rewrite Hc1;
       unfold usbcam_max_buffers in *; lia|].
    apply wp_assert.
    + intros _. simpl. rewrite Hc2. simpl. rewrite Hc1. auto.
    + intros _. unfold shaping. simpl. rewrite Hc2. simpl. rewrite Hc1, Hd2. simpl.
      rewrite Hd1. simpl. rewrite !length_insert.
      unfold usbcam_max_buffers. split_and!; auto.
Qed.

Lemma filling_step fuel n j q :
  0 <= j < n -> filling n j q ->
  wp (ioctl_buffer fuel VIDIOC_QBUF (capture_buffer j) ;;; ret tt)
     (fun _ q' => filling n (j + 1) q') init_stop q.
Proof.
  intros Hj (Hj0 & Hfd & D1 & D2 & D3 & D4 & D5).
  apply wp_bind, wp_ioctl_buffer.
  { congruence. }
  { intros p' r _ Hr. apply device_init_stop, (ioctl_stop_device _ _ _ _ _ Hr). }
  intros q1 a d Hc1 _ _ Hdrv Hd1 _.
  apply drv_qbuf in Hdrv as (_ & -> & ->). apply wp_ret.
  unfold filling. rewrite Hc1, Hd1. simpl. rewrite D2, D3, D4, D5.
  rewrite zseq_succ, zremove_head by lia. split_and!; auto. lia.
Qed.

Lemma init_shape fuel opt p :
  Inv p ->
  wp (usbcam_init fuel opt)
     (fun _ p' => 0 < buffers opt <= usbcam_max_buffers /\ all_queued (buffers opt) (dev p'))
     init_stop p.
Proof.
  intros HI. unfold usbcam_init.
  apply wp_bind.
  eapply wp_mono; [apply cleanup_stops, HI | | intros r q Hr; apply device_init_stop, Hr].
  intros [] p1 (HI1 & Hc1). cbv beta.
  destruct HI1 as (L1 & L2 & _).
  assert (F1 : usbcam_has_mmap (cam p1) = 0 /\ usbcam_has_stream (cam p1) = 0 /\
               usbcam_has_dqbuf (cam p1) = 0) by (rewrite Hc1; auto).
  apply wp_bind, wp_assert; [intros _; simpl; tauto | intros Hmax].
  apply wp_bind, wp_assert; [intros _; simpl; tauto | intros Hmin].
  apply Z.leb_le in Hmax. apply Z.ltb_lt in Hmin.
  apply wp_bind, wp_open.
  { intros p2 [Hc2 Hd2]. apply wp_bind, wp_store, wp_bind, wp_assert; [|discriminate].
    intros _. simpl. rewrite Hc2. tauto. }
  intros p2 Hc2 _ Hd2. apply wp_bind, wp_store, wp_bind, wp_assert; [discriminate|].
  intros _. apply wp_bind, wp_store.
  match goal with |- wp _ _ _ ?s => set (p3 := s) end.
  assert (Hc3 : cam p3 = set_has_fd 1 (set_fd 3 (cam p1))) by (simpl; rewrite Hc2; reflexivity).
  clearbody p3.
  (* set format *)
  apply wp_bind, wp_usbcam_ioctl.
  { rewrite Hc3. discriminate. }
  { intros p' r _ Hr. apply device_init_stop, (ioctl_stop_device _ _ _ _ _ Hr). }
  intros p4 a4 d4 Hc4 _ _ _ _ _.
  assert (F4 : usbcam_has_mmap (cam p4) = 0 /\ usbcam_has_stream (cam p4) = 0 /\
               usbcam_has_dqbuf (cam p4) = 0) by (rewrite Hc4, Hc3; simpl; tauto).
  apply wp_bind. apply (wp_mono _ (fun _ q => q = p4) _ init_stop); [| |auto].
  { destruct a4; try (apply wp_ret; reflexivity).
    apply wp_bind, wp_assert; [intros _; simpl; tauto|intros _].
    apply wp_bind, wp_assert; [intros _; simpl; tauto|intros _].
    apply wp_assert; [intros _; simpl; tauto|intros _]. reflexivity. }
  intros [] q ->.
  (* request buffers *)
  apply wp_bind, wp_usbcam_ioctl.
  { rewrite Hc4, Hc3. discriminate. }
  { intros p' r _ Hr. apply device_init_stop, (ioctl_stop_device _ _ _ _ _ Hr). }
  intros p5 a5 d5 Hc5 _ _ Hdrv5 Hd5 _.
  apply drv_reqbufs in Hdrv5 as (granted & -> & ->).
  assert (F5 : usbcam_has_mmap (cam p5) = 0 /\ usbcam_has_stream (cam p5) = 0 /\
               usbcam_has_dqbuf (cam p5) = 0) by (rewrite Hc5; exact F4).
  apply wp_bind, wp_assert; [intros _; simpl; tauto|intros Hgr].
  apply Z.eqb_eq in Hgr. subst granted.
  (* allocate buffers *)
  apply wp_bind.
  apply (wp_for_range (shaping (buffers opt))).
  { unfold shaping. rewrite Hd5, Hc5, Hc4, Hc3. simpl. rewrite Hc1. simpl.
    rewrite Hc1 in L1, L2. simpl in L1, L2. destruct F1 as (A1 & A2 & A3).
    rewrite Hc1 in A1, A2, A3. simpl in A1, A2, A3. split_and!; auto. }
  { intros j q Hj HS. apply (shaping_step fuel (buffers opt)); auto; lia. }
  intros p6 (_ & _ & G3 & Hfd6 & _ & _ & D1 & D2 & D3 & D4 & D5).
  apply wp_bind, wp_store, wp_bind, wp_store.
  (* start streaming *)
  apply wp_bind, wp_usbcam_ioctl.
  { simpl. congruence. }
  { intros p' r _ Hr. apply device_init_stop, (ioctl_stop_device _ _ _ _ _ Hr). }
  intros p8 a8 d8 Hc8 _ _ Hdrv8 Hd8 _.
  simpl in Hdrv8. inversion Hdrv8; subst a8 d8. clear Hdrv8.
  apply wp_bind, wp_store.
  (* queue buffers *)
  apply (wp_for_range (filling (buffers opt))).
  { unfold filling. simpl. rewrite Hc8, Hd8. simpl. rewrite D1, D3, D4, D5, zrange_all.
    split_and!; auto. lia. }
  { intros j q Hj HF. apply filling_step; auto; lia. }
  intros q (_ & _ & E1 & E2 & E3 & E4 & E5).
  rewrite Z.add_0_l, Z2Nat.id in E3 by lia.
  rewrite Z.add_0_l, Z2Nat.id, zrange_none in E5 by lia.
  unfold all_queued. split_and!; auto; lia.
Qed.

Lemma run_stops fuel c p :
  Inv p -> wp (run fuel c) (fun _ _ => True) (call_stop c p) p.
Proof.
  intros HI. destruct c as [opt| |data size timestamp|]; simpl.
  - eapply wp_mono; [apply init_shape, HI | auto | auto].
  - eapply wp_mono; [apply cleanup_stops, HI | auto | auto].
  - apply wp_bind. eapply wp_mono; [apply lock_stops, HI | | auto].
    intros f q _. apply wp_ret. exact I.
  - apply unlock_stops, HI.
Qed.

Lemma cleanup_closes_only fuel q :
  Inv q ->
  usbcam_has_mmap (cam q) = 0 -> usbcam_has_stream (cam q) = 0 ->
  usbcam_has_dqbuf (cam q) = 0 ->
  exists q', usbcam_cleanup fuel q = Ret tt q' /\ quiescent q' /\
             d_maps (dev q') = d_maps (dev q) /\
             d_trace (dev q') = (d_trace (dev q) ++ close_trace (cam q))%list.
Proof.
  intros (_ & _ & _ & _ & _ & H & _) Hm Hs Hdq.
  unfold usbcam_cleanup, close_trace.
  cbv beta iota delta [bind load ret]. rewrite Hdq. change (truthy 0) with false.
  cbv beta iota delta [bind load ret]. rewrite Hm. change (truthy 0) with false.
  cbv beta iota delta [bind load ret]. rewrite Hs. change (truthy 0) with false.
  cbv beta iota delta [bind load ret].
  destruct (truthy (usbcam_has_fd (cam q))) eqn:Hfd.
  - unfold close. rewrite (H eq_refl). eexists. split; [reflexivity|].
    unfold quiescent. simpl. auto.
  - eexists. split; [reflexivity|]. apply truthy_false in Hfd.
    unfold quiescent. rewrite app_nil_r. auto.
Qed.

(** *** What [usbcam_init] leaves behind *)

(** X13. Whenever [usbcam_init] returns, in any state a session can be in
    and whatever the device did on the way (interrupted requests
    included), the session is ready for [usbcam_lock]: the four
    preconditions of [usbcam_lock] hold, the requested count is between 1
    and 128 and is the value of [usbcam_buffers], every buffer below it is
    recorded with its length and is a live mapping, the descriptor is the
    device's open handle, and the driver streams with all buffers queued
    in index order, none filled and none handed out. *)
Theorem init_returns_ready fuel opt p p' :
  attainable p -> usbcam_init fuel opt p = Ret tt p' ->
  lock_ready (cam p') = true /\
  0 < buffers opt <= usbcam_max_buffers /\ usbcam_buffers (cam p') = buffers opt /\
  pool (cam p') (dev p') /\ all_queued (buffers opt) (dev p') /\
  has_handle (dev p') (usbcam_fd (cam p')) = true.
Proof.
  intros Ha Hr. pose proof (attainable_Inv p Ha) as HI.
  pose proof (wp_elim_ret _ _ _ _ _ _ (init_spec fuel opt p HI) Hr)
    as (HI' & _ & Hfd & Hm & Hs & Hdq & Hb).
  pose proof (wp_elim_ret _ _ _ _ _ _ (init_shape fuel opt p HI) Hr) as (Hn & Hq).
  destruct HI' as (_ & _ & _ & _ & _ & H & _ & P).
  unfold lock_ready. rewrite Hfd, Hm, Hs, Hdq. auto 10.
Qed.

Lemma init_returns_ready_witness :
  lock_ready (cam (after (usbcam_init 3 opt0 (boot camera0 [None; Some EINTR; Some EAGAIN]))))
    = true /\
  0 < buffers opt0 <= usbcam_max_buffers /\
  usbcam_buffers (cam (after (usbcam_init 3 opt0 (boot camera0 [None; Some EINTR; Some EAGAIN]))))
    = buffers opt0 /\
  pool (cam (after (usbcam_init 3 opt0 (boot camera0 [None; Some EINTR; Some EAGAIN]))))
       (dev (after (usbcam_init 3 opt0 (boot camera0 [None; Some EINTR; Some EAGAIN])))) /\
  all_queued (buffers opt0)
    (dev (after (usbcam_init 3 opt0 (boot camera0 [None; Some EINTR; Some EAGAIN])))) /\
  has_handle (dev (after (usbcam_init 3 opt0 (boot camera0 [None; Some EINTR; Some EAGAIN]))))
    (usbcam_fd (cam (after (usbcam_init 3 opt0 (boot camera0 [None; Some EINTR; Some EAGAIN])))))
    = true.
Proof.
  apply (init_returns_ready 3 opt0 (boot camera0 [None; Some EINTR; Some EAGAIN])
           (after (usbcam_init 3 opt0 (boot camera0 [None; Some EINTR; Some EAGAIN])))).
  - apply att_boot. repeat split.
  - vm_compute; reflexivity.
Defined.

(** X14. A [usbcam_init] that fails one of its assertions leaves nothing
    recorded as mapped, streaming or locked, so the teardown that follows
    it only closes the device: [usbcam_cleanup] then returns, with any
    budget, having made no call but the [close] of an open descriptor, and
    the buffers the failed call had already mapped stay mapped. *)
Theorem failed_init_leaves_mappings fuel fuel' opt p line msg q :
  attainable p -> usbcam_init fuel opt p = Stop (AssertFail line msg) q ->
  init_assert line = true /\
  usbcam_has_mmap (cam q) = 0 /\ usbcam_has_stream (cam q) = 0 /\
  usbcam_has_dqbuf (cam q) = 0 /\
  exists q', usbcam_cleanup fuel' q = Ret tt q' /\ quiescent q' /\
             d_maps (dev q') = d_maps (dev q) /\
             d_trace (dev q') = (d_trace (dev q) ++ close_trace (cam q))%list.
Proof.
  intros Ha Hr. pose proof (attainable_Inv p Ha) as HI.
  pose proof (wp_elim_stop _ _ _ _ _ _ (init_shape fuel opt p HI) Hr) as (Hl & Hm & Hs & Hdq).
  assert (HIq : Inv q).
  { apply attainable_Inv. apply (att_stop p fuel (Init opt) (AssertFail line msg) q Ha).
    exact Hr. }
  split; [exact Hl|]. split; [exact Hm|]. split; [exact Hs|]. split; [exact Hdq|].
  apply cleanup_closes_only; auto.
Qed.

Lemma failed_init_leaves_mappings_witness :
  (init_assert 193 = true /\
   usbcam_has_mmap (cam (after (usbcam_init 1 opt0
     (boot camera0 [None; None; None; None; None; None; Some ENOMEM])))) = 0 /\
   usbcam_has_stream (cam (after (usbcam_init 1 opt0
     (boot camera0 [None; None; None; None; None; None; Some ENOMEM])))) = 0 /\
   usbcam_has_dqbuf (cam (after (usbcam_init 1 opt0
     (boot camera0 [None; None; None; None; None; None; Some ENOMEM])))) = 0 /\
   exists q',
     usbcam_cleanup 1 (after (usbcam_init 1 opt0
       (boot camera0 [None; None; None; None; None; None; Some ENOMEM]))) = Ret tt q' /\
     quiescent q' /\
     d_maps (dev q') = d_maps (dev (after (usbcam_init 1 opt0
       (boot camera0 [None; None; None; None; None; None; Some ENOMEM])))) /\
     d_trace (dev q') =
       (d_trace (dev (after (usbcam_init 1 opt0
          (boot camera0 [None; None; None; None; None; None; Some ENOMEM])))) ++
        close_trace (cam (after (usbcam_init 1 opt0
          (boot camera0 [None; None; None; None; None; None; Some ENOMEM])))))%list) /\
  d_maps (dev (after (usbcam_init 1 opt0
    (boot camera0 [None; None; None; None; None; None; Some ENOMEM])))) = [(4096, 614400)].
Proof.
  split.
  - apply (failed_init_leaves_mappings 1 1 opt0
             (boot camera0 [None; None; None; None; None; None; Some ENOMEM]) 193
             "Failed to allocate memory for buffers"
             (after (usbcam_init 1 opt0
                (boot camera0 [None; None; None; None; None; None; Some ENOMEM])))).
    + apply att_boot. repeat split.
    + vm_compute; reflexivity.
  - vm_compute; reflexivity.
Defined.

(** *** What the calls never do *)

(** X15. No call of the public interface reads or writes outside the two
    arrays of 128 slots: from any state a session can be in, a call never
    stops on an out-of-bounds access, and it dereferences a null pointer
    only if it is a [usbcam_lock] that was passed one. *)
Theorem memory_safe fuel c p r q :
  attainable p -> run fuel c p = Stop r q ->
  r <> OutOfBounds /\ (r = NullDeref -> null_argument c).
Proof.
  intros Ha Hr.
  pose proof (wp_elim_stop _ _ _ _ _ _ (run_stops fuel c p (attainable_Inv p Ha)) Hr) as Hs.
  destruct c as [opt| |data size timestamp|]; destruct r; simpl in Hs;
    split; try discriminate; try (intros _; exact Hs); intros H; discriminate.
Qed.

Lemma memory_safe_witness :
  NullDeref <> OutOfBounds /\ (NullDeref = NullDeref -> null_argument (Lock 1000 1008 NULL)).
Proof.
  apply (memory_safe 4 (Lock 1000 1008 NULL) demo_filled NullDeref
           (after (run 4 (Lock 1000 1008 NULL) demo_filled))).
  - apply reachable_attainable, reachable_demo_filled.
  - vm_compute; reflexivity.
Defined.

(** X16. Which assertions can fire: through the public interface the
    assertion inside [usbcam_ioctl] (line 87) never fails, [usbcam_cleanup]
    and [usbcam_unlock] never fail an assertion at all, [usbcam_lock] fails
    one only if one of its four preconditions is false, and [usbcam_init]
    only one of its own eight. *)
Theorem assertions_classified fuel c p line msg q :
  attainable p -> run fuel c p = Stop (AssertFail line msg) q ->
  own_assert c (cam p) line.
Proof.
  intros Ha Hr.
  pose proof (wp_elim_stop _ _ _ _ _ _ (run_stops fuel c p (attainable_Inv p Ha)) Hr) as Hs.
  destruct c as [opt| |data size timestamp|]; simpl in Hs; simpl.
  - apply Hs.
  - discriminate.
  - exact Hs.
  - discriminate.
Qed.

Lemma assertions_classified_witness :
  own_assert (Lock 1000 1008 1016) (cam demo_locked) 229.
Proof.
  apply (assertions_classified 4 (Lock 1000 1008 1016) demo_locked 229
           "You forgot to unlock the previous frame" demo_locked).
  - apply reachable_attainable, reachable_demo_locked.
  - vm_compute; reflexivity.
Defined.

(** X17. The four flags are nested in every state a session can be in,
    also after a call that stopped part-way: a locked frame implies a
    mapped pool, a running stream and a buffer the driver has handed out
    under the recorded index, a mapped pool or a running stream implies an open
    device, an open device means [usbcam_fd] is the descriptor the device
    is open on, [usbcam_buffers] is between 0 and 128, and the two arrays
    keep their 128 slots. *)
Theorem lifecycle_flags_nested p :
  attainable p ->
  (truthy (usbcam_has_dqbuf (cam p)) = true ->
     truthy (usbcam_has_mmap (cam p)) = true /\ truthy (usbcam_has_stream (cam p)) = true /\
     zmem (b_index (usbcam_dqbuf (cam p))) (d_user (dev p)) = true) /\
  (truthy (usbcam_has_mmap (cam p)) = true \/ truthy (usbcam_has_stream (cam p)) = true ->
     truthy (usbcam_has_fd (cam p)) = true) /\
  (truthy (usbcam_has_fd (cam p)) = true ->
     has_handle (dev p) (usbcam_fd (cam p)) = true) /\
  0 <= usbcam_buffers (cam p) <= usbcam_max_buffers /\
  length (usbcam_buffer_start (cam p)) = Z.to_nat usbcam_max_buffers /\
  length (usbcam_buffer_length (cam p)) = Z.to_nat usbcam_max_buffers.
Proof.
  intros Ha. destruct (attainable_Inv p Ha) as (L1 & L2 & B & D & F & H & _).
  split_and!; auto; lia.
Qed.

Lemma lifecycle_flags_nested_witness :
  (truthy (usbcam_has_dqbuf (cam demo_locked)) = true ->
     truthy (usbcam_has_mmap (cam demo_locked)) = true /\
     truthy (usbcam_has_stream (cam demo_locked)) = true /\
     zmem (b_index (usbcam_dqbuf (cam demo_locked))) (d_user (dev demo_locked)) = true) /\
  (truthy (usbcam_has_mmap (cam demo_locked)) = true \/
   truthy (usbcam_has_stream (cam demo_locked)) = true ->
     truthy (usbcam_has_fd (cam demo_locked)) = true) /\
  (truthy (usbcam_has_fd (cam demo_locked)) = true ->
     has_handle (dev demo_locked) (usbcam_fd (cam demo_locked)) = true) /\
  0 <= usbcam_buffers (cam demo_locked) <= usbcam_max_buffers /\
  length (usbcam_buffer_start (cam demo_locked)) = Z.to_nat usbcam_max_buffers /\
  length (usbcam_buffer_length (cam demo_locked)) = Z.to_nat usbcam_max_buffers.
Proof.
  apply (lifecycle_flags_nested demo_locked).
  apply reachable_attainable, reachable_demo_locked.
Defined.

(** *** What [usbcam_cleanup] does to the mappings *)

Lemma same_camera_refl d : same_camera d d.
Proof. repeat split. Qed.

Lemma same_camera_trans d1 d2 d3 : same_camera d1 d2 -> same_camera d2 d3 -> same_camera d1 d3.
Proof. unfold same_camera. intros (A1 & A2 & A3 & A4) (B1 & B2 & B3 & B4). split_and!; congruence. Qed.

Lemma unmapped_nil maps : unmapped [] maps = maps.
Proof.
  unfold unmapped. induction maps as [|r maps IH]; simpl; [reflexivity|]. f_equal. exact IH.
Qed.

Lemma unmap_fold_maps rs : forall d,
  d_maps (fold_left unmap rs d) = unmapped rs (d_maps d) /\
  same_camera d (fold_left unmap rs d).
Proof.
  induction rs as [|r rs IH]; intros d; simpl.
  - rewrite unmapped_nil. split; [reflexivity|apply same_camera_refl].
  - destruct (IH (unmap d r)) as [-> Hc]. split.
    + unfold unmapped, unmap. simpl. induction (d_maps d) as [|x l IHl]; simpl; [reflexivity|].
      destruct (same_region x r); simpl; [exact IHl|]. rewrite IHl. reflexivity.
    + eapply same_camera_trans; [|exact Hc]. repeat split.
Qed.

Lemma unlock_device fuel p :
  wp (usbcam_unlock fuel)
     (fun _ p' => same_camera (dev p) (dev p') /\ d_maps (dev p') = d_maps (dev p))
     (fun _ _ => True) p.
Proof.
  unfold usbcam_unlock. apply wp_bind, wp_load.
  destruct (truthy (usbcam_has_dqbuf (cam p))).
  - apply wp_bind, wp_load, wp_bind, wp_ioctl_buffer; auto.
    intros p' a d _ _ _ Hdrv Hd _. apply drv_qbuf in Hdrv as (_ & _ & ->).
    apply wp_bind, wp_store, wp_store. simpl. rewrite Hd. repeat split.
  - apply wp_ret. split; [apply same_camera_refl|reflexivity].
Qed.

Lemma release_pool_device p :
  Inv p ->
  wp release_pool
     (fun _ p' => same_camera (dev p) (dev p') /\
                  d_maps (dev p') = unmapped (recorded_pool (cam p)) (d_maps (dev p)))
     (fun _ _ => True) p.
Proof.
  intros (L1 & L2 & B & _). unfold release_pool, recorded_pool.
  apply wp_bind, wp_load.
  destruct (truthy (usbcam_has_mmap (cam p))) eqn:Hm.
  - apply wp_bind, wp_load, wp_bind.
    apply (wp_for_range (fun j q =>
             0 <= j /\ cam q = cam p /\
             dev q = fold_left unmap (map (region (cam p)) (seq 0 (Z.to_nat j))) (dev p))).
    + simpl. split; [lia|]. auto.
    + intros j q Hj (Hj0 & Hc & Hd).
      apply wp_bind, wp_array_get_ok; [lia | rewrite Hc, L1; unfold usbcam_max_buffers in *; lia |].
      apply wp_bind, wp_array_get_ok; [lia | rewrite Hc, L2; unfold usbcam_max_buffers in *; lia |].
      apply wp_bind. unfold wp at 1, munmap. apply wp_ret. simpl.
      split; [lia|]. split; [exact Hc|].
      replace (Z.to_nat (j + 1)) with (S (Z.to_nat j)) by lia.
      rewrite seq_S, map_app, fold_left_app. simpl. rewrite <- Hd, Hc. reflexivity.
    + intros q (_ & Hc & Hd). apply wp_store. simpl.
      rewrite Z.add_0_l, Nat2Z.id in Hd. fold (pool_regions (cam p)) in Hd.
      rewrite Hd. destruct (unmap_fold_maps (pool_regions (cam p)) (dev p)) as [-> Hsame].
      auto.
  - apply wp_ret. rewrite unmapped_nil. split; [apply same_camera_refl|reflexivity].
Qed.

Lemma stop_stream_device fuel p :
  wp (stop_stream fuel)
     (fun _ p' => same_camera (dev p) (dev p') /\ d_maps (dev p') = d_maps (dev p))
     (fun _ _ => True) p.
Proof.
  unfold stop_stream. apply wp_bind, wp_load.
  destruct (truthy (usbcam_has_stream (cam p))).
  - apply wp_bind, wp_usbcam_ioctl; auto.
    intros p' a d _ _ _ Hdrv Hd _. simpl in Hdrv. inversion Hdrv; subst a d.
    apply wp_store. simpl. rewrite Hd. repeat split.
  - apply wp_ret. split; [apply same_camera_refl|reflexivity].
Qed.

Lemma close_device_device p :
  wp close_device
     (fun _ p' => same_camera (dev p) (dev p') /\ d_maps (dev p') = d_maps (dev p))
     (fun _ _ => True) p.
Proof.
  unfold close_device. apply wp_bind, wp_load.
  destruct (truthy (usbcam_has_fd (cam p))).
  - apply wp_bind, wp_load, wp_bind. unfold wp at 1, close.
    destruct (has_handle (dev p) (usbcam_fd (cam p))); apply wp_store; simpl; repeat split.
  - apply wp_ret. split; [apply same_camera_refl|reflexivity].
Qed.

Lemma cleanup_device fuel p :
  Inv p ->
  wp (usbcam_cleanup fuel)
     (fun _ p' => same_camera (dev p) (dev p') /\
                  d_maps (dev p') = unmapped (recorded_pool (cam p)) (d_maps (dev p)))
     (fun _ _ => True) p.
Proof.
  intros HI. apply (wp_rewrite _ _ _ _ _ (cleanup_unfold fuel p)).
  apply wp_bind.
  eapply wp_mono; [apply (wp_conj _ _ _ _ _ _ (unlock_spec fuel p HI) (unlock_device fuel p))
                  | | auto].
  intros [] p1 ((HI1 & Hc1 & _) & (S1 & M1)).
  apply wp_bind.
  eapply wp_mono; [apply (release_pool_device p1 HI1) | | auto].
  intros [] p2 (S2 & M2).
  apply wp_bind.
  eapply wp_mono; [apply (stop_stream_device fuel p2) | | auto].
  intros [] p3 (S3 & M3).
  eapply wp_mono; [apply (close_device_device p3) | | auto].
  intros [] p4 (S4 & M4). split.
  - eapply same_camera_trans; [exact S1|]. eapply same_camera_trans; [exact S2|].
    eapply same_camera_trans; [exact S3|exact S4].
  - rewrite M4, M3, M2, M1. unfold recorded_pool, pool_regions, region. rewrite Hc1. reflexivity.
Qed.

(** X18. [usbcam_cleanup] unmaps exactly the pool it has on record: when
    it returns, the live mappings are those from before the call less the
    regions recorded in slots [0 .. usbcam_buffers-1], if
    [usbcam_has_mmap] was set, and all of them otherwise; no region
    recorded for a slot of the pool is still mapped, and the camera node
    is otherwise as it was. *)
Theorem cleanup_unmaps_recorded_pool fuel p p' :
  attainable p -> usbcam_cleanup fuel p = Ret tt p' ->
  d_maps (dev p') = unmapped (recorded_pool (cam p)) (d_maps (dev p)) /\
  (forall r, In r (recorded_pool (cam p)) -> ~ In r (d_maps (dev p'))) /\
  same_camera (dev p) (dev p').
Proof.
  intros Ha Hr.
  pose proof (wp_elim_ret _ _ _ _ _ _ (cleanup_device fuel p (attainable_Inv p Ha)) Hr)
    as (Hs & Hm).
  split; [exact Hm|]. split; [|exact Hs].
  intros r Hin Hmap. rewrite Hm in Hmap. unfold unmapped in Hmap.
  apply filter_In in Hmap as [_ Hf]. apply negb_true_iff in Hf.
  assert (Ht : existsb (same_region r) (recorded_pool (cam p)) = true).
  { apply existsb_exists. exists r. split; [exact Hin|].
    unfold same_region. rewrite !Z.eqb_refl. reflexivity. }
  congruence.
Qed.

Lemma cleanup_unmaps_recorded_pool_witness :
  d_maps (dev (after (usbcam_cleanup 1 demo_locked))) =
    unmapped (recorded_pool (cam demo_locked)) (d_maps (dev demo_locked)) /\
  (forall r, In r (recorded_pool (cam demo_locked)) ->
             ~ In r (d_maps (dev (after (usbcam_cleanup 1 demo_locked))))) /\
  same_camera (dev demo_locked) (dev (after (usbcam_cleanup 1 demo_locked))).
Proof.
  apply (cleanup_unmaps_recorded_pool 1 demo_locked (after (usbcam_cleanup 1 demo_locked))).
  - apply reachable_attainable, reachable_demo_locked.
  - vm_compute; reflexivity.
Defined.

(** *** [usbcam_init] on a session that is already set up *)

Lemma init_absorbs_cleanup fuel opt p p1 :
  usbcam_cleanup fuel p = Ret tt p1 -> quiescent p1 ->
  usbcam_init fuel opt p = usbcam_init fuel opt p1.
Proof.
  intros Hc Hq. unfold usbcam_init.
  rewrite (bind_ret _ _ _ _ _ Hc), (bind_ret _ _ _ _ _ (cleanup_quiescent fuel p1 Hq)).
  reflexivity.
Qed.

(** X19. [usbcam_init] may be called on a session that is already set up:
    with the device open (streaming or not, a frame locked or not) and a
    camera that lets every call through and supports the requested mode,
    the call first does what [usbcam_cleanup] does and then sets the
    session up as from a closed device.  It returns ready for
    [usbcam_lock] with every buffer queued, and the calls it makes are
    those of the teardown followed by those of a first initialisation. *)
Theorem init_again fuel opt p m :
  attainable p -> truthy (usbcam_has_fd (cam p)) = true -> script p = [] ->
  d_name (dev p) = device_name opt ->
  List.find (same_mode (requested opt)) (d_modes (dev p)) = Some m ->
  0 < sizeimage m -> 0 <= d_brk (dev p) ->
  0 < buffers opt <= usbcam_max_buffers -> buffers opt <= d_max_buffers (dev p) ->
  exists p1 p',
    usbcam_cleanup (S fuel) p = Ret tt p1 /\
    usbcam_init (S fuel) opt p = Ret tt p' /\
    usbcam_init (S fuel) opt p1 = Ret tt p' /\
    lock_ready (cam p') = true /\ usbcam_buffers (cam p') = buffers opt /\
    all_queued (buffers opt) (dev p') /\
    d_trace (dev p') =
      (d_trace (dev p) ++ cleanup_trace (cam p) ++ init_trace opt m (d_brk (dev p)))%list.
Proof.
  intros Ha Hfd Hs Hname Hfind Hlen Hbrk Hn Hmaxb.
  pose proof (attainable_Inv p Ha) as HI.
  destruct (cleanup_returns (S fuel) p Ha) as (p1 & Hcl & Hq1);
    [rewrite Hs; simpl; lia | rewrite Hs; reflexivity |].
  pose proof (wp_elim_ret _ _ _ _ _ _ (cleanup_spec (S fuel) p HI) Hcl)
    as (HI1 & Hc1 & _ & (pre & Hpre) & Ht1 & Hrel).
  pose proof (wp_elim_ret _ _ _ _ _ _ (cleanup_device (S fuel) p HI) Hcl)
    as ((N1 & N2 & N3 & N4) & _).
  destruct (Hrel Hfd) as (R1 & R2 & R3 & _).
  assert (Hs1 : script p1 = []).
  { rewrite Hs in Hpre. symmetry in Hpre. apply app_eq_nil in Hpre. tauto. }
  destruct HI1 as (L1 & L2 & _).
  pose proof (init_from_idle fuel opt p1 m L1 L2 Hq1 Hs1 R1 R3) as Hwp.
  rewrite R2, N1, N2, N3, N4 in Hwp.
  specialize (Hwp ltac:(lia) Hname Hfind Hlen Hbrk Hn Hmaxb).
  unfold wp in Hwp. rewrite <- (init_absorbs_cleanup (S fuel) opt p p1 Hcl Hq1) in Hwp.
  destruct (usbcam_init (S fuel) opt p) as [[] p'|] eqn:Hinit; [|destruct Hwp].
  destruct Hwp as ((starts & lens & Hc & Hslots) & Hd & _).
  exists p1, p'. split; [exact Hcl|]. split; [reflexivity|].
  split; [rewrite <- (init_absorbs_cleanup (S fuel) opt p p1 Hcl Hq1); exact Hinit|].
  destruct Hq1 as (_ & _ & _ & Q4).
  rewrite Hc, Hd. unfold lock_ready, all_queued. simpl. rewrite Q4, Ht1, <- app_assoc.
  auto 10.
Qed.

Lemma init_again_witness :
  exists p1 p',
    usbcam_cleanup 1 demo_locked = Ret tt p1 /\
    usbcam_init 1 opt0 demo_locked = Ret tt p' /\
    usbcam_init 1 opt0 p1 = Ret tt p' /\
    lock_ready (cam p') = true /\ usbcam_buffers (cam p') = buffers opt0 /\
    all_queued (buffers opt0) (dev p') /\
    d_trace (dev p') =
      (d_trace (dev demo_locked) ++ cleanup_trace (cam demo_locked) ++
       init_trace opt0
         {| pixelformat := 1196444237; width := 640; height := 480; sizeimage := 614400 |}
         (d_brk (dev demo_locked)))%list.
Proof.
  apply (init_again 0 opt0 demo_locked
           {| pixelformat := 1196444237; width := 640; height := 480; sizeimage := 614400 |}).
  - apply reachable_attainable, reachable_demo_locked.
  - vm_compute; reflexivity.
  - vm_compute; reflexivity.
  - vm_compute; reflexivity.
  - vm_compute; reflexivity.
  - simpl; lia.
  - vm_compute; discriminate.
  - unfold usbcam_max_buffers; simpl; lia.
  - vm_compute; discriminate.
Defined.

(** *** Invariants of the device alone

    Whatever the four operations do to the device they do through the
    calls of the model, so a property of the device that those calls
    preserve holds in every state of a session. *)

Section DeviceInvariant.

Variable X : device -> Prop.
Hypothesis X_drv : forall d req arg a d', X d -> drv_ioctl d req arg = Done a d' -> X d'.
Hypothesis X_log : forall c d, X d -> X (log c d).
Hypothesis X_maps : forall m b d, X d -> X (set_maps m b d).
Hypothesis X_open : forall d, X d -> X (set_handle (Some 3) d).
Hypothesis X_close : forall d, X d -> X (set_handle None (set_queues 0 false [] [] [] d)).

Lemma keeps_bind {A B} (m : M A) (k : A -> M B) :
  keeps X m -> (forall a, keeps X (k a)) -> keeps X (bind m k).
Proof.
  intros Hm Hk p Hp. apply wp_bind. eapply wp_mono; [apply Hm, Hp | | auto].
  intros a q Hq. apply Hk, Hq.
Qed.

Lemma keeps_ret {A} (a : A) : keeps X (ret a).
Proof. intros p Hp. exact Hp. Qed.

Lemma keeps_stop {A} r : keeps X (@stop A r).
Proof. intros p Hp. exact Hp. Qed.

Lemma keeps_load {A} (f : statics -> A) : keeps X (load f).
Proof. intros p Hp. exact Hp. Qed.

Lemma keeps_store f : keeps X (store f).
Proof. intros p Hp. exact Hp. Qed.

Lemma keeps_get_errno : keeps X get_errno.
Proof. intros p Hp. exact Hp. Qed.

Lemma keeps_assert c line msg : keeps X (usbcam_assert c line msg).
Proof. intros p Hp. apply wp_assert; auto. Qed.

Lemma keeps_deref ptr : keeps X (deref ptr).
Proof. intros p Hp. apply wp_deref; auto. Qed.

Lemma keeps_array_get arr i : keeps X (array_get arr i).
Proof. intros p Hp. apply wp_array_get; auto. Qed.

Lemma keeps_array_set arr upd i v : keeps X (array_set arr upd i v).
Proof. intros p Hp. apply wp_array_set; auto. Qed.

Lemma keeps_for_range body : (forall i, keeps X (body i)) -> forall n i, keeps X (for_range i n body).
Proof.
  intros Hb. induction n as [|n IH]; intros i; simpl.
  - apply keeps_ret.
  - apply keeps_bind; [apply Hb|intros _; apply IH].
Qed.

Lemma keeps_open file oflag : keeps X (v4l2_open file oflag).
Proof.
  intros p Hp. apply wp_open.
  - intros p' [_ Hd]. rewrite Hd. exact Hp.
  - intros p' _ _ Hd. rewrite Hd. auto.
Qed.

Lemma keeps_mmap len fd offset : keeps X (mmap len fd offset).
Proof.
  intros p Hp. apply wp_mmap.
  - intros p' [_ Hd]. rewrite Hd. exact Hp.
  - intros p' _ _ Hd. rewrite Hd. auto.
Qed.

Lemma keeps_munmap addr len : keeps X (munmap addr len).
Proof. intros p Hp. unfold wp, munmap. simpl. auto. Qed.

Lemma keeps_close fd : keeps X (close fd).
Proof.
  intros p Hp. unfold wp, close. destruct (has_handle (dev p) fd); simpl; auto.
Qed.

Lemma keeps_select nfds fd : keeps X (select nfds fd).
Proof. intros p Hp. apply wp_select. intros r p' [_ Hd]. rewrite Hd. exact Hp. Qed.

Lemma keeps_usbcam_ioctl fuel req arg : keeps X (usbcam_ioctl fuel req arg).
Proof.
  intros p Hp. apply wp_usbcam_ioctl.
  - intros _. exact Hp.
  - intros p' r [_ Hd] _. rewrite Hd. exact Hp.
  - intros p' a d _ _ _ Hdrv Hd _. rewrite Hd. eauto.
Qed.

Lemma keeps_ioctl_buffer fuel req buf : keeps X (ioctl_buffer fuel req buf).
Proof.
  unfold ioctl_buffer. apply keeps_bind; [apply keeps_usbcam_ioctl|intros a; apply keeps_ret].
Qed.

Lemma keeps_unlock fuel : keeps X (usbcam_unlock fuel).
Proof.
  unfold usbcam_unlock. apply keeps_bind; [apply keeps_load|intros h].
  destruct (truthy h); [|apply keeps_ret].
  apply keeps_bind; [apply keeps_load|intros b].
  apply keeps_bind; [apply keeps_ioctl_buffer|intros b'].
  apply keeps_bind; [apply keeps_store|intros _; apply keeps_store].
Qed.

Lemma keeps_cleanup fuel : keeps X (usbcam_cleanup fuel).
Proof.
  unfold usbcam_cleanup.
  apply keeps_bind; [apply keeps_load|intros h1].
  apply keeps_bind.
  { destruct (truthy h1); [|apply keeps_ret].
    apply keeps_bind; [apply keeps_load|intros b].
    apply keeps_bind; [apply keeps_ioctl_buffer|intros b'].
    apply keeps_bind; [apply keeps_store|intros _; apply keeps_store]. }
  intros _. apply keeps_bind; [apply keeps_load|intros h2].
  apply keeps_bind.
  { destruct (truthy h2); [|apply keeps_ret].
    apply keeps_bind; [apply keeps_load|intros n].
    apply keeps_bind; [|intros _; apply keeps_store].
    apply keeps_for_range. intros i.
    apply keeps_bind; [apply keeps_array_get|intros start].
    apply keeps_bind; [apply keeps_array_get|intros len].
    apply keeps_bind; [apply keeps_munmap|intros _; apply keeps_ret]. }
  intros _. apply keeps_bind; [apply keeps_load|intros h3].
  apply keeps_bind.
  { destruct (truthy h3); [|apply keeps_ret].
    apply keeps_bind; [apply keeps_usbcam_ioctl|intros _; apply keeps_store]. }
  intros _. apply keeps_bind; [apply keeps_load|intros h4].
  destruct (truthy h4); [|apply keeps_ret].
  apply keeps_bind; [apply keeps_load|intros fd].
  apply keeps_bind; [apply keeps_close|intros _; apply keeps_store].
Qed.

Lemma keeps_drain fuel n : forall buf, keeps X (drain fuel n buf).
Proof.
  induction n as [|n IH]; intros buf; simpl.
  - apply keeps_stop.
  - apply keeps_bind; [apply keeps_load|intros fd].
    apply keeps_bind; [apply keeps_select|intros r].
    destruct (r =? 1); [|apply keeps_ret].
    apply keeps_bind; [apply keeps_ioctl_buffer|intros b1].
    apply keeps_bind; [apply keeps_ioctl_buffer|intros b2]. apply IH.
Qed.

Lemma keeps_lock fuel data size timestamp : keeps X (usbcam_lock fuel data size timestamp).
Proof.
  unfold usbcam_lock.
  apply keeps_bind; [apply keeps_load|intros h1].
  apply keeps_bind; [apply keeps_assert|intros _].
  apply keeps_bind; [apply keeps_load|intros h2].
  apply keeps_bind; [apply keeps_assert|intros _].
  apply keeps_bind; [apply keeps_load|intros h3].
  apply keeps_bind; [apply keeps_assert|intros _].
  apply keeps_bind; [apply keeps_load|intros h4].
  apply keeps_bind; [apply keeps_assert|intros _].
  apply keeps_bind; [apply keeps_ioctl_buffer|intros b1].
  apply keeps_bind; [apply keeps_drain|intros b2].
  apply keeps_bind; [apply keeps_deref|intros _].
  apply keeps_bind; [apply keeps_array_get|intros start].
  apply keeps_bind; [apply keeps_deref|intros _].
  apply keeps_bind; [apply keeps_deref|intros _].
  apply keeps_bind; [apply keeps_store|intros _].
  apply keeps_bind; [apply keeps_store|intros _]. apply keeps_ret.
Qed.

Lemma keeps_init fuel opt : keeps X (usbcam_init fuel opt).
Proof.
  unfold usbcam_init.
  apply keeps_bind; [apply keeps_cleanup|intros _].
  apply keeps_bind; [apply keeps_assert|intros _].
  apply keeps_bind; [apply keeps_assert|intros _].
  apply keeps_bind; [apply keeps_open|intros fd].
  apply keeps_bind; [apply keeps_store|intros _].
  apply keeps_bind; [apply keeps_assert|intros _].
  apply keeps_bind; [apply keeps_store|intros _].
  apply keeps_bind; [apply keeps_usbcam_ioctl|intros fmt].
  apply keeps_bind.
  { destruct fmt; try apply keeps_ret.
    apply keeps_bind; [apply keeps_assert|intros _].
    apply keeps_bind; [apply keeps_assert|intros _]. apply keeps_assert. }
  intros _. apply keeps_bind; [apply keeps_usbcam_ioctl|intros req].
  apply keeps_bind.
  { destruct req; try apply keeps_ret. apply keeps_assert. }
  intros _. apply keeps_bind.
  { apply keeps_for_range. intros i.
    apply keeps_bind; [apply keeps_ioctl_buffer|intros info].
    apply keeps_bind; [apply keeps_array_set|intros _].
    apply keeps_bind; [apply keeps_load|intros fd'].
    apply keeps_bind; [apply keeps_mmap|intros addr].
    apply keeps_bind; [apply keeps_array_set|intros _]. apply keeps_assert. }
  intros _. apply keeps_bind; [apply keeps_store|intros _].
  apply keeps_bind; [apply keeps_store|intros _].
  apply keeps_bind; [apply keeps_usbcam_ioctl|intros _].
  apply keeps_bind; [apply keeps_store|intros _].
  apply keeps_for_range. intros i.
  apply keeps_bind; [apply keeps_ioctl_buffer|intros _; apply keeps_ret].
Qed.

Lemma keeps_run fuel c : keeps X (run fuel c).
Proof.
  destruct c as [opt| |data size timestamp|]; simpl.
  - apply keeps_init.
  - apply keeps_cleanup.
  - apply keeps_bind; [apply keeps_lock|intros _; apply keeps_ret].
  - apply keeps_unlock.
Qed.

Hypothesis X_fresh : forall d, fresh d -> X d.
Hypothesis X_capture : forall bytes ts d, X d -> X (capture bytes ts d).

Lemma attainable_keeps p : attainable p -> X (dev p).
Proof.
  induction 1 as [d s Hf|p fuel c p' _ IH Hr|p fuel c r p' _ IH Hr|p p' _ IH He].
  - apply X_fresh, Hf.
  - apply (wp_elim_ret _ _ _ _ _ _ (keeps_run fuel c p IH) Hr).
  - apply (wp_elim_stop _ _ _ _ _ _ (keeps_run fuel c p IH) Hr).
  - destruct He; simpl; auto.
Qed.

End DeviceInvariant.

(** *** No buffer is lost *)

Lemma zseq_NoDup n : List.NoDup (zseq n).
Proof.
  unfold zseq. apply Finite.Injective_map_NoDup; [|apply List.seq_NoDup].
  intros x y Hxy. lia.
Qed.

Lemma zremove_absent i l : ~ In i l -> zremove i l = l.
Proof.
  induction l as [|x l IH]; intros Hn; [reflexivity|].
  unfold zremove in *. simpl.
  replace (i =? x) with false by (symmetry; apply Z.eqb_neq; intros ->; apply Hn; left; auto).
  simpl. rewrite IH; [reflexivity|]. intros Hin. apply Hn. right. exact Hin.
Qed.

Lemma zremove_perm i l : List.NoDup l -> In i l -> Permutation l (i :: zremove i l).
Proof.
  induction 1 as [|x l Hx Hnd IH]; intros Hin; [destruct Hin|].
  destruct (Z.eq_dec i x) as [->|Hne].
  - unfold zremove. simpl. rewrite Z.eqb_refl. simpl.
    fold (zremove x l). rewrite (zremove_absent x l Hx). reflexivity.
  - destruct Hin as [->|Hin]; [congruence|].
    unfold zremove. simpl.
    replace (i =? x) with false by (symmetry; apply Z.eqb_neq; exact Hne).
    simpl. fold (zremove i l).
    eapply Permutation_trans; [apply perm_skip, IH, Hin|]. apply perm_swap.
Qed.

Lemma conserved_drv d req arg a d' :
  conserved d -> drv_ioctl d req arg = Done a d' -> conserved d'.
Proof.
  unfold conserved. intros Hc.
  destruct req, arg; simpl; try discriminate.
  - destruct (d_streaming d || (0 <? d_count d)); [discriminate|].
    destruct (List.find (same_mode pix) (d_modes d)); [|destruct (d_modes d); [discriminate|]];
      intros H; inversion H; subst; exact Hc.
  - destruct (d_streaming d); [discriminate|].
    intros H; inversion H; subst. simpl. reflexivity.
  - destruct ((0 <=? b_index b) && (b_index b <? d_count d)); [|discriminate].
    intros H; inversion H; subst. exact Hc.
  - destruct (zmem (b_index b) (d_user d)) eqn:Hz; [|discriminate].
    intros H; inversion H; subst. simpl.
    apply zmem_In in Hz.
    assert (Hnd : List.NoDup (d_user d)).
    { pose proof (Permutation.Permutation_NoDup (Permutation_sym Hc) (zseq_NoDup _)) as Hn.
      apply List.NoDup_app_remove_l in Hn. apply List.NoDup_app_remove_l in Hn. exact Hn. }
    rewrite <- Hc. rewrite <- app_assoc. apply Permutation_app_head. simpl.
    rewrite (zremove_perm _ _ Hnd Hz) at 2. apply Permutation_middle.
  - destruct (d_streaming d); [|discriminate].
    destruct (d_done d) as [|b0 rest] eqn:Hd; [discriminate|].
    intros H; inversion H; subst. simpl.
    rewrite <- Hc. simpl. apply Permutation_app_head.
    rewrite app_assoc. symmetry. apply Permutation_cons_append.
  - intros H; inversion H; subst. exact Hc.
  - intros H; inversion H; subst. simpl. reflexivity.
Qed.

Lemma conserved_capture bytes ts d : conserved d -> conserved (capture bytes ts d).
Proof.
  unfold conserved, capture. intros Hc.
  destruct (d_incoming d) as [|i rest] eqn:Hi; [rewrite Hi; exact Hc|].
  destruct (d_streaming d && (0 <=? bytes) && (bytes <=? d_buflen d)); [|rewrite Hi; exact Hc].
  simpl. rewrite <- Hc. rewrite map_app. simpl.
  rewrite <- app_assoc. simpl. rewrite !app_assoc. symmetry. apply Permutation_middle.
Qed.

Lemma attainable_conserved p : attainable p -> conserved (dev p).
Proof.
  apply (attainable_keeps conserved).
  - apply conserved_drv.
  - intros c d H; exact H.
  - intros m b d H; exact H.
  - intros d H; exact H.
  - intros d _. unfold conserved. simpl. reflexivity.
  - intros d (_ & Hc & _ & Hi & Hd & Hu & _). unfold conserved.
    rewrite Hc, Hi, Hd, Hu. reflexivity.
  - apply conserved_capture.
Qed.

(** X20. No buffer is lost or handed out twice: while a session that was
    set up runs (every call so far has returned), the buffers queued for
    filling, the filled buffers waiting to be dequeued and the buffer
    locked by the application, if there is one, are together exactly the
    [usbcam_buffers] buffers of the pool, each once. *)
Theorem buffers_conserved p :
  reachable p ->
  truthy (usbcam_has_mmap (cam p)) = true -> truthy (usbcam_has_stream (cam p)) = true ->
  Permutation (d_incoming (dev p) ++ map b_index (d_done (dev p)) ++ held (cam p))
              (zseq (usbcam_buffers (cam p))).
Proof.
  intros Hr Hm Hs.
  pose proof (reachable_attainable p Hr) as Ha.
  pose proof (attainable_conserved p Ha) as Hc.
  destruct (attainable_Inv p Ha) as (_ & _ & _ & _ & _ & _ & _ & P).
  destruct (P Hm Hs) as [Hn _].
  unfold conserved in Hc. rewrite (reachable_owns p Hr), Hn in Hc. exact Hc.
Qed.

Lemma buffers_conserved_witness :
  Permutation (d_incoming (dev demo_locked) ++ map b_index (d_done (dev demo_locked)) ++
               held (cam demo_locked))
              (zseq (usbcam_buffers (cam demo_locked))).
Proof.
  apply (buffers_conserved demo_locked).
  - apply reachable_demo_locked.
  - vm_compute; reflexivity.
  - vm_compute; reflexivity.
Defined.

(** *** [usbcam_lock] and interrupted requests *)

Lemma ioctl_buffer_transient fuel req buf p ts b d :
  truthy (usbcam_has_fd (cam p)) = true ->
  has_handle (dev p) (usbcam_fd (cam p)) = true ->
  script p = ts -> forallb retried_fault ts = true -> (length ts < fuel)%nat ->
  drv_ioctl (dev p) req (ArgBuffer buf) = Done (ArgBuffer b) d ->
  exists e, ioctl_buffer fuel req buf p =
            Ret b (settled p e [] (log (SysIoctl req (ArgBuffer b)) d)).
Proof.
  intros Hfd Hh Hs Ht Hf Hd.
  destruct (ioctl_retry_transient req (ArgBuffer buf) (ArgBuffer b) d [] ts p fuel)
    as (e & He & _); auto.
  { rewrite app_nil_r. exact Hs. }
  { reflexivity. }
  exists e. unfold ioctl_buffer. unfold bind at 1.
  rewrite usbcam_ioctl_open by exact Hfd.
  unfold bind at 1. rewrite He. reflexivity.
Qed.

(** X21. [usbcam_lock] rides out interrupted requests: when the device
    answers the first dequeue with [EINTR] or [EAGAIN] any number of times
    before letting it through, the call returns what it returns on a
    device that was never interrupted: the frame of the most recently
    filled buffer, locked, with every older filled buffer given back to
    the driver in order. *)
Theorem lock_rides_out_interruptions fuel data size timestamp p ts bs b a :
  lock_ready (cam p) = true ->
  has_handle (dev p) (usbcam_fd (cam p)) = true -> d_streaming (dev p) = true ->
  script p = ts -> forallb retried_fault ts = true ->
  (length ts + length bs < fuel)%nat ->
  d_done (dev p) = (bs ++ [b])%list ->
  data <> NULL -> size <> NULL -> timestamp <> NULL ->
  0 <= b_index b ->
  usbcam_buffer_start (cam p) !! Z.to_nat (b_index b) = Some a ->
  exists p',
    usbcam_lock fuel data size timestamp p =
      Ret {| f_data := a; f_size := b_bytesused b; f_timestamp := b_timestamp b |} p' /\
    usbcam_dqbuf (cam p') = b /\ usbcam_has_dqbuf (cam p') = 1 /\
    d_incoming (dev p') = (d_incoming (dev p) ++ map b_index bs)%list /\
    d_done (dev p') = [] /\ script p' = [].
Proof.
  intros Hr Hh Hst Hs Ht Hfuel Hd Hdata Hsize Hts Hi Ha.
  assert (Hpre : exists q, lock_prefix fuel p = Ret b q /\ cam q = cam p /\
                   d_incoming (dev q) = (d_incoming (dev p) ++ map b_index bs)%list /\
                   d_done (dev q) = [] /\ script q = []).
  { unfold lock_ready in Hr.
    apply andb_true_iff in Hr as [Hr H4]. apply andb_true_iff in Hr as [Hr H3].
    apply andb_true_iff in Hr as [H1 H2].
    unfold lock_prefix.
    run_step. rewrite H1. run_step. rewrite H2. run_step. rewrite H3. run_step. rewrite H4.
    cbv beta iota.
    destruct fuel as [|fuel]; [lia|].
    destruct bs as [|x bs]; simpl in Hd.
    - assert (Hq : drv_ioctl (dev p) VIDIOC_DQBUF (ArgBuffer (capture_buffer 0)) =
                 Done (ArgBuffer b)
                   (set_queues (d_count (dev p)) true (d_incoming (dev p)) []
                      (d_user (dev p) ++ [b_index b]) (dev p))).
      { simpl. rewrite Hst, Hd. reflexivity. }
      destruct (ioctl_buffer_transient (S fuel) _ _ p ts _ _ H2 Hh Hs Ht ltac:(lia) Hq)
        as (e & ->).
      rewrite drain_idle by auto.
      eexists; split; [reflexivity|]. simpl. rewrite app_nil_r. auto.
    - assert (Hq : drv_ioctl (dev p) VIDIOC_DQBUF (ArgBuffer (capture_buffer 0)) =
                 Done (ArgBuffer x)
                   (set_queues (d_count (dev p)) true (d_incoming (dev p)) (bs ++ [b])
                      (d_user (dev p) ++ [b_index x]) (dev p))).
      { simpl. rewrite Hst, Hd. reflexivity. }
      destruct (ioctl_buffer_transient (S fuel) _ _ p ts _ _ H2 Hh Hs Ht ltac:(lia) Hq)
        as (e & ->).
      match goal with |- context [drain _ _ x ?s] => set (q1 := s) end.
      destruct (drain_latest fuel bs b x q1 (S fuel))
        as (q' & Hr & Hc & Hs' & He & Hin & Hdn & Htr); simpl; auto.
      { apply zmem_In, in_or_app. right. left. reflexivity. }
      { simpl in Hfuel. lia. }
      exists q'. split; [exact Hr|]. simpl in *. auto. }
  destruct Hpre as (q & Hq & Hc & Hin & Hdn & Hsq).
  rewrite lock_split, (bind_ret _ _ _ _ _ Hq).
  rewrite <- Hc in Ha.
  rewrite (lock_output_ok data size timestamp b q a Hdata Hsize Hts Hi Ha).
  eexists; split; [reflexivity|]. simpl. auto 10.
Qed.

Lemma lock_rides_out_interruptions_witness :
  exists p',
    usbcam_lock 5 1000 1008 1016 (set_script [Some EINTR; Some EAGAIN] demo_filled) =
      Ret {| f_data := 1232896; f_size := 300; f_timestamp := ts0 3 |} p' /\
    usbcam_dqbuf (cam p') = filled 2 300 (ts0 3) 614400 /\
    usbcam_has_dqbuf (cam p') = 1 /\
    d_incoming (dev p') =
      (d_incoming (dev (set_script [Some EINTR; Some EAGAIN] demo_filled)) ++
       map b_index [filled 0 100 (ts0 1) 614400; filled 1 200 (ts0 2) 614400])%list /\
    d_done (dev p') = [] /\ script p' = [].
Proof.
  apply (lock_rides_out_interruptions 5 1000 1008 1016
           (set_script [Some EINTR; Some EAGAIN] demo_filled) [Some EINTR; Some EAGAIN]
           [filled 0 100 (ts0 1) 614400; filled 1 200 (ts0 2) 614400]
           (filled 2 300 (ts0 3) 614400) 1232896).
  - vm_compute; reflexivity.
  - vm_compute; reflexivity.
  - vm_compute; reflexivity.
  - reflexivity.
  - reflexivity.
  - simpl; lia.
  - vm_compute; reflexivity.
  - unfold NULL; lia.
  - unfold NULL; lia.
  - unfold NULL; lia.
  - simpl; lia.
  - vm_compute; reflexivity.
Defined.

(** *** A lock followed by its unlock *)

Lemma lock_ret_cam fuel data size timestamp p f p' :
  usbcam_lock fuel data size timestamp p = Ret f p' ->
  lock_ready (cam p) = true /\
  cam p' = set_has_dqbuf 1 (set_dqbuf (usbcam_dqbuf (cam p')) (cam p)).
Proof.
  rewrite lock_split. unfold bind at 1.
  pose proof (lock_prefix_cam fuel p) as Hc.
  pose proof (lock_prefix_ready fuel p) as Hr.
  destruct (lock_prefix fuel p) as [buf q|]; [|discriminate].
  specialize (Hr buf q eq_refl).
  unfold lock_output, bind, deref, array_get.
  destruct (timestamp =? NULL); [discriminate|]. simpl.
  destruct (b_index buf <? 0); [discriminate|].
  destruct (usbcam_buffer_start (cam q) !! Z.to_nat (b_index buf)); [|discriminate].
  destruct (data =? NULL); [discriminate|]. simpl.
  destruct (size =? NULL); [discriminate|]. simpl.
  intros H; inversion H; subst; clear H. simpl. rewrite Hc. auto.
Qed.

(** X22. A lock and its unlock leave the session as it was: when, in a
    running session, [usbcam_lock] returns and the [usbcam_unlock] that
    follows it returns, with the driver completing any captures in
    between, the statics are those from before the lock except for the
    record of the last dequeued buffer, so the session is ready for the
    next [usbcam_lock], and every buffer of the pool is back with the
    driver, queued or filled. *)
Theorem lock_unlock_round_trip fuel fuel' data size timestamp p f p1 p2 p3 :
  reachable p -> usbcam_lock fuel data size timestamp p = Ret f p1 ->
  env_step p1 p2 -> usbcam_unlock fuel' p2 = Ret tt p3 ->
  cam p3 = set_dqbuf (usbcam_dqbuf (cam p1)) (cam p) /\
  lock_ready (cam p3) = true /\
  d_user (dev p3) = [] /\
  Permutation (d_incoming (dev p3) ++ map b_index (d_done (dev p3)))
              (zseq (usbcam_buffers (cam p))).
Proof.
  intros Hr Hl He Hu.
  destruct (lock_ret_cam _ _ _ _ _ _ _ Hl) as (Hready & Hc1).
  assert (Hr1 : reachable p1).
  { apply (reach_call p fuel (Lock data size timestamp) p1 Hr). simpl.
    rewrite (bind_ret _ _ _ _ _ Hl). reflexivity. }
  assert (Hr2 : reachable p2) by (apply (reach_env p1 p2 Hr1 He)).
  assert (Hr3 : reachable p3) by (apply (reach_call p2 fuel' Unlock p3 Hr2 Hu)).
  assert (Hc2 : cam p2 = cam p1) by (destruct He; reflexivity).
  pose proof (wp_elim_ret _ _ _ _ _ _
                (unlock_spec fuel' p2 (attainable_Inv p2 (reachable_attainable p2 Hr2))) Hu)
    as (HI3 & Hc3 & _ & _ & _ & _ & Huser).
  specialize (Huser (reachable_owns p2 Hr2)).
  assert (Hcam : cam p3 = set_dqbuf (usbcam_dqbuf (cam p1)) (cam p)).
  { rewrite Hc3, Hc2, Hc1. unfold lock_ready in Hready.
    apply andb_true_iff in Hready as [Hx _]. apply andb_true_iff in Hx as [Hx _].
    apply andb_true_iff in Hx as [Hx _]. apply negb_true_iff, truthy_false in Hx.
    destruct (cam p); simpl in *. subst. reflexivity. }
  split; [exact Hcam|].
  assert (Hready3 : lock_ready (cam p3) = true) by (rewrite Hcam; exact Hready).
  split; [exact Hready3|]. split; [exact Huser|].
  pose proof (attainable_conserved p3 (reachable_attainable p3 Hr3)) as Hcons.
  unfold conserved in Hcons. rewrite Huser, app_nil_r in Hcons.
  destruct HI3 as (_ & _ & _ & _ & _ & _ & _ & P).
  unfold lock_ready in Hready3.
  apply andb_true_iff in Hready3 as [Hx Hs3]. apply andb_true_iff in Hx as [_ Hm3].
  destruct (P Hm3 Hs3) as [Hn _]. rewrite Hn, Hcam in Hcons. exact Hcons.
Qed.

Lemma lock_unlock_round_trip_witness :
  cam (after (usbcam_unlock 1 (world_step (capture 400 (ts0 4)) demo_locked))) =
    set_dqbuf (usbcam_dqbuf (cam demo_locked)) (cam demo_filled) /\
  lock_ready (cam (after (usbcam_unlock 1 (world_step (capture 400 (ts0 4)) demo_locked))))
    = true /\
  d_user (dev (after (usbcam_unlock 1 (world_step (capture 400 (ts0 4)) demo_locked)))) = [] /\
  Permutation
    (d_incoming (dev (after (usbcam_unlock 1 (world_step (capture 400 (ts0 4)) demo_locked))))
     ++ map b_index
          (d_done (dev (after (usbcam_unlock 1
             (world_step (capture 400 (ts0 4)) demo_locked))))))
    (zseq (usbcam_buffers (cam demo_filled))).
Proof.
  apply (lock_unlock_round_trip 4 1 1000 1008 1016 demo_filled
           {| f_data := 1232896; f_size := 300; f_timestamp := ts0 3 |}
           demo_locked (world_step (capture 400 (ts0 4)) demo_locked)
           (after (usbcam_unlock 1 (world_step (capture 400 (ts0 4)) demo_locked)))).
  - apply reachable_demo_filled.
  - vm_compute; reflexivity.
  - apply env_capture.
  - vm_compute; reflexivity.
Defined.
